(** * nestjs-otel-observability: masking, truncation, classification,
      resilient logging, metrics and publish hooks

    A shallow embedding of the TypeScript sources and the properties the
    specification states about them.

    Conventions of the embedding.
    - JavaScript values are the inductive type [JValue]; an object is the
      list of its own enumerable properties in property order
      ([Object.entries]), an array is the list of its items.
    - Strings are [string]; [.length], [.substring], [.includes] are counted
      in characters, and the case mappings are the ASCII ones.
    - A computation that may throw returns a [Completion].
    - Module state ([let] bindings at the top of a source file) and the
      effects on external collaborators (console, counters, spans, the
      remote log sink) are threaded explicitly. *)

From Stdlib Require Import String Ascii List ZArith Lia Bool Arith.
From Stdlib Require Import DecimalString Decimal.
From Stdlib Require DecimalPos DecimalZ.
Import ListNotations.

Local Open Scope list_scope.
Local Open Scope string_scope.

(* ================================================================= *)
(** ** JavaScript strings *)

Module JsString.

Definition is_upper (c : ascii) : bool :=
  let n := nat_of_ascii c in (65 <=? n)%nat && (n <=? 90)%nat.

Definition is_lower (c : ascii) : bool :=
  let n := nat_of_ascii c in (97 <=? n)%nat && (n <=? 122)%nat.

Definition is_digit (c : ascii) : bool :=
  let n := nat_of_ascii c in (48 <=? n)%nat && (n <=? 57)%nat.

Definition lower_char (c : ascii) : ascii :=
  if is_upper c then ascii_of_nat (nat_of_ascii c + 32) else c.

Definition upper_char (c : ascii) : ascii :=
  if is_lower c then ascii_of_nat (nat_of_ascii c - 32) else c.

Fixpoint map_chars (f : ascii -> ascii) (s : string) : string :=
  match s with
  | EmptyString => EmptyString
  | String c r => String (f c) (map_chars f r)
  end.

(** [s.toLowerCase()] and [s.toUpperCase()]. *)
Definition toLowerCase : string -> string := map_chars lower_char.
Definition toUpperCase : string -> string := map_chars upper_char.

(** [s.startsWith(t)]. *)
Fixpoint startsWith (s t : string) {struct t} : bool :=
  match t, s with
  | EmptyString, _ => true
  | String _ _, EmptyString => false
  | String a t', String b s' => Ascii.eqb a b && startsWith s' t'
  end.

(** [s.includes(t)]: [t] occurs in [s] at some position. *)
Fixpoint includes (s t : string) : bool :=
  startsWith s t ||
  match s with
  | EmptyString => false
  | String _ s' => includes s' t
  end.

(** [s.substring(0, n)] for an integer [n]; a negative [n] counts as 0. *)
Definition substring0 (n : Z) (s : string) : string :=
  String.substring 0 (Z.to_nat n) s.

Fixpoint repeat_char (c : ascii) (n : nat) : string :=
  match n with
  | O => EmptyString
  | S k => String c (repeat_char c k)
  end.

(** [s.padEnd(n)]: pads with spaces up to length [n]. *)
Definition padEnd (n : nat) (s : string) : string :=
  s ++ repeat_char " "%char (n - String.length s).

(** Decimal rendering of an integer, as [String(n)] gives for a number
    that holds an integer. *)
Definition string_of_Z (z : Z) : string :=
  NilEmpty.string_of_int (Z.to_int z).

Definition string_of_nat (n : nat) : string := string_of_Z (Z.of_nat n).

Fixpoint all_chars (p : ascii -> bool) (s : string) : bool :=
  match s with
  | EmptyString => true
  | String c r => p c && all_chars p r
  end.

(** [s.substring(n)] for a natural [n]. *)
Fixpoint drop (n : nat) (s : string) : string :=
  match n, s with
  | S k, String _ r => drop k r
  | _, _ => s
  end.

(** The property the specification words as "contains as a substring". *)
Definition Contains (s t : string) : Prop :=
  exists a b, s = a ++ t ++ b.

End JsString.
Import JsString.

(* ================================================================= *)
(** ** JavaScript values and completions *)

(** [JError] is an instance of [Error] (or of a subclass): [name],
    [message] and [stack] are visible to [in] and to property reads but are
    not enumerable; [props] are its own enumerable properties. *)
Unset Elimination Schemes.
Inductive JValue : Type :=
| JUndefined
| JNull
| JBool (b : bool)
| JNum (n : Z)
| JBigInt (n : Z)
| JStr (s : string)
| JFunction (src : string)
| JArr (items : list JValue)
| JObj (props : list (string * JValue))
| JError (name message stack : string) (props : list (string * JValue)).
Set Elimination Schemes.

(** The induction principle that reaches the values nested in arrays and
    property lists. *)
Section JValueInduction.
Variable P : JValue -> Prop.
Hypothesis H_undefined : P JUndefined.
Hypothesis H_null : P JNull.
Hypothesis H_bool : forall b, P (JBool b).
Hypothesis H_num : forall n, P (JNum n).
Hypothesis H_bigint : forall n, P (JBigInt n).
Hypothesis H_str : forall s, P (JStr s).
Hypothesis H_function : forall src, P (JFunction src).
Hypothesis H_arr : forall items, Forall P items -> P (JArr items).
Hypothesis H_obj :
  forall props, Forall (fun kv => P (snd kv)) props -> P (JObj props).
Hypothesis H_error :
  forall name message stack props,
    Forall (fun kv => P (snd kv)) props -> P (JError name message stack props).

Fixpoint JValue_ind (v : JValue) : P v :=
  let props_ind :=
    fix go (l : list (string * JValue)) : Forall (fun kv => P (snd kv)) l :=
      match l with
      | [] => Forall_nil _
      | kv :: r => Forall_cons kv (JValue_ind (snd kv)) (go r)
      end in
  match v with
  | JUndefined => H_undefined
  | JNull => H_null
  | JBool b => H_bool b
  | JNum n => H_num n
  | JBigInt n => H_bigint n
  | JStr s => H_str s
  | JFunction src => H_function src
  | JArr items =>
      H_arr items
        ((fix go (l : list JValue) : Forall P l :=
            match l with
            | [] => Forall_nil _
            | x :: r => Forall_cons x (JValue_ind x) (go r)
            end) items)
  | JObj props => H_obj props (props_ind props)
  | JError name message stack props =>
      H_error name message stack props (props_ind props)
  end.
End JValueInduction.

(** Any value can be thrown; the errors the runtime itself raises are
    [Error] instances. *)
Definition TypeError (msg : string) : JValue := JError "TypeError" msg "" [].
Definition SyntaxError (msg : string) : JValue := JError "SyntaxError" msg "" [].

Inductive Completion (A : Type) : Type :=
| Normal (a : A)
| Throw (e : JValue).
Arguments Normal {A} a.
Arguments Throw {A} e.

Definition bindC {A B} (c : Completion A) (k : A -> Completion B) : Completion B :=
  match c with
  | Normal a => k a
  | Throw e => Throw e
  end.

Notation "x <- c ;; k" := (bindC c (fun x => k))
  (at level 61, c at next level, right associativity).

Module Js.

(** [typeof v]. *)
Definition typeof (v : JValue) : string :=
  match v with
  | JUndefined => "undefined"
  | JNull => "object"
  | JBool _ => "boolean"
  | JNum _ => "number"
  | JBigInt _ => "bigint"
  | JStr _ => "string"
  | JFunction _ => "function"
  | JArr _ => "object"
  | JObj _ => "object"
  | JError _ _ _ _ => "object"
  end.

(** Truthiness, as [if (v)], [v && ...] and [!!v] test it. *)
Definition truthy (v : JValue) : bool :=
  match v with
  | JUndefined | JNull => false
  | JBool b => b
  | JNum n | JBigInt n => negb (Z.eqb n 0)
  | JStr s => negb (String.eqb s "")
  | JFunction _ | JArr _ | JObj _ | JError _ _ _ _ => true
  end.

Definition isArray (v : JValue) : bool :=
  match v with JArr _ => true | _ => false end.

(** [typeof v === 'object' && v !== null]. *)
Definition isObjectLike (v : JValue) : bool :=
  match v with JArr _ | JObj _ | JError _ _ _ _ => true | _ => false end.

(** [v instanceof Error]. *)
Definition instanceofError (v : JValue) : bool :=
  match v with JError _ _ _ _ => true | _ => false end.

(** Indexed traversal of an array: [f i item] for the item at index [i]. *)
Fixpoint mapi {A B} (f : nat -> A -> B) (i : nat) (l : list A) : list B :=
  match l with
  | [] => []
  | x :: r => f i x :: mapi f (S i) r
  end.

(** [Object.entries(v)] for an object or an array. *)
Definition entries (v : JValue) : list (string * JValue) :=
  match v with
  | JObj props => props
  | JError _ _ _ props => props
  | JArr items => mapi (fun i item => (string_of_nat i, item)) 0 items
  | JStr s =>
      mapi (fun i c => (string_of_nat i, JStr (String c ""))) 0
           (list_ascii_of_string s)
  | _ => []
  end.

(** Property lookup [o[k]] on a property list; the last write to a key
    is the one an object keeps, and a list built by [set] has one entry
    per key. *)
Fixpoint get (k : string) (props : list (string * JValue)) : JValue :=
  match props with
  | [] => JUndefined
  | (k', v) :: r => if String.eqb k k' then v else get k r
  end.

(** [k in o]. *)
Fixpoint has (k : string) (props : list (string * JValue)) : bool :=
  match props with
  | [] => false
  | (k', _) :: r => String.eqb k k' || has k r
  end.

(** [o[k] = v]: overwrite in place when the key exists, append otherwise. *)
Fixpoint set (k : string) (v : JValue) (props : list (string * JValue))
  : list (string * JValue) :=
  match props with
  | [] => [(k, v)]
  | (k', v') :: r =>
      if String.eqb k k' then (k', v) :: r else (k', v') :: set k v r
  end.

(** [Object.assign(target, source)]. *)
Definition assign (target source : list (string * JValue))
  : list (string * JValue) :=
  fold_left (fun acc kv => set (fst kv) (snd kv) acc) source target.

(** [delete]-like removal used to model rest destructuring
    [{ a, b, ...rest }]. *)
Definition omit (ks : list string) (props : list (string * JValue))
  : list (string * JValue) :=
  filter (fun kv => negb (existsb (String.eqb (fst kv)) ks)) props.

(** [k in v] for an object: own properties, and for an [Error] instance
    also [name], [message] and [stack]; for an array its [length] and
    its indices.  Callers test [typeof v === 'object'] first. *)
Definition hasIn (k : string) (v : JValue) : bool :=
  match v with
  | JObj props => has k props
  | JError _ _ _ props =>
      has k props || existsb (String.eqb k) ["name"; "message"; "stack"]
  | JArr items => String.eqb k "length" || has k (entries v)
  | _ => false
  end.

(** [v[k]] (also written [v.k]) for an object. *)
Definition getProp (v : JValue) (k : string) : JValue :=
  match v with
  | JObj props => get k props
  | JError name message stack props =>
      if has k props then get k props
      else if String.eqb k "name" then JStr name
      else if String.eqb k "message" then JStr message
      else if String.eqb k "stack" then JStr stack
      else JUndefined
  | JArr items =>
      if String.eqb k "length" then JNum (Z.of_nat (List.length items))
      else get k (entries v)
  | _ => JUndefined
  end.

(** [v?.k]: [undefined] when [v] is [null] or [undefined]. *)
Definition optProp (v : JValue) (k : string) : JValue := getProp v k.

(** [Object.keys(v)]. *)
Definition keys (v : JValue) : JValue :=
  JArr (map (fun kv => JStr (fst kv)) (entries v)).

Fixpoint join (sep : string) (parts : list string) : string :=
  match parts with
  | [] => ""
  | [x] => x
  | x :: r => x ++ sep ++ join sep r
  end.

(** [String(v)], which is also what a template literal applies. *)
Fixpoint toString (v : JValue) : string :=
  match v with
  | JUndefined => "undefined"
  | JNull => "null"
  | JBool true => "true"
  | JBool false => "false"
  | JNum n => string_of_Z n
  | JBigInt n => string_of_Z n
  | JStr s => s
  | JFunction src => src
  | JArr items =>
      join "," (map (fun item =>
                       match item with
                       | JUndefined | JNull => ""
                       | _ => toString item
                       end) items)
  | JObj _ => "[object Object]"
  | JError name message _ _ =>
      if String.eqb name "" then message
      else if String.eqb message "" then name
      else name ++ ": " ++ message
  end.

(** [v === s] for a string literal [s]. *)
Definition strictEqStr (v : JValue) (s : string) : bool :=
  match v with JStr t => String.eqb t s | _ => false end.

(** [v.toUpperCase()]: a method of strings only. *)
Definition callToUpperCase (v : JValue) : Completion string :=
  match v with
  | JStr s => Normal (toUpperCase s)
  | JUndefined | JNull =>
      Throw (TypeError "Cannot read properties of undefined (reading 'toUpperCase')")
  | _ => Throw (TypeError "toUpperCase is not a function")
  end.

(** [v.substring(0, n)]: a method of strings only. *)
Definition callSubstring0 (v : JValue) (n : Z) : Completion string :=
  match v with
  | JStr s => Normal (substring0 n s)
  | JUndefined | JNull =>
      Throw (TypeError "Cannot read properties of undefined (reading 'substring')")
  | _ => Throw (TypeError "substring is not a function")
  end.

(** [v.k]: reading a property of [null] or [undefined] throws. *)
Definition member (v : JValue) (k : string) : Completion JValue :=
  match v with
  | JUndefined | JNull =>
      Throw (TypeError ("Cannot read properties of undefined (reading '" ++ k ++ "')"))
  | _ => Normal (getProp v k)
  end.

(** [v?.toUpperCase()]. *)
Definition optToUpperCase (v : JValue) : Completion JValue :=
  match v with
  | JUndefined | JNull => Normal JUndefined
  | _ => u <- callToUpperCase v ;; Normal (JStr u)
  end.

(** [v || d]. *)
Definition orElse (v d : JValue) : JValue := if truthy v then v else d.

End Js.

(* ================================================================= *)
(** ** JSON.stringify and JSON.parse *)

Module JSON.

Definition dquote : ascii := "034"%char.
Definition backslash : ascii := "092"%char.

Definition hex_digit (n : nat) : ascii :=
  if (n <? 10)%nat then ascii_of_nat (48 + n) else ascii_of_nat (87 + n).

(** One character of a quoted JSON string. *)
Definition escape_char (c : ascii) : string :=
  let n := nat_of_ascii c in
  if (n =? 34)%nat then String backslash (String dquote "")
  else if (n =? 92)%nat then String backslash (String backslash "")
  else if (n =? 8)%nat then String backslash "b"
  else if (n =? 12)%nat then String backslash "f"
  else if (n =? 10)%nat then String backslash "n"
  else if (n =? 13)%nat then String backslash "r"
  else if (n =? 9)%nat then String backslash "t"
  else if (n <? 32)%nat then
    String backslash
      (String "u" (String "0" (String "0"
         (String (hex_digit (n / 16)) (String (hex_digit (n mod 16)) "")))))
  else String c "".

Fixpoint escape (s : string) : string :=
  match s with
  | EmptyString => ""
  | String c r => escape_char c ++ escape r
  end.

(** The quoted form of a string (QuoteJSONString). *)
Definition quote (s : string) : string :=
  String dquote (escape s ++ String dquote "").

(** SerializeJSONProperty: [None] is the [undefined] result that makes
    an object skip the property and an array write [null]. *)
Fixpoint serialize (v : JValue) : Completion (option string) :=
  let serializeProps :=
    fix go (l : list (string * JValue)) : Completion (list string) :=
      match l with
      | [] => Normal []
      | kv :: r =>
          s <- serialize (snd kv) ;;
          rest <- go r ;;
          Normal (match s with
                  | Some t => (quote (fst kv) ++ ":" ++ t) :: rest
                  | None => rest
                  end)
      end in
  match v with
  | JUndefined | JFunction _ => Normal None
  | JNull => Normal (Some "null")
  | JBool true => Normal (Some "true")
  | JBool false => Normal (Some "false")
  | JNum n => Normal (Some (string_of_Z n))
  | JBigInt _ => Throw (TypeError "Do not know how to serialize a BigInt")
  | JStr s => Normal (Some (quote s))
  | JArr items =>
      parts <- (fix go (l : list JValue) : Completion (list string) :=
                  match l with
                  | [] => Normal []
                  | x :: r =>
                      s <- serialize x ;;
                      rest <- go r ;;
                      Normal (match s with
                              | Some t => t
                              | None => "null"
                              end :: rest)
                  end) items ;;
      Normal (Some ("[" ++ Js.join "," parts ++ "]"))
  | JObj props | JError _ _ _ props =>
      parts <- serializeProps props ;;
      Normal (Some ("{" ++ Js.join "," parts ++ "}"))
  end.

(** The two inner loops of [serialize] on their own. *)
Fixpoint serialize_props (l : list (string * JValue)) : Completion (list string) :=
  match l with
  | [] => Normal []
  | kv :: r =>
      s <- serialize (snd kv) ;;
      rest <- serialize_props r ;;
      Normal (match s with
              | Some t => (quote (fst kv) ++ ":" ++ t) :: rest
              | None => rest
              end)
  end.

Fixpoint serialize_items (l : list JValue) : Completion (list string) :=
  match l with
  | [] => Normal []
  | x :: r =>
      s <- serialize x ;;
      rest <- serialize_items r ;;
      Normal (match s with Some t => t | None => "null" end :: rest)
  end.

(** [JSON.stringify(v)]: a string, [undefined] ([None]), or a throw. *)
Definition stringify (v : JValue) : Completion (option string) := serialize v.

(** No [BigInt] anywhere inside: the values [stringify] does not throw on. *)
Fixpoint serializable (v : JValue) : bool :=
  match v with
  | JBigInt _ => false
  | JArr items => forallb serializable items
  | JObj props | JError _ _ _ props =>
      forallb (fun kv => serializable (snd kv)) props
  | _ => true
  end.

(** *** JSON.parse

    A recursive-descent reader for the JSON texts this development
    meets: the ones [stringify] writes (integer number literals, the
    escapes of [escape_char]), with optional white space. *)

Definition is_ws (c : ascii) : bool :=
  let n := nat_of_ascii c in
  (n =? 32)%nat || (n =? 9)%nat || (n =? 10)%nat || (n =? 13)%nat.

Fixpoint skip_ws (s : string) : string :=
  match s with
  | String c r => if is_ws c then skip_ws r else s
  | EmptyString => s
  end.

Definition hex_value (c : ascii) : option nat :=
  let n := nat_of_ascii c in
  if is_digit c then Some (n - 48)
  else if (97 <=? n)%nat && (n <=? 102)%nat then Some (n - 87)
  else if (65 <=? n)%nat && (n <=? 70)%nat then Some (n - 55)
  else None.

(** The character an escape letter stands for. *)
Definition unescape_letter (e : ascii) : option ascii :=
  let n := nat_of_ascii e in
  if (n =? 34)%nat then Some dquote
  else if (n =? 92)%nat then Some backslash
  else if (n =? 47)%nat then Some "/"%char
  else if (n =? 98)%nat then Some (ascii_of_nat 8)
  else if (n =? 102)%nat then Some (ascii_of_nat 12)
  else if (n =? 110)%nat then Some (ascii_of_nat 10)
  else if (n =? 114)%nat then Some (ascii_of_nat 13)
  else if (n =? 116)%nat then Some (ascii_of_nat 9)
  else None.

Definition cons_result (c : ascii) (r : option (string * string))
  : option (string * string) :=
  match r with
  | Some (x, rest) => Some (String c x, rest)
  | None => None
  end.

(** Reads a string literal after its opening quote, up to and including
    the closing quote. *)
Fixpoint parse_string_body (s : string) : option (string * string) :=
  match s with
  | EmptyString => None
  | String c r =>
      if Ascii.eqb c dquote then Some ("", r)
      else if Ascii.eqb c backslash then
        match r with
        | String e r' =>
            if Ascii.eqb e "u" then
              match r' with
              | String h1 (String h2 (String h3 (String h4 r''))) =>
                  match hex_value h1, hex_value h2, hex_value h3, hex_value h4 with
                  | Some 0%nat, Some 0%nat, Some a, Some b =>
                      cons_result (ascii_of_nat (16 * a + b))
                                  (parse_string_body r'')
                  | _, _, _, _ => None
                  end
              | _ => None
              end
            else
              match unescape_letter e with
              | Some d => cons_result d (parse_string_body r')
              | None => None
              end
        | EmptyString => None
        end
      else if (nat_of_ascii c <? 32)%nat then None
      else cons_result c (parse_string_body r)
  end.

Definition is_num_char (c : ascii) : bool :=
  is_digit c || Ascii.eqb c "-".

Fixpoint span_num (s : string) : string * string :=
  match s with
  | String c r =>
      if is_num_char c then let (tok, rest) := span_num r in (String c tok, rest)
      else ("", s)
  | EmptyString => ("", "")
  end.

(** An integer literal in its canonical form (no leading zeros). *)
Definition parse_number (s : string) : option (JValue * string) :=
  let (tok, rest) := span_num s in
  match NilEmpty.int_of_string tok with
  | Some d =>
      if String.eqb (string_of_Z (Z.of_int d)) tok
      then Some (JNum (Z.of_int d), rest) else None
  | None => None
  end.

Definition expect (lit : string) (v : JValue) (s : string)
  : option (JValue * string) :=
  if startsWith s lit then Some (v, drop (String.length lit) s) else None.

(** *** The values [parse (stringify v)] gives back as they are

    No [undefined], function, [BigInt] or [Error] instance anywhere,
    and no object with a repeated key. *)
Fixpoint distinct (keys : list string) : bool :=
  match keys with
  | [] => true
  | k :: r => negb (existsb (String.eqb k) r) && distinct r
  end.

Fixpoint exact (v : JValue) : bool :=
  match v with
  | JNull | JBool _ | JNum _ | JStr _ => true
  | JArr items => forallb exact items
  | JObj props =>
      distinct (map fst props) && forallb (fun kv => exact (snd kv)) props
  | _ => false
  end.

(** What may follow a value inside a text, and how a value starts. *)
Definition delimited (rest : string) : bool :=
  match rest with
  | EmptyString => true
  | String c _ => Ascii.eqb c "," || Ascii.eqb c "]" || Ascii.eqb c "}"
  end.

Definition starts_value (text : string) : bool :=
  match text with
  | EmptyString => false
  | String c _ =>
      negb (is_ws c) && negb (Ascii.eqb c "]") && negb (Ascii.eqb c "}")
  end.

Fixpoint total_length (parts : list string) : nat :=
  match parts with
  | [] => O
  | t :: r => String.length t + total_length r
  end.

(** The member texts of an object, from its properties and the texts
    of their values. *)
Fixpoint member_parts (props : list (string * JValue)) (texts : list string)
  : list string :=
  match props, texts with
  | kv :: props', t :: texts' =>
      (quote (fst kv) ++ ":" ++ t) :: member_parts props' texts'
  | _, _ => []
  end.

(** Fuel that is enough to read a value back. *)
Fixpoint size (v : JValue) : nat :=
  match v with
  | JArr items => S (fold_right (fun x n => S (size x + n)) O items)
  | JObj props | JError _ _ _ props =>
      S (fold_right (fun kv n => S (size (snd kv) + n)) O props)
  | _ => 1
  end.

Fixpoint parse_value (fuel : nat) (s : string) {struct fuel}
  : option (JValue * string) :=
  match fuel with
  | O => None
  | S fuel' =>
      match skip_ws s with
      | EmptyString => None
      | String c r =>
          if Ascii.eqb c dquote then
            match parse_string_body r with
            | Some (x, rest) => Some (JStr x, rest)
            | None => None
            end
          else if Ascii.eqb c "[" then
            match skip_ws r with
            | EmptyString => None
            | String c' rest =>
                if Ascii.eqb c' "]" then Some (JArr [], rest)
                else
                  match parse_elements fuel' r with
                  | Some (items, rest) => Some (JArr items, rest)
                  | None => None
                  end
            end
          else if Ascii.eqb c "{" then
            match skip_ws r with
            | EmptyString => None
            | String c' rest =>
                if Ascii.eqb c' "}" then Some (JObj [], rest)
                else
                  match parse_members fuel' r with
                  | Some (members, rest) =>
                      Some (JObj (Js.assign [] members), rest)
                  | None => None
                  end
            end
          else if Ascii.eqb c "n" then expect "null" JNull (String c r)
          else if Ascii.eqb c "t" then expect "true" (JBool true) (String c r)
          else if Ascii.eqb c "f" then expect "false" (JBool false) (String c r)
          else if is_num_char c then parse_number (String c r)
          else None
      end
  end

(** The items of an array after [[]: [v , v , ... ]]. *)
with parse_elements (fuel : nat) (s : string) {struct fuel}
  : option (list JValue * string) :=
  match fuel with
  | O => None
  | S fuel' =>
      match parse_value fuel' s with
      | Some (v, rest) =>
          match skip_ws rest with
          | EmptyString => None
          | String c rest' =>
              if Ascii.eqb c "," then
                match parse_elements fuel' rest' with
                | Some (vs, rest'') => Some (v :: vs, rest'')
                | None => None
                end
              else if Ascii.eqb c "]" then Some ([v], rest')
              else None
          end
      | None => None
      end
  end

(** The members of an object after [{]: ["k" : v , ... }]. *)
with parse_members (fuel : nat) (s : string) {struct fuel}
  : option (list (string * JValue) * string) :=
  match fuel with
  | O => None
  | S fuel' =>
      match skip_ws s with
      | EmptyString => None
      | String c r =>
          if Ascii.eqb c dquote then
            match parse_string_body r with
            | Some (k, rest) =>
                match skip_ws rest with
                | EmptyString => None
                | String c1 rest1 =>
                    if Ascii.eqb c1 ":" then
                      match parse_value fuel' rest1 with
                      | Some (v, rest2) =>
                          match skip_ws rest2 with
                          | EmptyString => None
                          | String c2 rest3 =>
                              if Ascii.eqb c2 "," then
                                match parse_members fuel' rest3 with
                                | Some (ms, rest4) => Some ((k, v) :: ms, rest4)
                                | None => None
                                end
                              else if Ascii.eqb c2 "}" then Some ([(k, v)], rest3)
                              else None
                          end
                      | None => None
                      end
                    else None
                end
            | None => None
            end
          else None
      end
  end.

(** [JSON.parse(text)]. *)
Definition parse (text : string) : Completion JValue :=
  match parse_value (2 * String.length text + 2) text with
  | Some (v, rest) =>
      match skip_ws rest with
      | EmptyString => Normal v
      | _ => Throw (SyntaxError "Unexpected non-whitespace character after JSON")
      end
  | None => Throw (SyntaxError "Unexpected token in JSON")
  end.

(** [text] is read back as [v], whatever delimiter follows. *)
Definition reads_as (v : JValue) (text : string) : Prop :=
  starts_value text = true
  /\ (S (size v) <= 2 * String.length text)%nat
  /\ forall fuel rest,
       (size v <= fuel)%nat -> delimited rest = true ->
       parse_value fuel (text ++ rest) = Some (v, rest).

End JSON.

(* ================================================================= *)
(** ** src/constants/index.ts *)

Module Constants.

Definition DEFAULT_SENSITIVE_FIELDS : list string :=
  [ "password"; "token"; "authorization"; "secret"; "key"; "apikey";
    "api_key"; "api-key"; "bearer"; "credential"; "private"; "cpf";
    "cnpj"; "ssn"; "credit_card"; "card_number" ].

Definition DEFAULT_MAX_BODY_LOG_SIZE : Z := 10000.

Definition REDACTED : string := "[REDACTED]".

End Constants.

(* ================================================================= *)
(** ** StructuredLoggerService.maskSensitiveData *)

Module Masking.

(** [masked[key] = value] on an object made by [{}]: under every key but
    ["__proto__"] the assignment adds an own property.  ["__proto__"]
    names the accessor inherited from [Object.prototype]: assigning to it
    sets the prototype of [masked], or does nothing when the value is not
    an object, and adds no own property, so the key is not among the
    entries of the result. *)
Definition assignsOwn (key : string) : bool :=
  negb (String.eqb key "__proto__").

(** The place the [i]-th property of a record has among the properties
    the result keeps. *)
Definition position (i : nat) (record : list (string * JValue)) : nat :=
  List.length (filter (fun kv => assignsOwn (fst kv)) (firstn i record)).

(** The records on which the item-by-item reading of masking applies: no
    array sits directly in an array, and no key is ["__proto__"], at any
    depth. *)
Fixpoint regular (v : JValue) : bool :=
  match v with
  | JObj props | JError _ _ _ props =>
      forallb (fun kv => assignsOwn (fst kv) && regular (snd kv)) props
  | JArr items =>
      forallb (fun item => negb (Js.isArray item) && regular item) items
  | _ => true
  end.

Section WithFields.
(** [this.sensitiveFields]. *)
Variable sensitiveFields : list string.

Definition isSensitive (key : string) : bool :=
  let lowerKey := toLowerCase key in
  existsb (fun field => includes lowerKey (toLowerCase field))
          sensitiveFields.

(** [data] is the object whose entries the loop walks.  An array that
    reaches the function (an array nested directly in an array is
    [typeof 'object']) is walked through its index entries, and the
    result is always a fresh plain object.  Values are finite trees: an
    object that contains itself, on which the recursion of the source
    does not end, is not a [JValue]. *)
Fixpoint maskSensitiveData (data : JValue) : JValue :=
  let maskProperty (key : string) (value : JValue) : JValue :=
    if isSensitive key then JStr Constants.REDACTED
    else match value with
         | JObj _ | JError _ _ _ _ => maskSensitiveData value
         | JArr items =>
             JArr (map (fun item =>
                          match item with
                          | JObj _ | JError _ _ _ _ | JArr _ =>
                              maskSensitiveData item
                          | _ => item
                          end) items)
         | _ => value
         end in
  match data with
  | JObj props | JError _ _ _ props =>
      JObj (flat_map (fun kv =>
                        if assignsOwn (fst kv)
                        then [(fst kv, maskProperty (fst kv) (snd kv))]
                        else [])
                     props)
  | JArr items =>
      JObj (Js.mapi (fun i item =>
                       (string_of_nat i, maskProperty (string_of_nat i) item))
                    0 items)
  | _ => JObj []
  end.

(** The loop body and the array callback on their own. *)
Definition maskItem (item : JValue) : JValue :=
  match item with
  | JObj _ | JError _ _ _ _ | JArr _ => maskSensitiveData item
  | _ => item
  end.

Definition maskProperty (key : string) (value : JValue) : JValue :=
  if isSensitive key then JStr Constants.REDACTED
  else match value with
       | JObj _ | JError _ _ _ _ => maskSensitiveData value
       | JArr items => JArr (map maskItem items)
       | _ => value
       end.

(** *** Masking as the specification words it

    A key matches when, lower-cased, it contains a lower-cased entry
    of the list. *)
Definition KeyMatches (key : string) : Prop :=
  exists field, In field sensitiveFields
                /\ Contains (toLowerCase key) (toLowerCase field).

Section Reading.
(** What counts as a map. *)
Variable as_map : JValue -> option (list (string * JValue)).

(** Every key stays in place; a matched key gets the marker; under any
    other key a map is masked as a record, an array item by item, at
    every depth, and any other value is left as it is. *)
Inductive MaskedRecord : list (string * JValue) -> list (string * JValue) -> Prop :=
| MaskedNil : MaskedRecord [] []
| MaskedCons k v v' r r' :
    MaskedProperty k v v' -> MaskedRecord r r' ->
    MaskedRecord ((k, v) :: r) ((k, v') :: r')

with MaskedProperty : string -> JValue -> JValue -> Prop :=
| MaskMatched k v :
    KeyMatches k -> MaskedProperty k v (JStr "[REDACTED]")
| MaskNestedMap k v ps ps' :
    ~ KeyMatches k -> as_map v = Some ps -> MaskedRecord ps ps' ->
    MaskedProperty k v (JObj ps')
| MaskArray k items items' :
    ~ KeyMatches k -> MaskedItems items items' ->
    MaskedProperty k (JArr items) (JArr items')
| MaskOther k v :
    ~ KeyMatches k -> as_map v = None -> Js.isArray v = false ->
    MaskedProperty k v v

with MaskedItems : list JValue -> list JValue -> Prop :=
| ItemsNil : MaskedItems [] []
| ItemsMap v ps ps' r r' :
    as_map v = Some ps -> MaskedRecord ps ps' -> MaskedItems r r' ->
    MaskedItems (v :: r) (JObj ps' :: r')
| ItemsArray items items' r r' :
    MaskedItems items items' -> MaskedItems r r' ->
    MaskedItems (JArr items :: r) (JArr items' :: r')
| ItemsOther v r r' :
    as_map v = None -> Js.isArray v = false -> MaskedItems r r' ->
    MaskedItems (v :: r) (v :: r').

End Reading.

(** The two readings of "map": a plain object only, every other value
    (an [Error] instance among them) being a value that is neither map
    nor array; or every object that is not an array, which is what
    [typeof value === 'object' && !Array.isArray(value)] tests. *)
Definition plain_map (v : JValue) : option (list (string * JValue)) :=
  match v with JObj props => Some props | _ => None end.

Definition object_map (v : JValue) : option (list (string * JValue)) :=
  match v with
  | JObj props | JError _ _ _ props => Some props
  | _ => None
  end.

(** The claim as it is stated, of one record. *)
Definition masks_as_claimed (record : list (string * JValue)) : Prop :=
  exists masked,
    maskSensitiveData (JObj record) = JObj masked
    /\ MaskedRecord plain_map record masked.

End WithFields.

End Masking.


(* ================================================================= *)
(** ** types/observability.types.ts: the error taxonomy *)

Inductive ErrorType : Type :=
| AXIOS
| PRISMA_KNOWN
| PRISMA_UNKNOWN
| PRISMA_VALIDATION
| HTTP
| WEBSOCKET
| RABBITMQ
| GENERIC.

(** The string each enum member stands for. *)
Definition ErrorType_value (t : ErrorType) : string :=
  match t with
  | AXIOS => "AxiosError"
  | PRISMA_KNOWN => "PrismaClientKnownRequestError"
  | PRISMA_UNKNOWN => "PrismaClientUnknownRequestError"
  | PRISMA_VALIDATION => "PrismaClientValidationError"
  | HTTP => "HttpError"
  | WEBSOCKET => "WebSocketError"
  | RABBITMQ => "RabbitMQError"
  | GENERIC => "Error"
  end.

(* ================================================================= *)
(** ** interceptors/error/error-classifier.util.ts *)

Module ErrorClassifier.

Definition isObject (error : JValue) : bool :=
  Js.truthy error && String.eqb (Js.typeof error) "object".

Definition isAxiosError (error : JValue) : bool :=
  isObject error
  && Js.hasIn "isAxiosError" error
  && Js.truthy (Js.getProp error "isAxiosError").

Definition isPrismaKnownRequestError (error : JValue) : bool :=
  isObject error
  && Js.hasIn "code" error
  && Js.hasIn "clientVersion" error
  && Js.hasIn "name" error
  && Js.strictEqStr (Js.getProp error "name") "PrismaClientKnownRequestError".

Definition isPrismaUnknownRequestError (error : JValue) : bool :=
  isObject error
  && Js.hasIn "clientVersion" error
  && Js.hasIn "name" error
  && Js.strictEqStr (Js.getProp error "name") "PrismaClientUnknownRequestError".

Definition isPrismaValidationError (error : JValue) : bool :=
  isObject error
  && Js.hasIn "name" error
  && Js.strictEqStr (Js.getProp error "name") "PrismaClientValidationError".

Definition classifyError (error : JValue) : ErrorType :=
  if isAxiosError error then AXIOS
  else if isPrismaKnownRequestError error then PRISMA_KNOWN
  else if isPrismaUnknownRequestError error then PRISMA_UNKNOWN
  else if isPrismaValidationError error then PRISMA_VALIDATION
  else GENERIC.

(** [maskHeaders(headers, sensitiveFields)]; one level, no recursion. *)
Definition maskHeaders (headers : JValue) (sensitiveFields : list string)
  : JValue :=
  if negb (Js.truthy headers) then JUndefined
  else
    JObj (fold_left
            (fun masked kv =>
               Js.set (fst kv)
                      (if Masking.isSensitive sensitiveFields (fst kv)
                       then JStr Constants.REDACTED else snd kv)
                      masked)
            (Js.entries headers) []).

Definition SERIALIZATION_ERROR : string := "[SERIALIZATION_ERROR]".

Definition truncation_suffix (total : nat) : string :=
  "... [TRUNCATED - total: " ++ string_of_nat total ++ " bytes]".

(** The text whose length is measured: the body itself when it is a
    string, its [JSON.stringify] otherwise. *)
Definition serialized (body : JValue) : Completion (option string) :=
  match body with
  | JStr s => Normal (Some s)
  | _ => JSON.stringify body
  end.

(** [truncateBody(body, maxSize)].  [stringified.length] is read outside
    the [try]: when [JSON.stringify] returns [undefined] the read
    throws. *)
Definition truncateBody (body : JValue) (maxSize : Z) : Completion JValue :=
  match body with
  | JUndefined | JNull => Normal JUndefined
  | _ =>
      match serialized body with
      | Throw _ => Normal (JStr SERIALIZATION_ERROR)
      | Normal None =>
          Throw (TypeError "Cannot read properties of undefined (reading 'length')")
      | Normal (Some stringified) =>
          if (Z.of_nat (String.length stringified) <=? maxSize)%Z then
            match body with
            | JStr _ => Normal body
            | _ =>
                match JSON.parse stringified with
                | Normal v => Normal v
                | Throw _ => Normal (JStr stringified)
                end
            end
          else
            Normal (JStr (substring0 maxSize stringified
                          ++ truncation_suffix (String.length stringified)))
      end
  end.

(** The first part of the claim, as it is stated: a body whose
    serialised form fits is returned as it is. *)
Definition passes_unchanged (body : JValue) (maxSize : Z) : Prop :=
  forall text,
    JSON.stringify body = Normal (Some text) ->
    (Z.of_nat (String.length text) <= maxSize)%Z ->
    truncateBody body maxSize = Normal body.

Fixpoint run_until (d : ascii) (s : string) : nat :=
  match s with
  | String c r => if Ascii.eqb c d then O else S (run_until d r)
  | EmptyString => O
  end.

(** [s.replace(/d[^d]{min,}d/g, by)] for a delimiter character [d]. *)
Fixpoint replace_delimited (d : ascii) (min : nat) (by_ : string)
         (skip : nat) (s : string) : string :=
  match s with
  | EmptyString => ""
  | String c r =>
      match skip with
      | S k => replace_delimited d min by_ k r
      | O =>
          let n := run_until d r in
          if Ascii.eqb c d && (min <=? n)%nat
             && startsWith (drop n r) (String d "")
          then by_ ++ replace_delimited d min by_ (S n) r
          else String c (replace_delimited d min by_ 0 r)
      end
  end.

(** [sanitizePrismaMessage]: back-quoted parts become [`[VALUE]`],
    double-quoted parts of 50 characters or more ["[LONG_VALUE]"]. *)
Definition sanitizePrismaMessage (message : JValue) : Completion JValue :=
  match message with
  | JStr text =>
      Normal
        (JStr (replace_delimited JSON.dquote 50
                 (String JSON.dquote ("[LONG_VALUE]" ++ String JSON.dquote ""))
                 0
                 (replace_delimited "`" 1 "`[VALUE]`" 0 text)))
  | JUndefined | JNull =>
      Throw (TypeError "Cannot read properties of undefined (reading 'replace')")
  | _ => Throw (TypeError "message.replace is not a function")
  end.

Definition extractAxiosErrorInfo (error : JValue) (sensitiveFields : list string)
           (maxBodySize : Z) : Completion (list (string * JValue)) :=
  let config := Js.getProp error "config" in
  let response := Js.getProp error "response" in
  let code := Js.getProp error "code" in
  let message := Js.getProp error "message" in
  method <- Js.optToUpperCase (Js.optProp config "method") ;;
  requestBody <- truncateBody (Js.optProp config "data") maxBodySize ;;
  responseBody <- truncateBody (Js.optProp response "data") maxBodySize ;;
  Normal
    [ ("error_type", JStr (ErrorType_value AXIOS));
      ("error_code", code);
      ("error_message", message);
      ("http",
       JObj [ ("method", method);
              ("url", Js.optProp config "url");
              ("base_url", Js.optProp config "baseURL");
              ("timeout", Js.optProp config "timeout");
              ("status_code", Js.optProp response "status");
              ("status_text", Js.optProp response "statusText") ]);
      ("request",
       JObj [ ("headers", maskHeaders (Js.optProp config "headers") sensitiveFields);
              ("body", requestBody) ]);
      ("response",
       JObj [ ("headers", maskHeaders (Js.optProp response "headers") sensitiveFields);
              ("body", responseBody) ]) ].

Definition extractPrismaKnownErrorInfo (error : JValue)
  : Completion (list (string * JValue)) :=
  let meta := Js.orElse (Js.getProp error "meta") (JObj []) in
  let safeMeta := [] in
  let safeMeta :=
    if Js.truthy (Js.getProp meta "modelName")
    then Js.set "model" (Js.getProp meta "modelName") safeMeta else safeMeta in
  let safeMeta :=
    if Js.truthy (Js.getProp meta "target")
    then Js.set "field" (Js.getProp meta "target") safeMeta else safeMeta in
  let safeMeta :=
    if Js.truthy (Js.getProp meta "constraint")
    then Js.set "constraint" (Js.getProp meta "constraint") safeMeta else safeMeta in
  message <- sanitizePrismaMessage (Js.getProp error "message") ;;
  Normal
    [ ("error_type", JStr (ErrorType_value PRISMA_KNOWN));
      ("error_code", Js.getProp error "code");
      ("error_message", message);
      ("prisma", JObj safeMeta) ].

Definition extractPrismaUnknownErrorInfo (error : JValue)
  : Completion (list (string * JValue)) :=
  message <- sanitizePrismaMessage (Js.getProp error "message") ;;
  Normal
    [ ("error_type", JStr (ErrorType_value PRISMA_UNKNOWN));
      ("error_message", message) ].

Definition extractGenericErrorInfo (error : JValue) : list (string * JValue) :=
  if Js.instanceofError error then
    [ ("error_type", JStr (ErrorType_value GENERIC));
      ("error_name", Js.getProp error "name");
      ("error_message", Js.getProp error "message");
      ("stack_trace", Js.getProp error "stack") ]
  else
    [ ("error_type", JStr (ErrorType_value GENERIC));
      ("error_message", JStr (Js.toString error)) ].

(** *** A sample of each shape *)

Definition axiosSample : JValue :=
  JError "AxiosError" "Request failed with status code 404" ""
    [ ("isAxiosError", JBool true);
      ("code", JStr "ERR_BAD_REQUEST");
      ("config", JObj [("method", JStr "get"); ("url", JStr "/orders/7")]);
      ("response", JObj [("status", JNum 404); ("statusText", JStr "Not Found")]) ].

Definition prismaKnownSample : JValue :=
  JError "PrismaClientKnownRequestError"
    "Unique constraint failed on the fields: (`email`)" ""
    [ ("code", JStr "P2002");
      ("clientVersion", JStr "5.7.0");
      ("meta", JObj [("modelName", JStr "User"); ("target", JArr [JStr "email"])]) ].

Definition prismaUnknownSample : JValue :=
  JError "PrismaClientUnknownRequestError" "Engine returned an unknown error" ""
    [ ("clientVersion", JStr "5.7.0") ].

Definition prismaValidationSample : JValue :=
  JError "PrismaClientValidationError" "Argument `email` is missing." ""
    [ ("clientVersion", JStr "5.7.0") ].

(** Both an Axios flag and the known-request shape. *)
Definition ambiguousSample : JValue :=
  JObj [ ("isAxiosError", JBool true);
         ("name", JStr "PrismaClientKnownRequestError");
         ("code", JStr "P2002");
         ("clientVersion", JStr "5.7.0") ].

End ErrorClassifier.

(* ================================================================= *)
(** ** The telemetry the code acts on

    The console, the remote log sink, the meter's instruments, the spans
    and the broker are external; the calls made on them are recorded in
    order, oldest first. *)

Inductive ConsoleMethod : Type :=
| console_log | console_error | console_warn | console_debug.

Record ConsoleCall : Type := mkConsoleCall
  { method : ConsoleMethod; args : list JValue }.

Inductive LogLevel : Type := LDebug | LInfo | LWarn | LError.

(** The level as the string the source uses. *)
Definition level_name (l : LogLevel) : string :=
  match l with
  | LDebug => "debug" | LInfo => "info" | LWarn => "warn" | LError => "error"
  end.

Record LogRecord : Type := mkLogRecord
  { severityNumber : Z;
    severityText : string;
    body : string;
    attributes : list (string * JValue) }.

(** The SDK logger: [emit] returns or throws. *)
Definition Logger : Type := LogRecord -> Completion unit.

Inductive Instrument : Type :=
| httpRequestsTotal | httpErrorsTotal | httpRequestDuration
| rabbitMessagesTotal | rabbitErrorsTotal | rabbitProcessingDuration
| wsEventsTotal | wsErrorsTotal | wsEventDuration
| errorsTotal.

Definition Attributes : Type := list (string * string).

(** [counter.add(n, labels)] or [histogram.record(ms / 1000, labels)];
    a histogram value is kept as the milliseconds it was computed from. *)
Inductive Measurement : Type :=
| Add (n : Z)
| RecordSeconds (durationMs : Z).

Record MetricEvent : Type := mkMetricEvent
  { instrument : Instrument; measurement : Measurement; labels : Attributes }.

Record SpanContext : Type := mkSpanContext
  { traceId : string; spanId : string; traceFlags : Z }.

Inductive SpanKind : Type := SERVER | CONSUMER | PRODUCER.

Inductive SpanStatus : Type :=
| StatusOK
| StatusERROR (message : JValue).

Inductive SpanOp : Type :=
| SpanStart (name : string) (kind : SpanKind)
| SpanRecordException (e : JValue)
| SpanSetStatus (status : SpanStatus)
| SpanSetAttribute (key : string) (value : JValue)
| SpanEnd.

(** An operation on the span whose context is [on]. *)
Record SpanEvent : Type := mkSpanEvent { on : SpanContext; op : SpanOp }.

Record PublishCall : Type := mkPublishCall
  { pc_exchange : string;
    pc_routingKey : string;
    pc_message : JValue;
    pc_options : list (string * JValue) }.

Record World : Type := mkWorld
  { otelLogger : option Logger;
    isOtlpAvailable : bool;
    emitCalls : list LogRecord;
    console : list ConsoleCall;
    metricLog : list MetricEvent;
    spanLog : list SpanEvent;
    publishLog : list PublishCall }.

Definition with_otelLogger (l : option Logger) (w : World) : World :=
  mkWorld l (isOtlpAvailable w) (emitCalls w) (console w) (metricLog w)
          (spanLog w) (publishLog w).

Definition with_isOtlpAvailable (b : bool) (w : World) : World :=
  mkWorld (otelLogger w) b (emitCalls w) (console w) (metricLog w)
          (spanLog w) (publishLog w).

Definition log_emit (r : LogRecord) (w : World) : World :=
  mkWorld (otelLogger w) (isOtlpAvailable w) (emitCalls w ++ [r])%list
          (console w) (metricLog w) (spanLog w) (publishLog w).

Definition log_console (c : ConsoleCall) (w : World) : World :=
  mkWorld (otelLogger w) (isOtlpAvailable w) (emitCalls w)
          (console w ++ [c])%list (metricLog w) (spanLog w) (publishLog w).

Definition log_metric (e : MetricEvent) (w : World) : World :=
  mkWorld (otelLogger w) (isOtlpAvailable w) (emitCalls w) (console w)
          (metricLog w ++ [e])%list (spanLog w) (publishLog w).

Definition log_span (e : SpanEvent) (w : World) : World :=
  mkWorld (otelLogger w) (isOtlpAvailable w) (emitCalls w) (console w)
          (metricLog w) (spanLog w ++ [e])%list (publishLog w).

Definition log_publish (c : PublishCall) (w : World) : World :=
  mkWorld (otelLogger w) (isOtlpAvailable w) (emitCalls w) (console w)
          (metricLog w) (spanLog w) (publishLog w ++ [c])%list.

(** State and exceptions: the state survives a throw. *)
Definition M (A : Type) : Type := World -> Completion A * World.

Definition ret {A} (a : A) : M A := fun w => (Normal a, w).

Definition bind {A B} (m : M A) (k : A -> M B) : M B :=
  fun w =>
    match m w with
    | (Normal a, w') => k a w'
    | (Throw e, w') => (Throw e, w')
    end.

Definition throw {A} (e : JValue) : M A := fun w => (Throw e, w).

Definition lift {A} (c : Completion A) : M A := fun w => (c, w).

Definition modify (f : World -> World) : M unit := fun w => (Normal tt, f w).

Definition gets {A} (f : World -> A) : M A := fun w => (Normal (f w), w).

(** [try { body } catch (e) { handler e }]. *)
Definition tryCatch {A} (body : M A) (handler : JValue -> M A) : M A :=
  fun w =>
    match body w with
    | (Throw e, w') => handler e w'
    | r => r
    end.

(** [try { body } finally { cleanup }]. *)
Definition tryFinally {A} (body : M A) (cleanup : M unit) : M A :=
  fun w =>
    let (r, w') := body w in
    match cleanup w' with
    | (Normal _, w'') => (r, w'')
    | (Throw e, w'') => (Throw e, w'')
    end.

Notation "x <~ c ;; k" := (bind c (fun x => k))
  (at level 61, c at next level, right associativity).
Notation "c ;;; k" := (bind c (fun _ => k))
  (at level 61, right associativity).

Definition when_ (b : bool) (m : M unit) : M unit := if b then m else ret tt.

(* ================================================================= *)
(** ** logger/otel-logger.provider.ts *)

Module OtelLogger.

(** [SeverityNumber] of the logs API. *)
Definition LOG_SEVERITY_MAP (level : LogLevel) : Z :=
  match level with
  | LDebug => 5 | LInfo => 9 | LWarn => 13 | LError => 17
  end.

(** [initOtelLogger]: building the provider and the logger either
    succeeds with a logger or throws. *)
Definition initOtelLogger (build : Completion Logger) : M (option Logger) :=
  match build with
  | Normal logger =>
      modify (with_otelLogger (Some logger)) ;;;
      modify (log_console
                (mkConsoleCall console_log
                   [JStr "[Observability] OTLP Logger initialized"])) ;;;
      ret (Some logger)
  | Throw e =>
      modify (log_console
                (mkConsoleCall console_error
                   [JStr "[Observability] Failed to initialize OTLP Logger:"; e])) ;;;
      modify (with_isOtlpAvailable false) ;;;
      ret None
  end.

Definition getOtelLogger : M (option Logger) := gets otelLogger.

Definition isOtelLoggerAvailable : M bool :=
  gets (fun w => isOtlpAvailable w
                 && match otelLogger w with Some _ => true | None => false end).

Definition markOtlpUnavailable : M unit := modify (with_isOtlpAvailable false).

Definition markOtlpAvailable : M unit := modify (with_isOtlpAvailable true).

(** [shutdownOtelLogger], after the provider's own shutdown. *)
Definition shutdownOtelLogger : M unit := modify (with_otelLogger None).

Definition sanitizeAttributes (obj : list (string * JValue))
  : list (string * JValue) :=
  fold_left
    (fun result kv =>
       let key := fst kv in
       let value := snd kv in
       match value with
       | JNull | JUndefined => result
       | JStr _ | JNum _ | JBool _ => Js.set key value result
       | JArr _ | JObj _ | JError _ _ _ _ =>
           match JSON.stringify value with
           | Normal (Some text) => Js.set key (JStr text) result
           | Normal None => Js.set key JUndefined result
           | Throw _ => Js.set key (JStr "[SERIALIZATION_ERROR]") result
           end
       | JBigInt _ | JFunction _ => Js.set key (JStr (Js.toString value)) result
       end)
    obj [].

(** [emitOtelLog(level, message, attributes)].  The [catch] writes a
    diagnostic to the console and returns [false]. *)
Definition emitOtelLog (level : LogLevel) (message : string)
           (attributes : list (string * JValue)) : M bool :=
  fun w =>
    match otelLogger w with
    | None => (Normal false, w)
    | Some logger =>
        if negb (isOtlpAvailable w) then (Normal false, w)
        else
          let record :=
            mkLogRecord (LOG_SEVERITY_MAP level)
                        (toUpperCase (level_name level))
                        message
                        (sanitizeAttributes attributes) in
          match logger record with
          | Normal _ => (Normal true, log_emit record w)
          | Throw e =>
              (Normal false,
               log_console
                 (mkConsoleCall console_error
                    [JStr "[Observability] Error emitting OTLP log:"; e])
                 (log_emit record w))
          end
    end.

End OtelLogger.

(* ================================================================= *)
(** ** logger/structured-logger.service.ts *)

Module StructuredLogger.

Definition LOG_LEVEL_PRIORITY (level : LogLevel) : Z :=
  match level with
  | LDebug => 0 | LInfo => 1 | LWarn => 2 | LError => 3
  end.

(** The fields of a [StructuredLoggerService] instance. *)
Record Service : Type := mkService
  { context : option string;
    serviceName : string;
    environment : string;
    logLevel : LogLevel;
    sensitiveFields : list string;
    enableOtlpLogs : bool;
    enableConsoleLogs : bool }.

(** What a log call reads from its surroundings: the clock
    ([new Date().toISOString()]) and [getTraceContextInfo()]. *)
Record Ambient : Type := mkAmbient
  { now : string;
    activeTraceId : option string;
    activeSpanId : option string }.

Definition truthy_opt (o : option string) : bool :=
  match o with Some s => negb (String.eqb s "") | None => false end.

Definition opt_value (o : option string) : JValue :=
  match o with Some s => JStr s | None => JUndefined end.

Definition maskSensitiveData (this : Service) (data : JValue) : JValue :=
  Masking.maskSensitiveData (sensitiveFields this) data.

Definition createLogEntry (this : Service) (amb : Ambient)
           (level : LogLevel) (message : string)
           (meta : option (list (string * JValue)))
  : list (string * JValue) :=
  let entry :=
    [ ("timestamp", JStr (now amb));
      ("level", JStr (level_name level));
      ("message", JStr message);
      ("service", JStr (serviceName this));
      ("environment", JStr (environment this)) ] in
  let entry :=
    if truthy_opt (activeTraceId amb)
    then Js.set "trace_id" (opt_value (activeTraceId amb)) entry else entry in
  let entry :=
    if truthy_opt (activeSpanId amb)
    then Js.set "span_id" (opt_value (activeSpanId amb)) entry else entry in
  let entry :=
    if truthy_opt (context this)
    then Js.set "context" (opt_value (context this)) entry else entry in
  match meta with
  | Some m =>
      let maskedMeta := maskSensitiveData this (JObj m) in
      Js.assign entry (Js.entries maskedMeta)
  | None => entry
  end.

Definition console_method (level : LogLevel) : ConsoleMethod :=
  match level with
  | LError => console_error
  | LWarn => console_warn
  | LDebug => console_debug
  | LInfo => console_log
  end.

(** [JSON.stringify] of an object, as a value to print. *)
Definition stringify_value (v : JValue) : Completion JValue :=
  r <- JSON.stringify v ;;
  Normal (match r with Some text => JStr text | None => JUndefined end).

Definition writeToConsole (this : Service) (level : LogLevel)
           (entry : list (string * JValue)) : M unit :=
  if String.eqb (environment this) "development" then
    let timestamp := Js.get "timestamp" entry in
    let logLevel := Js.get "level" entry in
    let message := Js.get "message" entry in
    let context := Js.get "context" entry in
    let trace_id := Js.get "trace_id" entry in
    let rest :=
      Js.omit ["timestamp"; "level"; "message"; "context"; "trace_id"] entry in
    let contextStr :=
      if Js.truthy context then "[" ++ Js.toString context ++ "] " else "" in
    traceStr <~ lift (if Js.truthy trace_id
                      then (t <- Js.callSubstring0 trace_id 8 ;;
                            Normal (" (trace: " ++ t ++ "...)"))
                      else Normal "") ;;
    metaStr <~ lift (if (0 <? List.length rest)%nat
                     then (j <- stringify_value (JObj rest) ;;
                           Normal (" " ++ Js.toString j))
                     else Normal "") ;;
    upper <~ lift (Js.callToUpperCase logLevel) ;;
    let formattedMessage :=
      Js.toString timestamp ++ " " ++ padEnd 5 upper ++ " " ++ contextStr
      ++ Js.toString message ++ traceStr ++ metaStr in
    modify (log_console
              (mkConsoleCall (console_method level) [JStr formattedMessage]))
  else
    output <~ lift (stringify_value (JObj entry)) ;;
    modify (log_console (mkConsoleCall (console_method level) [output])).

(** The attributes handed to [emitOtelLog]:
    [{ ...entry, timestamp: undefined, level: undefined, message: undefined }]. *)
Definition otlp_attributes (entry : list (string * JValue))
  : list (string * JValue) :=
  Js.set "message" JUndefined
    (Js.set "level" JUndefined (Js.set "timestamp" JUndefined entry)).

Definition writeLog (this : Service) (amb : Ambient) (level : LogLevel)
           (message : string) (meta : option (list (string * JValue)))
  : M unit :=
  if (LOG_LEVEL_PRIORITY level <? LOG_LEVEL_PRIORITY (logLevel this))%Z
  then ret tt
  else
    let entry := createLogEntry this amb level message meta in
    available <~ (if enableOtlpLogs this
                  then OtelLogger.isOtelLoggerAvailable else ret false) ;;
    otlpSuccess <~ (if enableOtlpLogs this && available
                    then OtelLogger.emitOtelLog level message
                                                (otlp_attributes entry)
                    else ret false) ;;
    if enableConsoleLogs this || (negb otlpSuccess && enableOtlpLogs this)
    then writeToConsole this level entry
    else ret tt.

Definition spread (meta : option (list (string * JValue)))
  : list (string * JValue) :=
  match meta with Some m => m | None => [] end.

Definition debug this amb message meta := writeLog this amb LDebug message meta.
Definition log this amb message meta := writeLog this amb LInfo message meta.
Definition warn this amb message meta := writeLog this amb LWarn message meta.
Definition verbose this amb message meta := writeLog this amb LDebug message meta.

(** [error(message, trace, meta)] logs [{ ...meta, stack_trace: trace }]. *)
Definition error this amb (message : string) (trace : JValue)
           (meta : option (list (string * JValue))) : M unit :=
  writeLog this amb LError message
           (Some (Js.set "stack_trace" trace (spread meta))).

End StructuredLogger.

(* ================================================================= *)
(** ** metrics/metrics.service.ts *)

Module MetricsService.

Definition is_hex (c : ascii) : bool :=
  let n := nat_of_ascii c in
  is_digit c
  || ((97 <=? n)%nat && (n <=? 102)%nat)
  || ((65 <=? n)%nat && (n <=? 70)%nat).

Definition is_dash (c : ascii) : bool := Ascii.eqb c "-".

(** [/[0-9a-f]{8}-[0-9a-f]{4}-[0-9a-f]{4}-[0-9a-f]{4}-[0-9a-f]{12}/gi],
    one character class per position. *)
Definition UUID : list (ascii -> bool) :=
  (repeat is_hex 8 ++ [is_dash] ++ repeat is_hex 4 ++ [is_dash]
   ++ repeat is_hex 4 ++ [is_dash] ++ repeat is_hex 4 ++ [is_dash]
   ++ repeat is_hex 12)%list.

(** The pattern matches at the start of [s]. *)
Fixpoint matches (pat : list (ascii -> bool)) (s : string) : bool :=
  match pat, s with
  | [], _ => true
  | _ :: _, EmptyString => false
  | p :: pat', String c r => p c && matches pat' r
  end.

(** [s.replace(/pat/g, by)] for a pattern of fixed length: scan from
    the left, replace each match and resume after it; [skip] counts the
    characters of the current match still to pass. *)
Fixpoint replace_fixed (pat : list (ascii -> bool)) (by_ : string)
         (skip : nat) (s : string) : string :=
  match s with
  | EmptyString => ""
  | String c r =>
      match skip with
      | S k => replace_fixed pat by_ k r
      | O =>
          if matches pat s
          then by_ ++ replace_fixed pat by_ (List.length pat - 1) r
          else String c (replace_fixed pat by_ 0 r)
      end
  end.

Definition head_is_digit (s : string) : bool :=
  match s with String c _ => is_digit c | EmptyString => false end.

(** [s.replace(/\/\d+/g, '/:id')]; [in_digits] holds while the digits
    of the current match are passed. *)
Fixpoint replace_numeric_ids (in_digits : bool) (s : string) : string :=
  match s with
  | EmptyString => ""
  | String c r =>
      if in_digits && is_digit c then replace_numeric_ids true r
      else if Ascii.eqb c "/" && head_is_digit r
           then "/:id" ++ replace_numeric_ids true r
           else String c (replace_numeric_ids false r)
  end.

Fixpoint digit_run (s : string) : nat :=
  match s with
  | String c r => if is_digit c then S (digit_run r) else O
  | EmptyString => O
  end.

(** [s.replace(/\.\d{10,}\./g, '.*.')]. *)
Fixpoint replace_long_numeric (skip : nat) (s : string) : string :=
  match s with
  | EmptyString => ""
  | String c r =>
      match skip with
      | S k => replace_long_numeric k r
      | O =>
          let n := digit_run r in
          if Ascii.eqb c "." && (10 <=? n)%nat && startsWith (drop n r) "."
          then ".*." ++ replace_long_numeric (S n) r
          else String c (replace_long_numeric 0 r)
      end
  end.

Definition normalizeRoute (route : string) : string :=
  substring0 100
    (replace_numeric_ids false (replace_fixed UUID ":id" 0 route)).

Definition normalizeRoutingKey (routingKey : string) : string :=
  substring0 100
    (replace_long_numeric 0 (replace_fixed UUID "*" 0 routingKey)).

(** *** Paths as segments

    A path is its segments, each after a ["/"].  A segment is
    UUID-shaped when the pattern covers it whole, purely numeric when
    it is a non-empty run of digits, and plain when it holds no
    ["/"], does not start with a digit and has no UUID-shaped part. *)
Fixpoint join_path (segments : list string) : string :=
  match segments with
  | [] => ""
  | seg :: r => "/" ++ seg ++ join_path r
  end.

Fixpoint contains_match (pat : list (ascii -> bool)) (s : string) : bool :=
  matches pat s
  || match s with
     | EmptyString => false
     | String _ r => contains_match pat r
     end.

Definition is_uuid_segment (seg : string) : bool :=
  matches UUID seg && (String.length seg =? List.length UUID)%nat.

Definition is_numeric_segment (seg : string) : bool :=
  head_is_digit seg && all_chars is_digit seg.

Definition is_plain_segment (seg : string) : bool :=
  all_chars (fun c => negb (Ascii.eqb c "/")) seg
  && negb (head_is_digit seg)
  && negb (contains_match UUID seg).

Definition classified (seg : string) : bool :=
  is_uuid_segment seg || is_numeric_segment seg || is_plain_segment seg.

Definition normalize_segment (seg : string) : string :=
  if is_uuid_segment seg || is_numeric_segment seg then ":id" else seg.

Record HttpRequest : Type := mkHttpRequest
  { hr_method : string; hr_route : string;
    hr_statusCode : Z; hr_durationMs : Z }.

Inductive Operation : Type := publish | consume.

Definition operation_name (o : Operation) : string :=
  match o with publish => "publish" | consume => "consume" end.

Record RabbitMessage : Type := mkRabbitMessage
  { rm_exchange : string; rm_routingKey : string; rm_operation : Operation;
    rm_success : bool; rm_durationMs : option Z }.

Record WsEvent : Type := mkWsEvent
  { ws_event : string; ws_success : bool; ws_durationMs : option Z }.

Inductive ErrorContext : Type := ctx_http | ctx_rabbitmq | ctx_websocket | ctx_other.

Definition error_context_name (c : ErrorContext) : string :=
  match c with
  | ctx_http => "http" | ctx_rabbitmq => "rabbitmq"
  | ctx_websocket => "websocket" | ctx_other => "other"
  end.

Record ErrorEvent : Type := mkErrorEvent
  { ee_type : ErrorType; ee_context : ErrorContext; ee_code : JValue }.

Definition add (i : Instrument) (n : Z) (l : Attributes) : M unit :=
  modify (log_metric (mkMetricEvent i (Add n) l)).

Definition record (i : Instrument) (durationMs : Z) (l : Attributes) : M unit :=
  modify (log_metric (mkMetricEvent i (RecordSeconds durationMs) l)).

(** The [labels] object each recording method builds first. *)
Definition http_labels (attributes : HttpRequest) : Attributes :=
  [ ("method", hr_method attributes);
    ("route", normalizeRoute (hr_route attributes));
    ("status_code", string_of_Z (hr_statusCode attributes)) ].

Definition rabbit_labels (attributes : RabbitMessage) : Attributes :=
  [ ("exchange", rm_exchange attributes);
    ("routing_key", normalizeRoutingKey (rm_routingKey attributes));
    ("operation", operation_name (rm_operation attributes)) ].

Definition ws_labels (attributes : WsEvent) : Attributes :=
  [ ("event", ws_event attributes) ].

Definition recordHttpRequest (attributes : HttpRequest) : M unit :=
  let labels := http_labels attributes in
  add httpRequestsTotal 1 labels ;;;
  record httpRequestDuration (hr_durationMs attributes) labels ;;;
  when_ (400 <=? hr_statusCode attributes)%Z (add httpErrorsTotal 1 labels).

Definition recordRabbitMessage (attributes : RabbitMessage) : M unit :=
  let labels := rabbit_labels attributes in
  add rabbitMessagesTotal 1 labels ;;;
  when_ (negb (rm_success attributes)) (add rabbitErrorsTotal 1 labels) ;;;
  match rm_durationMs attributes with
  | Some ms => record rabbitProcessingDuration ms labels
  | None => ret tt
  end.

Definition recordWsEvent (attributes : WsEvent) : M unit :=
  let labels := ws_labels attributes in
  add wsEventsTotal 1 labels ;;;
  when_ (negb (ws_success attributes)) (add wsErrorsTotal 1 labels) ;;;
  match ws_durationMs attributes with
  | Some ms => record wsEventDuration ms labels
  | None => ret tt
  end.

Definition recordError (attributes : ErrorEvent) : M unit :=
  add errorsTotal 1
      [ ("error_type", ErrorType_value (ee_type attributes));
        ("context", error_context_name (ee_context attributes));
        ("error_code",
         Js.toString (Js.orElse (ee_code attributes) (JStr "unknown"))) ].

(** *** Reading the instruments back *)

(** The amount a counter grows by: 1 when the condition holds. *)
Definition bump (b : bool) : Z := if b then 1%Z else 0%Z.

Definition instrument_eqb (a b : Instrument) : bool :=
  match a, b with
  | httpRequestsTotal, httpRequestsTotal
  | httpErrorsTotal, httpErrorsTotal
  | httpRequestDuration, httpRequestDuration
  | rabbitMessagesTotal, rabbitMessagesTotal
  | rabbitErrorsTotal, rabbitErrorsTotal
  | rabbitProcessingDuration, rabbitProcessingDuration
  | wsEventsTotal, wsEventsTotal
  | wsErrorsTotal, wsErrorsTotal
  | wsEventDuration, wsEventDuration
  | errorsTotal, errorsTotal => true
  | _, _ => false
  end.

Fixpoint labels_eqb (a b : Attributes) : bool :=
  match a, b with
  | [], [] => true
  | (k, v) :: a', (k', v') :: b' =>
      String.eqb k k' && String.eqb v v' && labels_eqb a' b'
  | _, _ => false
  end.

(** The value of counter [i] at the label set [l]: the sum of the
    amounts added there. *)
Fixpoint counter_value (i : Instrument) (l : Attributes)
         (log : list MetricEvent) : Z :=
  match log with
  | [] => 0
  | e :: r =>
      (match measurement e with
       | Add n =>
           if instrument_eqb (instrument e) i && labels_eqb (labels e) l
           then n else 0
       | RecordSeconds _ => 0
       end + counter_value i l r)%Z
  end.

End MetricsService.


(* ================================================================= *)
(** ** Spans and observables *)

Module Tracing.

Section WithTracer.
(** [tracer.startSpan]: the context of the span the SDK creates, which
    may depend on everything recorded so far. *)
Variable startSpan : string -> SpanKind -> World -> SpanContext.

Definition tracer_startSpan (name : string) (kind : SpanKind) : M SpanContext :=
  fun w =>
    let span := startSpan name kind w in
    (Normal span, log_span (mkSpanEvent span (SpanStart name kind)) w).
End WithTracer.

Definition span_do (span : SpanContext) (o : SpanOp) : M unit :=
  modify (log_span (mkSpanEvent span o)).

(** [endSpanError(span, error)], the same in both trace interceptors,
    and the [catch] of the patched publish without the [end]. *)
Definition recordFailure (span : SpanContext) (error : JValue) : M unit :=
  if Js.instanceofError error then
    span_do span (SpanRecordException error) ;;;
    span_do span (SpanSetStatus (StatusERROR (Js.getProp error "message")))
  else
    span_do span (SpanSetStatus (StatusERROR (JStr (Js.toString error)))).

Definition endSpanError (span : SpanContext) (error : JValue) : M unit :=
  recordFailure span error ;;; span_do span SpanEnd.

(** What [recordFailure] leaves in the span log. *)
Definition failure_events (span : SpanContext) (error : JValue) : list SpanEvent :=
  if Js.instanceofError error then
    [ mkSpanEvent span (SpanRecordException error);
      mkSpanEvent span (SpanSetStatus (StatusERROR (Js.getProp error "message"))) ]
  else
    [ mkSpanEvent span (SpanSetStatus (StatusERROR (JStr (Js.toString error)))) ].

End Tracing.

Module Rx.

Inductive Terminal : Type :=
| Completes
| Errors (e : JValue).

(** What a subscriber of a terminating observable receives: the values
    in order, then completion or an error. *)
Record Observable : Type := mkObservable
  { values : list JValue; terminal : Terminal }.

Definition throwError (e : JValue) : Observable := mkObservable [] (Errors e).

(** [tap(f)]: [f] runs on each value; a throw from [f] becomes the
    error of the stream. *)
Fixpoint tap_values (f : JValue -> M unit) (vs : list JValue) (t : Terminal)
  : World -> Observable * World :=
  fun w =>
    match vs with
    | [] => (mkObservable [] t, w)
    | v :: r =>
        match f v w with
        | (Normal _, w') =>
            let (o, w'') := tap_values f r t w' in
            (mkObservable (v :: values o) (terminal o), w'')
        | (Throw e, w') => (mkObservable [] (Errors e), w')
        end
    end.

Definition tap (f : JValue -> M unit) (o : Observable)
  : World -> Observable * World :=
  tap_values f (values o) (terminal o).

(** [catchError(selector)]: on an error the stream continues with the
    observable the selector returns; a throw from the selector becomes
    the error. *)
Definition catchError (selector : JValue -> M Observable) (o : Observable)
  : World -> Observable * World :=
  fun w =>
    match terminal o with
    | Completes => (o, w)
    | Errors e =>
        match selector e w with
        | (Normal o', w') =>
            (mkObservable (values o ++ values o')%list (terminal o'), w')
        | (Throw x, w') => (mkObservable (values o) (Errors x), w')
        end
    end.

End Rx.

(** The part of a Nest [ExecutionContext] the interceptors read:
    [getType()], [getHandler().name], [getClass().name],
    [switchToHttp().getRequest()], [switchToRpc().getData()] and
    [.getContext()], [switchToWs().getClient()] and [.getData()]. *)
Record ExecutionContext : Type := mkExecutionContext
  { getType : string;
    handlerName : string;
    className : string;
    request : JValue;
    rpcData : JValue;
    rpcContext : JValue;
    client : JValue;
    data : JValue }.

(* ================================================================= *)
(** ** interceptors/rabbitmq/rabbitmq-publish.interceptor.ts

    The wrapper installed over [publish] is the same function in the
    prototype-level and in the instance-level interceptor; they differ in
    where the original is kept and how it is called. *)

Module RabbitMQPublishInterceptor.

Section Patched.
Variable startSpan : string -> SpanKind -> World -> SpanContext.

(** [propagation.inject(ctx, carrier)] for the context that holds
    [span]: the fields the registered propagator writes with
    [carrier[k] = v], in order. *)
Variable propagator : SpanContext -> list (string * string).

(** The original [publish]: resolves with a boolean or rejects. *)
Variable originalPublish : PublishCall -> Completion bool.

Definition call_original (c : PublishCall) : M bool :=
  modify (log_publish c) ;;; lift (originalPublish c).

Definition inject (span : SpanContext) (headers : list (string * JValue))
  : list (string * JValue) :=
  fold_left (fun carrier kv => Js.set (fst kv) (JStr (snd kv)) carrier)
            (propagator span) headers.

(** What the fields write under [k]: the last write wins. *)
Fixpoint written (k : string) (fields : list (string * string)) : option string :=
  match fields with
  | [] => None
  | (k', v) :: r =>
      match written k r with
      | Some x => Some x
      | None => if String.eqb k k' then Some v else None
      end
  end.

Definition option_headers (options : option (list (string * JValue))) : JValue :=
  match options with
  | Some o => Js.get "headers" o
  | None => JUndefined
  end.

(** The call the wrapper makes on the original. *)
Definition outgoing (span : SpanContext) (exchange routingKey : string)
           (message : JValue) (options : option (list (string * JValue)))
  : PublishCall :=
  mkPublishCall exchange routingKey message
    (Js.set "headers"
       (JObj (inject span
                (Js.entries (Js.orElse (option_headers options) (JObj [])))))
       (StructuredLogger.spread options)).

Definition publish (exchange routingKey : string) (message : JValue)
           (options : option (list (string * JValue))) : M bool :=
  let existingHeaders := Js.orElse (option_headers options) (JObj []) in
  let headers := Js.entries existingHeaders in
  span <~ Tracing.tracer_startSpan startSpan (exchange ++ " publish") PRODUCER ;;
  tryFinally
    (tryCatch
       (let headers := inject span headers in
        result <~ call_original
                    (mkPublishCall exchange routingKey message
                       (Js.set "headers" (JObj headers)
                               (StructuredLogger.spread options))) ;;
        Tracing.span_do span (SpanSetStatus StatusOK) ;;;
        ret result)
       (fun error => Tracing.recordFailure span error ;;; throw error))
    (Tracing.span_do span SpanEnd).

End Patched.

(** The W3C trace-context propagator writes one [traceparent] field for
    a span whose trace id and span id are not all zeros. *)
Definition hex2 (n : Z) : string :=
  String (JSON.hex_digit (Z.to_nat (n / 16) mod 16))
         (String (JSON.hex_digit (Z.to_nat n mod 16)) "").

Definition traceparent (span : SpanContext) : string :=
  "00-" ++ traceId span ++ "-" ++ spanId span ++ "-" ++ hex2 (traceFlags span).

Definition w3c_propagator (span : SpanContext) : list (string * string) :=
  [ ("traceparent", traceparent span) ].

End RabbitMQPublishInterceptor.

(* ================================================================= *)
(** ** interceptors/websocket/ws-trace.interceptor.ts *)

Module WebSocketTraceInterceptor.

Section Interceptor.
Variable startSpan : string -> SpanKind -> World -> SpanContext.
(** [Date.now()]. *)
Variable dateNow : World -> Z.

Definition endSpanSuccess (span : SpanContext) (result : JValue) : M unit :=
  when_ (Js.truthy result && String.eqb (Js.typeof result) "object")
        (Tracing.span_do span
           (SpanSetAttribute "ws.response.type"
              (JStr (if Js.isArray result then "array" else "object")))) ;;;
  Tracing.span_do span (SpanSetStatus StatusOK) ;;;
  Tracing.span_do span SpanEnd.

Definition elapsed (startTime : Z) : M Z :=
  gets (fun w => (dateNow w - startTime)%Z).

Definition onSuccess (span : SpanContext) (handlerName : string)
           (startTime : Z) (result : JValue) : M unit :=
  endSpanSuccess span result ;;;
  durationMs <~ elapsed startTime ;;
  MetricsService.recordWsEvent
    (MetricsService.mkWsEvent handlerName true (Some durationMs)).

Definition onError (span : SpanContext) (handlerName : string)
           (startTime : Z) (error : JValue) : M Rx.Observable :=
  Tracing.endSpanError span error ;;;
  durationMs <~ elapsed startTime ;;
  MetricsService.recordWsEvent
    (MetricsService.mkWsEvent handlerName false (Some durationMs)) ;;;
  throw error.

(** The span of the event, and the world once it is started and
    tagged with the user. *)
Definition event_span (ctx : ExecutionContext) (w : World) : SpanContext :=
  startSpan ("ws." ++ handlerName ctx) SERVER w.

Definition span_started (ctx : ExecutionContext) (w : World) : World :=
  let span := event_span ctx w in
  let w := log_span (mkSpanEvent span (SpanStart ("ws." ++ handlerName ctx) SERVER)) w in
  let user := Js.getProp (Js.getProp (client ctx) "data") "user" in
  if Js.truthy user
  then log_span
         (mkSpanEvent span
            (SpanSetAttribute "enduser.id"
               (Js.orElse (Js.getProp user "id")
                  (Js.orElse (Js.getProp user "sub") (JStr "unknown")))))
         w
  else w.

Definition intercept (ctx : ExecutionContext) (next : Rx.Observable)
  : World -> Rx.Observable * World :=
  if negb (String.eqb (getType ctx) "ws") then fun w => (next, w)
  else
    fun w =>
      let span := event_span ctx w in
      let w := span_started ctx w in
      let startTime := dateNow w in
      let (tapped, w) :=
        Rx.tap (onSuccess span (handlerName ctx) startTime) next w in
      Rx.catchError (onError span (handlerName ctx) startTime) tapped w.

End Interceptor.

End WebSocketTraceInterceptor.

(* ================================================================= *)
(** ** interceptors/error/observability-error.interceptor.ts *)

Module ObservabilityErrorInterceptor.

Section Interceptor.
(** [this.logger], built by the constructor with the context
    ['ObservabilityErrorInterceptor']. *)
Variable logger : StructuredLogger.Service.
(** [trace.getSpan(otelContext.active())]. *)
Variable activeSpan : option SpanContext.
(** [this.sensitiveFields] and [this.maxBodySize]. *)
Variable sensitiveFields : list string.
Variable maxBodySize : Z.

Definition extractHttpContext (executionContext : ExecutionContext)
  : Completion (list (string * JValue)) :=
  let request := request executionContext in
  method <- Js.member request "method" ;;
  url <- Js.member request "url" ;;
  path <- Js.member request "path" ;;
  query <- Js.member request "query" ;;
  params <- Js.member request "params" ;;
  user <- Js.member request "user" ;;
  Normal
    [ ("http",
       JObj [ ("method", method); ("url", url); ("path", path);
              ("query", query); ("params", params);
              ("user_id",
               Js.orElse (Js.optProp user "id") (Js.optProp user "sub")) ]) ].

(** The body sits in a [try]; nothing in it throws here, since every
    read is an optional one. *)
Definition extractRmqContext (executionContext : ExecutionContext)
  : list (string * JValue) :=
  let data := rpcData executionContext in
  let fields := Js.optProp (rpcContext executionContext) "fields" in
  [ ("rabbitmq",
     JObj [ ("exchange", Js.optProp fields "exchange");
            ("routing_key", Js.optProp fields "routingKey");
            ("consumer_tag", Js.optProp fields "consumerTag");
            ("delivery_tag", Js.optProp fields "deliveryTag");
            ("message_keys",
             if Js.truthy data then Js.keys data else JArr []) ]) ].

Definition extractWsContext (executionContext : ExecutionContext)
  : list (string * JValue) :=
  let data := data executionContext in
  match Js.member (client executionContext) "id" with
  | Normal id =>
      [ ("websocket",
         JObj [ ("client_id", id);
                ("event", JStr (handlerName executionContext));
                ("data_keys",
                 if Js.truthy data then Js.keys data else JArr []) ]) ]
  | Throw _ =>
      [ ("websocket", JObj [("error", JStr "Failed to extract WS context")]) ]
  end.

Definition extractContextInfo (executionContext : ExecutionContext)
  : Completion (list (string * JValue)) :=
  let contextType := getType executionContext in
  if String.eqb contextType "http" then extractHttpContext executionContext
  else if String.eqb contextType "rmq"
       then Normal (extractRmqContext executionContext)
  else if String.eqb contextType "ws"
       then Normal (extractWsContext executionContext)
  else Normal [("context", JStr "unknown")].

Definition extractErrorInfo (error : JValue)
  : Completion (list (string * JValue)) :=
  match ErrorClassifier.classifyError error with
  | AXIOS =>
      if ErrorClassifier.isAxiosError error
      then ErrorClassifier.extractAxiosErrorInfo error sensitiveFields maxBodySize
      else Normal (ErrorClassifier.extractGenericErrorInfo error)
  | PRISMA_KNOWN =>
      if ErrorClassifier.isPrismaKnownRequestError error
      then ErrorClassifier.extractPrismaKnownErrorInfo error
      else Normal (ErrorClassifier.extractGenericErrorInfo error)
  | PRISMA_UNKNOWN =>
      if ErrorClassifier.isPrismaUnknownRequestError error
      then ErrorClassifier.extractPrismaUnknownErrorInfo error
      else Normal (ErrorClassifier.extractGenericErrorInfo error)
  | _ => Normal (ErrorClassifier.extractGenericErrorInfo error)
  end.

Definition recordSpanError (error : JValue) : M unit :=
  match activeSpan with
  | None => ret tt
  | Some span =>
      Tracing.span_do span
        (SpanRecordException
           (if Js.instanceofError error then error
            else JError "Error" (Js.toString error) "" [])) ;;;
      Tracing.span_do span
        (SpanSetStatus
           (StatusERROR (if Js.instanceofError error
                         then Js.getProp error "message"
                         else JStr (Js.toString error)))) ;;;
      Tracing.span_do span
        (SpanSetAttribute "error.type"
           (JStr (ErrorType_value (ErrorClassifier.classifyError error)))) ;;;
      (if ErrorClassifier.isAxiosError error then
         Tracing.span_do span
           (SpanSetAttribute "http.status_code"
              (Js.orElse (Js.getProp (Js.getProp error "response") "status")
                         (JNum 0))) ;;;
         let method := Js.optProp (Js.optProp error "config") "method" in
         upper <~ lift (Js.optToUpperCase method) ;;
         Tracing.span_do span
           (SpanSetAttribute "http.method" (Js.orElse upper (JStr "UNKNOWN")))
       else ret tt) ;;;
      when_ (ErrorClassifier.isPrismaKnownRequestError error)
            (Tracing.span_do span
               (SpanSetAttribute "db.prisma.error_code" (Js.getProp error "code")))
  end.

Definition metricsContext (contextType : string) : MetricsService.ErrorContext :=
  if String.eqb contextType "http" then MetricsService.ctx_http
  else if String.eqb contextType "rmq" || String.eqb contextType "rpc"
       then MetricsService.ctx_rabbitmq
  else if String.eqb contextType "ws" then MetricsService.ctx_websocket
  else MetricsService.ctx_other.

Definition recordErrorMetric (error : JValue) (contextType : string)
           (errorType : ErrorType) : M unit :=
  let errorCode :=
    if ErrorClassifier.isPrismaKnownRequestError error
    then Js.getProp error "code"
    else if ErrorClassifier.isAxiosError error
         then JStr (Js.toString
                      (Js.orElse (Js.getProp (Js.getProp error "response") "status")
                         (Js.orElse (Js.getProp error "code") (JStr "unknown"))))
         else JUndefined in
  MetricsService.recordError
    (MetricsService.mkErrorEvent errorType (metricsContext contextType) errorCode).

Definition handleError (amb : StructuredLogger.Ambient) (error : JValue)
           (executionContext : ExecutionContext) : M unit :=
  let handler := handlerName executionContext in
  let controller := className executionContext in
  let contextType := getType executionContext in
  contextInfo <~ lift (extractContextInfo executionContext) ;;
  let errorType := ErrorClassifier.classifyError error in
  errorInfo <~ lift (extractErrorInfo error) ;;
  recordSpanError error ;;;
  recordErrorMetric error contextType errorType ;;;
  StructuredLogger.error logger amb
    ("Error in " ++ controller ++ "/" ++ handler) JUndefined
    (Some (Js.assign
             (Js.assign
                [ ("context_type", JStr contextType);
                  ("handler", JStr handler);
                  ("controller", JStr controller) ]
                contextInfo)
             errorInfo)).

Definition intercept (amb : StructuredLogger.Ambient)
           (executionContext : ExecutionContext) (next : Rx.Observable)
  : World -> Rx.Observable * World :=
  Rx.catchError
    (fun error =>
       handleError amb error executionContext ;;;
       ret (Rx.throwError error))
    next.

End Interceptor.

End ObservabilityErrorInterceptor.

(* ================================================================= *)
(** ** Concrete runs

    The services, worlds and inputs the examples below are run on. *)

Module Scenarios.

(** The request of the specification's scenario and its labels. *)
Definition scenario_request (durationMs : Z) : MetricsService.HttpRequest :=
  MetricsService.mkHttpRequest
    "GET" "/users/123e4567-e89b-12d3-a456-426614174000" 200 durationMs.

Definition scenario_labels : Attributes :=
  [ ("method", "GET"); ("route", "/users/:id"); ("status_code", "200") ].

Definition sample_segments : list string :=
  [ "users"; "123e4567-e89b-12d3-a456-426614174000"; "orders"; "42" ].

(** A logger service with the remote sink enabled and the console
    sink disabled, for an environment. *)
Definition remote_only (env : string) : StructuredLogger.Service :=
  StructuredLogger.mkService (Some "Orders") "orders-api" env LInfo
    Constants.DEFAULT_SENSITIVE_FIELDS true false.

Definition ambient : StructuredLogger.Ambient :=
  StructuredLogger.mkAmbient "2024-05-01T10:00:00.000Z"
    (Some "4bf92f3577b34da6a3ce929d0e0e4736") (Some "00f067aa0ba902b7").

Definition collector_offline : JValue :=
  JError "Error" "connect ECONNREFUSED 127.0.0.1:4318" "" [].

(** A remote sink whose every export throws. *)
Definition failing_logger : Logger := fun _ => Throw collector_offline.

Definition healthy_logger : Logger := fun _ => Normal tt.

(** [say "hi"], with its two double quotes. *)
Definition quoted_message : string :=
  "say " ++ String JSON.dquote ("hi" ++ String JSON.dquote "").

(** Process start, after [initOtelLogger] installed the logger. *)
Definition started (logger : Logger) : World :=
  mkWorld (Some logger) true [] [] [] [] [].

End Scenarios.

(* ================================================================= *)
(** ** The remote sink as a state machine

    Everything the two logger files offer that can touch the module
    state of the provider. *)

Module RemoteSink.

Inductive Op : Type :=
| Init (build : Completion Logger)
| Shutdown
| MarkUnavailable
| MarkAvailable
| LogCall (this : StructuredLogger.Service) (amb : StructuredLogger.Ambient)
          (level : LogLevel) (message : string)
          (meta : option (list (string * JValue))).

Definition run (o : Op) (w : World) : World :=
  match o with
  | Init build => snd (OtelLogger.initOtelLogger build w)
  | Shutdown => snd (OtelLogger.shutdownOtelLogger w)
  | MarkUnavailable => snd (OtelLogger.markOtlpUnavailable w)
  | MarkAvailable => snd (OtelLogger.markOtlpAvailable w)
  | LogCall this amb level message meta =>
      snd (StructuredLogger.writeLog this amb level message meta w)
  end.

End RemoteSink.

(** A computation that leaves a part of the world as it found it, and a
    part of the world that writing to the console or to the remote sink
    does not touch. *)
Definition keeps {A X} (part : World -> X) (m : M A) : Prop :=
  forall w, part (snd (m w)) = part w.

Definition untouched_by_logging {X} (part : World -> X) : Prop :=
  (forall c w, part (log_console c w) = part w)
  /\ (forall r w, part (log_emit r w) = part w).

Module PublishScenario.

Definition producer_span : SpanContext :=
  mkSpanContext "4bf92f3577b34da6a3ce929d0e0e4736" "00f067aa0ba902b7" 1.

Definition startSpan (name : string) (kind : SpanKind) (w : World) : SpanContext :=
  producer_span.

Definition broker_down : JValue := JError "Error" "Channel closed" "" [].

Definition accepting (c : PublishCall) : Completion bool := Normal true.
Definition rejecting (c : PublishCall) : Completion bool := Throw broker_down.

Definition idle : World := mkWorld None true [] [] [] [] [].

Definition order_created : JValue := JObj [("orderId", JNum 42)].

(** [publish('orders', 'order.created', { orderId: 42 })] through the
    wrapper, with the W3C propagator. *)
Definition run (original : PublishCall -> Completion bool)
           (options : option (list (string * JValue)))
  : Completion bool * World :=
  RabbitMQPublishInterceptor.publish
    startSpan RabbitMQPublishInterceptor.w3c_propagator original
    "orders" "order.created" order_created options idle.

End PublishScenario.

Module InterceptScenario.

Definition boom : JValue := JError "Error" "payment declined" "at charge()" [].

Definition failing_handler : Rx.Observable := Rx.mkObservable [] (Rx.Errors boom).

Definition rpc_context : ExecutionContext :=
  mkExecutionContext "rpc" "charge" "PaymentsController"
    JUndefined JUndefined JUndefined JUndefined JUndefined.

Definition ws_context : ExecutionContext :=
  mkExecutionContext "ws" "join" "RoomGateway"
    JUndefined JUndefined JUndefined
    (JObj [("id", JStr "socket-1")]) (JObj [("room", JStr "lobby")]).

Definition request_span : SpanContext :=
  mkSpanContext "4bf92f3577b34da6a3ce929d0e0e4736" "b7ad6b7169203331" 1.

Definition logger : StructuredLogger.Service :=
  StructuredLogger.mkService (Some "ObservabilityErrorInterceptor") "payments"
    "development" LInfo Constants.DEFAULT_SENSITIVE_FIELDS false true.

Definition clock (w : World) : Z := 1714557600000.

Definition run_error_interceptor : Rx.Observable * World :=
  ObservabilityErrorInterceptor.intercept
    logger (Some request_span) Constants.DEFAULT_SENSITIVE_FIELDS
    Constants.DEFAULT_MAX_BODY_LOG_SIZE
    Scenarios.ambient rpc_context failing_handler PublishScenario.idle.

(** A request whose authenticated user carries a [BigInt] id. *)
Definition http_context : ExecutionContext :=
  mkExecutionContext "http" "findOne" "OrdersController"
    (JObj [ ("method", JStr "GET");
            ("url", JStr "/orders/7");
            ("path", JStr "/orders/7");
            ("query", JObj []);
            ("params", JObj [("id", JStr "7")]);
            ("user", JObj [("id", JBigInt 9007199254740993)]) ])
    JUndefined JUndefined JUndefined JUndefined.

Definition not_found : JValue := JError "NotFoundException" "Order 7 not found" "" [].

Definition run_http_interceptor : Rx.Observable * World :=
  ObservabilityErrorInterceptor.intercept
    logger None Constants.DEFAULT_SENSITIVE_FIELDS
    Constants.DEFAULT_MAX_BODY_LOG_SIZE
    Scenarios.ambient http_context
    (Rx.mkObservable [] (Rx.Errors not_found)) PublishScenario.idle.

Definition run_ws_interceptor : Rx.Observable * World :=
  WebSocketTraceInterceptor.intercept
    PublishScenario.startSpan clock ws_context failing_handler
    PublishScenario.idle.

End InterceptScenario.

(* ================================================================= *)
(** ** The log pipeline, as the specification words it *)

Module LogPipeline.

(** The console calls that print a log entry: one string argument.
    (The diagnostic of a failed export has two arguments.) *)
Definition entry_lines (calls : list ConsoleCall) : list string :=
  flat_map (fun c => match args c with
                     | [JStr line] => [line]
                     | _ => []
                     end) calls.

(** What a log call adds to the console. *)
Definition written (this : StructuredLogger.Service)
           (amb : StructuredLogger.Ambient) (level : LogLevel)
           (message : string) (meta : option (list (string * JValue)))
           (w : World) : list ConsoleCall :=
  skipn (List.length (console w))
        (console (snd (StructuredLogger.writeLog this amb level message meta w))).

(** Step 2 of the emission algorithm: whether the remote export
    succeeded, and the world after the attempt. *)
Definition remote_attempt (this : StructuredLogger.Service) (level : LogLevel)
           (message : string) (entry : list (string * JValue)) (w : World)
  : bool * World :=
  if StructuredLogger.enableOtlpLogs this
     && (isOtlpAvailable w
         && match otelLogger w with Some _ => true | None => false end)
  then
    match OtelLogger.emitOtelLog level message
                                 (StructuredLogger.otlp_attributes entry) w with
    | (Normal handled, w') => (handled, w')
    | (Throw _, w') => (false, w')
    end
  else (false, w).

(** The first half of the claim, as it is stated: the call writes
    exactly one entry line, and that line contains the message, as it
    is or as the JSON string literal the structured format prints. *)
Definition falls_back_with_message (this : StructuredLogger.Service)
           (amb : StructuredLogger.Ambient) (level : LogLevel)
           (message : string) (meta : option (list (string * JValue)))
           (w : World) : Prop :=
  exists line,
    entry_lines (written this amb level message meta w) = [line]
    /\ (Contains line message \/ Contains line (JSON.quote message)).

(** The premises of the claim's first half: the call passes the level
    filter, the remote sink is enabled and its export is not handled. *)
Definition remote_fails (this : StructuredLogger.Service)
           (amb : StructuredLogger.Ambient) (level : LogLevel)
           (message : string) (meta : option (list (string * JValue)))
           (w : World) : Prop :=
  (StructuredLogger.LOG_LEVEL_PRIORITY (StructuredLogger.logLevel this)
   <= StructuredLogger.LOG_LEVEL_PRIORITY level)%Z
  /\ StructuredLogger.enableOtlpLogs this = true
  /\ fst (remote_attempt this level message
            (StructuredLogger.createLogEntry this amb level message meta) w)
     = false.

(** How an entry line carries the message: as it is in the
    development format, as a JSON string literal in the structured
    format. *)
Definition carries (this : StructuredLogger.Service) (line message : string)
  : Prop :=
  if String.eqb (StructuredLogger.environment this) "development"
  then Contains line message
  else Contains line (JSON.quote message).

(** The fields of the entry the console format of the service reads
    by name: [message] in both formats, and [level] and [trace_id] in
    the development format. *)
Definition reserved (this : StructuredLogger.Service) (key : string) : bool :=
  String.eqb key "message"
  || (String.eqb (StructuredLogger.environment this) "development"
      && existsb (String.eqb key) ["level"; "trace_id"]).

(** Metadata that leaves those fields alone and that [JSON.stringify]
    accepts. *)
Definition plain_meta (this : StructuredLogger.Service)
           (meta : option (list (string * JValue))) : bool :=
  match meta with
  | None => true
  | Some m =>
      forallb (fun kv => negb (reserved this (fst kv))
                         && JSON.serializable (snd kv)) m
  end.

End LogPipeline.

Module TruncateScenario.

Definition order : JValue :=
  JObj [ ("id", JNum 7);
         ("tags", JArr [JStr "new"; JStr "paid"]);
         ("note", JNull) ].

(** An object with a property that [JSON.stringify] leaves out. *)
Definition sparse : JValue := JObj [("id", JNum 7); ("callback", JUndefined)].

Definition with_bigint : JValue := JObj [("id", JBigInt 7)].

End TruncateScenario.


(* ================================================================= *)
(** ** interceptors/http/http-metrics.interceptor.ts *)

Module HttpMetricsInterceptor.

Definition ignoredPaths : list string :=
  [ "/health"; "/healthz"; "/ready"; "/metrics"; "/favicon.ico" ].

(** [v.startsWith(prefix)]: a method of strings only. *)
Definition callStartsWith (v : JValue) (prefix : string) : Completion bool :=
  match v with
  | JStr s => Normal (startsWith s prefix)
  | JUndefined | JNull =>
      Throw (TypeError "Cannot read properties of undefined (reading 'startsWith')")
  | _ => Throw (TypeError "path.startsWith is not a function")
  end.

(** [prefixes.some((ignored) => path.startsWith(ignored))]. *)
Fixpoint some_prefix (path : JValue) (prefixes : list string) : Completion bool :=
  match prefixes with
  | [] => Normal false
  | ignored :: r =>
      found <- callStartsWith path ignored ;;
      if found then Normal true else some_prefix path r
  end.

Definition shouldIgnore (path : JValue) : Completion bool :=
  some_prefix path ignoredPaths.

(** [getRoute(request)]: the Express route pattern when there is one,
    the path otherwise. *)
Definition getRoute (request : JValue) : JValue :=
  let pattern := Js.optProp (Js.getProp request "route") "path" in
  if Js.truthy pattern then pattern else Js.getProp request "path".

(** [this.normalizeRoute(route)] on whatever the caller passes:
    [route.replace] is a method of strings only. *)
Definition callNormalizeRoute (route : JValue) : Completion string :=
  match route with
  | JStr r => Normal (MetricsService.normalizeRoute r)
  | JUndefined | JNull =>
      Throw (TypeError "Cannot read properties of undefined (reading 'replace')")
  | _ => Throw (TypeError "route.replace is not a function")
  end.

(** [error.status || error.statusCode || 500]. *)
Definition errorStatus (error : JValue) : Completion JValue :=
  status <- Js.member error "status" ;;
  Normal (Js.orElse status
            (Js.orElse (Js.getProp error "statusCode") (JNum 500))).

Section Interceptor.
(** [Date.now()]. *)
Variable dateNow : World -> Z.
(** [s >= 400] for a string [s], which the runtime converts to a number
    first. *)
Variable stringAtLeast400 : string -> bool.

(** [statusCode >= 400]: [undefined] converts to [NaN], [null] and
    booleans to 0 or 1, an object to its string form first. *)
Definition atLeast400 (statusCode : JValue) : bool :=
  match statusCode with
  | JNum n | JBigInt n => (400 <=? n)%Z
  | JUndefined | JNull | JBool _ => false
  | JStr s => stringAtLeast400 s
  | JFunction _ | JArr _ | JObj _ | JError _ _ _ _ =>
      stringAtLeast400 (Js.toString statusCode)
  end.

(** [metricsService.recordHttpRequest({ method, route, statusCode,
    durationMs })] on the values the interceptor passes; a label is
    recorded by its string form. *)
Definition recordHttpRequest (method route statusCode : JValue) (durationMs : Z)
  : M unit :=
  normalized <~ lift (callNormalizeRoute route) ;;
  let labels : Attributes :=
    [ ("method", Js.toString method);
      ("route", normalized);
      ("status_code", Js.toString statusCode) ] in
  MetricsService.add httpRequestsTotal 1 labels ;;;
  MetricsService.record httpRequestDuration durationMs labels ;;;
  when_ (atLeast400 statusCode) (MetricsService.add httpErrorsTotal 1 labels).

Definition recordMetrics (request statusCode : JValue) (startTime : Z) : M unit :=
  durationMs <~ gets (fun w => (dateNow w - startTime)%Z) ;;
  let route := getRoute request in
  recordHttpRequest (Js.getProp request "method") route statusCode durationMs.

(** [intercept(ctx, next)], with [response] standing for
    [ctx.switchToHttp().getResponse()]; [response.statusCode] is read
    when a value passes.  A throw before the stream is built leaves
    [intercept] itself. *)
Definition intercept (ctx : ExecutionContext) (response : JValue)
           (next : Rx.Observable) : World -> Completion Rx.Observable * World :=
  if negb (String.eqb (getType ctx) "http") then fun w => (Normal next, w)
  else
    fun w =>
      let request := request ctx in
      match (path <- Js.member request "path" ;; shouldIgnore path) with
      | Throw e => (Throw e, w)
      | Normal true => (Normal next, w)
      | Normal false =>
          let startTime := dateNow w in
          let (tapped, w) :=
            Rx.tap (fun _ =>
                      statusCode <~ lift (Js.member response "statusCode") ;;
                      recordMetrics request statusCode startTime)
                   next w in
          let (result, w) :=
            Rx.catchError
              (fun error =>
                 statusCode <~ lift (errorStatus error) ;;
                 recordMetrics request statusCode startTime ;;;
                 throw error)
              tapped w in
          (Normal result, w)
      end.

End Interceptor.

End HttpMetricsInterceptor.

(* ================================================================= *)
(** ** tracing/tracing.ts: the requests the HTTP instrumentation skips *)

Module TracingBootstrap.

(** [ignoreIncomingRequestHook(request)], on [request.url]. *)
Definition ignoreIncomingRequestHook (url : option string) : bool :=
  match url with
  | Some u =>
      existsb (fun path => startsWith u path)
              [ "/health"; "/healthz"; "/ready"; "/metrics" ]
  | None => false
  end.

End TracingBootstrap.


Module HttpScenario.

(** [GET /orders/7], routed by the pattern [/orders/:id]. *)
Definition order_request : ExecutionContext :=
  mkExecutionContext "http" "findOne" "OrdersController"
    (JObj [ ("method", JStr "GET");
            ("url", JStr "/orders/7?expand=items");
            ("path", JStr "/orders/7");
            ("route", JObj [("path", JStr "/orders/:id")]) ])
    JUndefined JUndefined JUndefined JUndefined.

Definition ok_response : JValue := JObj [("statusCode", JNum 200)].

Definition not_found : JValue :=
  JError "NotFoundException" "Order 7 not found" "" [("status", JNum 404)].

Definition not_found_labels : Attributes :=
  [ ("method", "GET"); ("route", "/orders/:id"); ("status_code", "404") ].

(** A runtime for which no string is a number of 400 or more. *)
Definition no_numeric_strings (s : string) : bool := false.

End HttpScenario.


(* ================================================================= *)
(** ** interceptors/rabbitmq/rabbitmq-trace.interceptor.ts *)

Module RabbitMQTraceInterceptor.

(** [isRabbitMQContext(ctx)], with [args] standing for [ctx.getArgs()];
    the caller tests the truthiness of the answer. *)
Definition isRabbitMQContext (ctx : ExecutionContext) (args : JValue) : bool :=
  if String.eqb (getType ctx) "rmq" then true
  else if String.eqb (getType ctx) "rpc" then
         Js.truthy args
         && Js.truthy (Js.getProp args "1")
         && Js.truthy (Js.getProp (Js.getProp args "1") "properties")
       else false.

(** [getRmqContext(ctx)]: the second argument when it has [properties],
    the RPC context otherwise, [null] when reading the arguments
    throws. *)
Definition getRmqContext (ctx : ExecutionContext) (args : JValue) : JValue :=
  match Js.member args "1" with
  | Throw _ => JNull
  | Normal second =>
      if Js.truthy second && Js.truthy (Js.getProp second "properties")
      then second
      else rpcContext ctx
  end.

(** [tag?.split('-')[0]]: the part before the first dash. *)
Definition callSplitFirst (tag : JValue) : Completion JValue :=
  match tag with
  | JUndefined | JNull => Normal JUndefined
  | JStr s =>
      Normal (JStr (String.substring 0 (ErrorClassifier.run_until "-" s) s))
  | _ => Throw (TypeError "split is not a function")
  end.

Section Interceptor.
Variable startSpan : string -> SpanKind -> World -> SpanContext.
(** [Date.now()]. *)
Variable dateNow : World -> Z.

Definition endSpanSuccess (span : SpanContext) : M unit :=
  Tracing.span_do span (SpanSetStatus StatusOK) ;;;
  Tracing.span_do span SpanEnd.

(** [metricsService.recordRabbitMessage({ exchange, routingKey,
    operation: 'consume', success, durationMs })]: the routing key goes
    through [normalizeRoutingKey], whose [replace] is a method of strings
    only; the exchange label is recorded by its string form. *)
Definition recordConsumed (exchange routingKey : JValue) (success : bool)
           (durationMs : Z) : M unit :=
  match routingKey with
  | JStr key =>
      MetricsService.recordRabbitMessage
        (MetricsService.mkRabbitMessage (Js.toString exchange) key
           MetricsService.consume success (Some durationMs))
  | JUndefined | JNull =>
      throw (TypeError "Cannot read properties of undefined (reading 'replace')")
  | _ => throw (TypeError "routingKey.replace is not a function")
  end.

Definition elapsed (startTime : Z) : M Z :=
  gets (fun w => (dateNow w - startTime)%Z).

Definition onSuccess (span : SpanContext) (exchange routingKey : JValue)
           (startTime : Z) (value : JValue) : M unit :=
  endSpanSuccess span ;;;
  durationMs <~ elapsed startTime ;;
  recordConsumed exchange routingKey true durationMs.

Definition onError (span : SpanContext) (exchange routingKey : JValue)
           (startTime : Z) (error : JValue) : M Rx.Observable :=
  Tracing.endSpanError span error ;;;
  durationMs <~ elapsed startTime ;;
  recordConsumed exchange routingKey false durationMs ;;;
  throw error.

(** The exchange and the routing key of the message, ['unknown'] when
    the context has none. *)
Definition exchangeOf (rmqContext : JValue) : JValue :=
  Js.orElse (Js.optProp (Js.getProp rmqContext "fields") "exchange")
            (JStr "unknown").

Definition routingKeyOf (rmqContext : JValue) : JValue :=
  Js.orElse (Js.optProp (Js.getProp rmqContext "fields") "routingKey")
            (JStr "unknown").

(** [intercept(ctx, next)].  The attributes of the span (the queue among
    them) and its parent, extracted from the message headers, are not
    part of the span log; computing the queue can throw before the
    stream is built. *)
Definition intercept (ctx : ExecutionContext) (args : JValue)
           (next : Rx.Observable) : World -> Completion Rx.Observable * World :=
  if negb (isRabbitMQContext ctx args) then fun w => (Normal next, w)
  else
    let rmqContext := getRmqContext ctx args in
    if negb (Js.truthy rmqContext) then fun w => (Normal next, w)
    else
      fun w =>
        let exchange := exchangeOf rmqContext in
        let routingKey := routingKeyOf rmqContext in
        match callSplitFirst
                (Js.optProp (Js.getProp rmqContext "fields") "consumerTag") with
        | Throw e => (Throw e, w)
        | Normal queue =>
            let name := Js.toString exchange ++ " process" in
            let span := startSpan name CONSUMER w in
            let w := log_span (mkSpanEvent span (SpanStart name CONSUMER)) w in
            let startTime := dateNow w in
            let (tapped, w) :=
              Rx.tap (onSuccess span exchange routingKey startTime) next w in
            let (result, w) :=
              Rx.catchError (onError span exchange routingKey startTime) tapped w in
            (Normal result, w)
        end.

End Interceptor.

End RabbitMQTraceInterceptor.

(* ================================================================= *)
(** ** Reading the span log *)

Module SpanLog.

(** How many times [span.end()] was called. *)
Definition ends (log : list SpanEvent) : Z :=
  Z.of_nat (List.length
              (filter (fun e => match op e with SpanEnd => true | _ => false end)
                      log)).

End SpanLog.


(* ================================================================= *)
(** ** A consumed message *)

Module ConsumeScenario.

(** The arguments of a handler of [@golevelup/nestjs-rabbitmq]: the
    payload, then the raw message. *)
Definition handler_args : JValue :=
  JArr [ JObj [("orderId", JNum 42)];
         JObj [ ("properties", JObj [("headers", JObj [])]);
                ("fields",
                 JObj [ ("exchange", JStr "orders");
                        ("routingKey", JStr "order.1234567890.created");
                        ("consumerTag", JStr "billing-7f3a") ]) ] ].

Definition rmq_context : ExecutionContext :=
  mkExecutionContext "rmq" "onOrderCreated" "BillingConsumer"
    JUndefined JUndefined JUndefined JUndefined JUndefined.

End ConsumeScenario.


(* ================================================================= *)
(** ** interceptors/websocket/websocket-trace.interceptor.ts: the trace
    context of an event *)

Module WebSocketTraceContext.

(** The test [getHeader], [getQueryParam] and [headersToCarrier] make on
    a value: a string is taken as it is, a non-empty array gives its
    first item, anything else gives nothing. *)
Definition stringOrFirst (value : JValue) : option JValue :=
  match value with
  | JStr _ => Some value
  | JArr (first :: _) => Some first
  | _ => None
  end.

Definition getHeader (headers : JValue) (key : string) : JValue :=
  if negb (Js.truthy headers) then JUndefined
  else match stringOrFirst (Js.getProp headers key) with
       | Some value => value
       | None => JUndefined
       end.

Definition getQueryParam (query : JValue) (key : string) : JValue :=
  if negb (Js.truthy query) then JUndefined
  else match stringOrFirst (Js.getProp query key) with
       | Some value => value
       | None => JUndefined
       end.

(** [headersToCarrier(headers)]: [carrier[key.toLowerCase()] = value]
    over [Object.entries(headers)]. *)
Definition headersToCarrier (headers : JValue) : list (string * JValue) :=
  fold_left
    (fun carrier kv =>
       match stringOrFirst (snd kv) with
       | Some value => Js.set (JsString.toLowerCase (fst kv)) value carrier
       | None => carrier
       end)
    (Js.entries headers) [].

(** [data && typeof data === 'object' && '_trace' in data]. *)
Definition carriesTrace (data : JValue) : bool :=
  Js.truthy data && String.eqb (Js.typeof data) "object"
  && Js.hasIn "_trace" data.

(** The carrier [extractTraceContext(client, data)] builds: the
    handshake headers, then the payload's [_trace] spread over them,
    then the two query parameters. *)
Definition traceCarrier (client data : JValue)
  : Completion (list (string * JValue)) :=
  handshake <- Js.member client "handshake" ;;
  let headers := Js.optProp handshake "headers" in
  let carrier := if Js.truthy headers then headersToCarrier headers else [] in
  let carrier :=
    if carriesTrace data
    then Js.assign carrier (Js.entries (Js.getProp data "_trace"))
    else carrier in
  let traceparent := getQueryParam (Js.optProp handshake "query") "traceparent" in
  let carrier :=
    if Js.truthy traceparent then Js.set "traceparent" traceparent carrier
    else carrier in
  let tracestate := getQueryParam (Js.optProp handshake "query") "tracestate" in
  let carrier :=
    if Js.truthy tracestate then Js.set "tracestate" tracestate carrier
    else carrier in
  Normal carrier.

Section Propagation.
(** [propagation.extract(context.active(), carrier)]. *)
Variable Context : Type.
Variable extract : list (string * JValue) -> Context.
(** [propagation.inject(context.active(), carrier)]: the fields the
    registered propagator writes with [carrier[k] = v], in order. *)
Variable active : list (string * string).

Definition extractTraceContext (client data : JValue) : Completion Context :=
  carrier <- traceCarrier client data ;;
  Normal (extract carrier).

(** [injectTraceContext(data)]: [{ ...data, _trace: carrier }]. *)
Definition injectTraceContext (data : JValue) : JValue :=
  let carrier :=
    fold_left (fun carrier kv => Js.set (fst kv) (JStr (snd kv)) carrier)
              active [] in
  JObj (Js.set "_trace" (JObj carrier) (Js.entries data)).

End Propagation.

End WebSocketTraceContext.

(** A socket whose handshake carries a trace in a mixed-case header. *)
Module HandshakeScenario.

Definition headers : JValue :=
  JObj [ ("Traceparent", JStr "00-aaaa-bbbb-01");
         ("X-Forwarded-For", JArr [JStr "10.0.0.1"; JStr "10.0.0.2"]);
         ("Content-Length", JNum 12) ].

Definition socket : JValue :=
  JObj [ ("id", JStr "socket-1");
         ("handshake", JObj [ ("headers", headers);
                              ("query", JObj [("room", JStr "lobby")]) ]) ].

Definition resumed : JValue :=
  JObj [ ("id", JStr "socket-1");
         ("handshake",
          JObj [ ("headers", headers);
                 ("query", JObj [("traceparent", JStr "00-cccc-dddd-01")]) ]) ].

Definition payload : JValue :=
  JObj [ ("room", JStr "lobby");
         ("_trace", JObj [("traceparent", JStr "00-eeee-ffff-01")]) ].

End HandshakeScenario.


(* ================================================================= *)
(** ** interceptors/rabbitmq/rabbitmq-publish.interceptor.ts: applying
    and undoing the prototype patch *)

Module PrototypePatch.

(** The two functions [AmqpConnection.prototype.publish] can be: the
    library's own method, and the tracing wrapper [interceptPublish]
    installs, which calls whatever [originalPublish] holds. *)
Inductive Method : Type := library_publish | tracing_wrapper.

(** What [require('@golevelup/nestjs-rabbitmq')] gives: a throw, a
    module without [AmqpConnection], or the class. *)
Inductive Required : Type := module_missing | class_missing | class_loaded.

(** The module-level variables, the method on the prototype and the
    console. *)
Record State : Type := mkState
  { isPatched : bool;
    originalPublish : option Method;
    AmqpConnectionClass : bool;
    prototype_publish : Method;
    consoleCalls : list ConsoleCall }.

Definition initial : State := mkState false None false library_publish [].

Definition interceptPublish (required : Required) (s : State) : State :=
  if isPatched s then s
  else
    match required with
    | module_missing =>
        mkState (isPatched s) (originalPublish s) (AmqpConnectionClass s)
          (prototype_publish s)
          (consoleCalls s
           ++ [mkConsoleCall console_warn
                 [JStr "[Observability] @golevelup/nestjs-rabbitmq not found, RabbitMQ publish interceptor will not be applied"]])%list
    | class_missing =>
        mkState (isPatched s) (originalPublish s) false (prototype_publish s)
          (consoleCalls s)
    | class_loaded =>
        mkState true (Some (prototype_publish s)) true tracing_wrapper
          (consoleCalls s
           ++ [mkConsoleCall console_log
                 [JStr "[Observability] RabbitMQ publish interceptor applied successfully (prototype patch)"]])%list
    end.

Definition restoreOriginal (s : State) : State :=
  match originalPublish s with
  | Some method =>
      if AmqpConnectionClass s
      then mkState false None (AmqpConnectionClass s) method (consoleCalls s)
      else s
  | None => s
  end.

(** The calls a process makes, in order: [onModuleInit] of an
    interceptor instance, or the static [restoreOriginal]. *)
Inductive Call : Type :=
| onModuleInit (required : Required)
| restore.

Definition step (s : State) (c : Call) : State :=
  match c with
  | onModuleInit required => interceptPublish required s
  | restore => restoreOriginal s
  end.

Definition run (calls : list Call) : State := fold_left step calls initial.

(** How many times the patch was announced as applied. *)
Definition applied (s : State) : nat :=
  List.length
    (filter (fun c => match method c with console_log => true | _ => false end)
            (consoleCalls s)).

End PrototypePatch.

(* ################################################################# *)
(** * Properties *)

(* ================================================================= *)
(** ** Strings *)

Lemma startsWith_spec s t :
  startsWith s t = true <-> exists b, s = t ++ b.
Proof.
  revert s. induction t as [|a t IH]; intros s; simpl.
  - split; [intros _; now exists s | intros _; now destruct s].
  - destruct s as [|b s].
    + split; [discriminate | intros [x Hx]; discriminate].
    + cbn [startsWith]. rewrite andb_true_iff, IH, Ascii.eqb_eq. split.
      * intros [-> [x ->]]. now exists x.
      * intros [x Hx]. injection Hx as -> ->. split; [reflexivity | now exists x].
Qed.

Lemma includes_spec s t : includes s t = true <-> Contains s t.
Proof.
  unfold Contains. induction s as [|c s IH].
  - cbn [includes]. rewrite orb_false_r, startsWith_spec. split.
    + intros [b Hb]. exists "", b. exact Hb.
    + intros [a [b Hab]]. destruct a; [now exists b | discriminate].
  - cbn [includes]. rewrite orb_true_iff, startsWith_spec, IH. split.
    + intros [[b Hb] | [a [b Hab]]].
      * exists "", b. exact Hb.
      * exists (String c a), b. simpl. now rewrite Hab.
    + intros [a [b Hab]]. destruct a as [|c' a].
      * left. now exists b.
      * right. simpl in Hab. injection Hab as _ Hab. now exists a, b.
Qed.

Lemma isSensitive_spec fields key :
  Masking.isSensitive fields key = true <-> Masking.KeyMatches fields key.
Proof.
  unfold Masking.isSensitive, Masking.KeyMatches.
  rewrite existsb_exists. split.
  - intros [f [Hin Hf]]. exists f. split; [exact Hin | now apply includes_spec].
  - intros [f [Hin Hf]]. exists f. split; [exact Hin | now apply includes_spec].
Qed.

Lemma isSensitive_false fields key :
  Masking.isSensitive fields key = false -> ~ Masking.KeyMatches fields key.
Proof.
  intros H K. apply isSensitive_spec in K. congruence.
Qed.

(* ================================================================= *)
(** ** Masking *)

Lemma flat_map_keep {A B} (p : A -> bool) (f : A -> B) (l : list A) :
  flat_map (fun x => if p x then [f x] else []) l = map f (filter p l).
Proof.
  induction l as [|x r IH]; cbn [flat_map filter]; [reflexivity|].
  destruct (p x); cbn [map Datatypes.app]; now rewrite IH.
Qed.

Lemma maskSensitiveData_object fields props :
  Masking.maskSensitiveData fields (JObj props)
  = JObj (map (fun kv => (fst kv, Masking.maskProperty fields (fst kv) (snd kv)))
              (filter (fun kv => Masking.assignsOwn (fst kv)) props)).
Proof.
  rewrite <- (flat_map_keep (fun kv : string * JValue => Masking.assignsOwn (fst kv))).
  reflexivity.
Qed.

Lemma maskSensitiveData_error fields name message stack props :
  Masking.maskSensitiveData fields (JError name message stack props)
  = JObj (map (fun kv => (fst kv, Masking.maskProperty fields (fst kv) (snd kv)))
              (filter (fun kv => Masking.assignsOwn (fst kv)) props)).
Proof.
  rewrite <- (flat_map_keep (fun kv : string * JValue => Masking.assignsOwn (fst kv))).
  reflexivity.
Qed.

Lemma filter_all {A} (p : A -> bool) (l : list A) :
  forallb p l = true -> filter p l = l.
Proof.
  induction l as [|x r IH]; cbn [forallb filter]; [reflexivity|].
  intros H. apply andb_true_iff in H as [Hx Hr]. now rewrite Hx, IH.
Qed.

Lemma regular_keys props :
  forallb (fun kv : string * JValue =>
             Masking.assignsOwn (fst kv) && Masking.regular (snd kv)) props = true ->
  filter (fun kv : string * JValue => Masking.assignsOwn (fst kv)) props = props.
Proof.
  intros H. apply filter_all. apply forallb_forall. intros kv Hin.
  rewrite forallb_forall in H. specialize (H kv Hin).
  now apply andb_true_iff in H as [H _].
Qed.

(** What masking does to a regular value, by the shape of the value: as
    a record when it is an object, item by item when it is an array. *)
Lemma masking_shapes fields (v : JValue) :
  Masking.regular v = true ->
  (forall ps, Masking.object_map v = Some ps ->
     Masking.MaskedRecord fields Masking.object_map ps
       (map (fun kv => (fst kv, Masking.maskProperty fields (fst kv) (snd kv))) ps))
  /\ (forall items, v = JArr items ->
        Masking.MaskedItems fields Masking.object_map items
          (map (Masking.maskItem fields) items)).
Proof.
  assert (Hprops : forall props,
    Forall (fun kv : string * JValue =>
      Masking.regular (snd kv) = true ->
      (forall ps, Masking.object_map (snd kv) = Some ps ->
         Masking.MaskedRecord fields Masking.object_map ps
           (map (fun kv => (fst kv, Masking.maskProperty fields (fst kv) (snd kv))) ps))
      /\ (forall items, snd kv = JArr items ->
            Masking.MaskedItems fields Masking.object_map items
              (map (Masking.maskItem fields) items)))
      props ->
    forallb (fun kv : string * JValue =>
               Masking.assignsOwn (fst kv) && Masking.regular (snd kv)) props = true ->
    Masking.MaskedRecord fields Masking.object_map props
      (map (fun kv => (fst kv, Masking.maskProperty fields (fst kv) (snd kv))) props)).
  { induction 1 as [|[k x] r Hx _ IHr]; intros Hreg; cbn [map].
    - constructor.
    - cbn [forallb fst snd] in Hreg, Hx.
      apply andb_true_iff in Hreg as [Hkx Hr].
      apply andb_true_iff in Hkx as [_ Hregx].
      destruct (Hx Hregx) as [Hmap Harr].
      constructor; [|now apply IHr].
      cbn [fst snd]. unfold Masking.maskProperty.
      destruct (Masking.isSensitive fields k) eqn:Hk.
      + apply Masking.MaskMatched. now apply isSensitive_spec.
      + apply isSensitive_false in Hk.
        destruct x; try (now apply Masking.MaskOther).
        * apply Masking.MaskArray; [exact Hk | now apply Harr].
        * rewrite maskSensitiveData_object, (regular_keys _ Hregx).
          eapply Masking.MaskNestedMap; [exact Hk | reflexivity | now apply Hmap].
        * rewrite maskSensitiveData_error, (regular_keys _ Hregx).
          eapply Masking.MaskNestedMap; [exact Hk | reflexivity | now apply Hmap]. }
  induction v using JValue_ind; intros Hreg; split; try discriminate.
  - intros items' E. injection E as <-. cbn [Masking.regular] in Hreg.
    induction H as [|x r Hx _ IHr]; cbn [map].
    + constructor.
    + cbn [forallb] in Hreg. apply andb_true_iff in Hreg as [Hxr Hr].
      apply andb_true_iff in Hxr as [Hnotarr Hregx].
      destruct (Hx Hregx) as [Hmap _].
      destruct x; try (now apply Masking.ItemsOther; [| |apply IHr]).
      * discriminate Hnotarr.
      * unfold Masking.maskItem at 1.
        rewrite maskSensitiveData_object, (regular_keys _ Hregx).
        eapply Masking.ItemsMap; [reflexivity | now apply Hmap | now apply IHr].
      * unfold Masking.maskItem at 1.
        rewrite maskSensitiveData_error, (regular_keys _ Hregx).
        eapply Masking.ItemsMap; [reflexivity | now apply Hmap | now apply IHr].
  - intros ps E. injection E as <-. now apply Hprops.
  - intros ps E. injection E as <-. now apply Hprops.
Qed.




(** An array that sits directly in an array is handed to the function as
    an object: the result is a plain object keyed by the indices, and the
    secrets below it are still masked. *)
Example mask_array_in_array :
  Masking.maskSensitiveData ["token"]
    (JObj [("rows", JArr [JArr [JNum 1; JObj [("token", JStr "t")]]])])
  = JObj [("rows", JArr [JObj [("0", JNum 1);
                               ("1", JObj [("token", JStr "[REDACTED]")])]])].
Proof. reflexivity. Qed.

(** A property named [__proto__], as [JSON.parse] creates one, is not
    among the properties of the masked record. *)
Example mask_drops_own_proto :
  Masking.maskSensitiveData ["token"]
    (JObj [("__proto__", JObj [("admin", JBool true)]); ("id", JNum 7)])
  = JObj [("id", JNum 7)].
Proof. reflexivity. Qed.

Lemma Contains_key_message_keys : Contains (toLowerCase "message_keys") "key".
Proof. exists "message_", "s". reflexivity. Qed.

Lemma Contains_key_data_keys : Contains (toLowerCase "data_keys") "key".
Proof. exists "data_", "s". reflexivity. Qed.

Lemma nth_error_filter {A} (p : A -> bool) (l : list A) i x :
  nth_error l i = Some x -> p x = true ->
  nth_error (filter p l) (List.length (filter p (firstn i l))) = Some x.
Proof.
  revert i. induction l as [|y r IH]; intros [|i] H Hp; try discriminate.
  - cbn in H. injection H as ->. cbn [firstn filter List.length nth_error].
    now rewrite Hp.
  - cbn [nth_error] in H. cbn [firstn filter].
    destruct (p y); cbn [List.length nth_error]; now apply IH.
Qed.

Lemma Contains_key_not_proto key :
  Contains (toLowerCase key) "key" -> Masking.assignsOwn key = true.
Proof.
  intros H. unfold Masking.assignsOwn. apply negb_true_iff.
  apply String.eqb_neq. intros ->.
  apply includes_spec in H. discriminate H.
Qed.

(** C10. With the default sensitive fields, every key of a record that
    contains "key" (in any case) has its value replaced by
    ["[REDACTED]"], whatever the value, at the place the key has among
    the keys of the record other than [__proto__]; ["message_keys"] and
    ["data_keys"] are two such keys. *)
Theorem default_fields_redact_every_key_containing_key :
  forall (record : list (string * JValue)) (i : nat) (key : string) (value : JValue),
    nth_error record i = Some (key, value) ->
    Contains (toLowerCase key) "key" ->
    nth_error
      (Js.entries
         (Masking.maskSensitiveData Constants.DEFAULT_SENSITIVE_FIELDS (JObj record)))
      (Masking.position i record)
    = Some (key, JStr "[REDACTED]").
Proof.
  intros record i key value Hnth Hkey.
  rewrite maskSensitiveData_object. cbn [Js.entries].
  unfold Masking.position.
  rewrite nth_error_map,
    (nth_error_filter (fun kv : string * JValue => Masking.assignsOwn (fst kv))
       record i (key, value) Hnth (Contains_key_not_proto key Hkey)).
  cbn [option_map fst snd].
  unfold Masking.maskProperty.
  assert (Hs : Masking.isSensitive Constants.DEFAULT_SENSITIVE_FIELDS key = true).
  { apply isSensitive_spec. exists "key". split.
    - unfold Constants.DEFAULT_SENSITIVE_FIELDS. simpl. tauto.
    - exact Hkey. }
  now rewrite Hs.
Qed.

Lemma default_fields_redact_witness :
  nth_error
    (Js.entries
       (Masking.maskSensitiveData Constants.DEFAULT_SENSITIVE_FIELDS
          (JObj [ ("exchange", JStr "orders");
                  ("message_keys", JArr [JStr "orderId"; JStr "total"]) ])))
    1
  = Some ("message_keys", JStr "[REDACTED]")
  /\ nth_error
       (Js.entries
          (Masking.maskSensitiveData Constants.DEFAULT_SENSITIVE_FIELDS
             (JObj [ ("data_keys", JArr [JStr "room"]) ])))
       0
     = Some ("data_keys", JStr "[REDACTED]").
Proof.
  split.
  - apply (default_fields_redact_every_key_containing_key
             [ ("exchange", JStr "orders");
               ("message_keys", JArr [JStr "orderId"; JStr "total"]) ]
             1 "message_keys" (JArr [JStr "orderId"; JStr "total"])).
    + reflexivity.
    + exact Contains_key_message_keys.
  - apply (default_fields_redact_every_key_containing_key
             [ ("data_keys", JArr [JStr "room"]) ]
             0 "data_keys" (JArr [JStr "room"])).
    + reflexivity.
    + exact Contains_key_data_keys.
Defined.

(* ================================================================= *)
(** ** Error classification *)

(** C6. [classifyError] tries the guards in the order Axios, Prisma
    known-request, Prisma unknown-request, Prisma validation, and answers
    with the kind of the first guard that holds; when none holds the
    answer is [GENERIC].  The sample of each shape gets its kind, and a
    value with both the Axios flag and the known-request shape is
    Axios. *)
Theorem classifyError_first_match_wins :
  (forall error,
      (ErrorClassifier.isAxiosError error = true ->
       ErrorClassifier.classifyError error = AXIOS)
      /\ (ErrorClassifier.isAxiosError error = false ->
          ErrorClassifier.isPrismaKnownRequestError error = true ->
          ErrorClassifier.classifyError error = PRISMA_KNOWN)
      /\ (ErrorClassifier.isAxiosError error = false ->
          ErrorClassifier.isPrismaKnownRequestError error = false ->
          ErrorClassifier.isPrismaUnknownRequestError error = true ->
          ErrorClassifier.classifyError error = PRISMA_UNKNOWN)
      /\ (ErrorClassifier.isAxiosError error = false ->
          ErrorClassifier.isPrismaKnownRequestError error = false ->
          ErrorClassifier.isPrismaUnknownRequestError error = false ->
          ErrorClassifier.isPrismaValidationError error = true ->
          ErrorClassifier.classifyError error = PRISMA_VALIDATION)
      /\ (ErrorClassifier.isAxiosError error = false ->
          ErrorClassifier.isPrismaKnownRequestError error = false ->
          ErrorClassifier.isPrismaUnknownRequestError error = false ->
          ErrorClassifier.isPrismaValidationError error = false ->
          ErrorClassifier.classifyError error = GENERIC))
  /\ ErrorClassifier.classifyError ErrorClassifier.axiosSample = AXIOS
  /\ ErrorClassifier.classifyError ErrorClassifier.prismaKnownSample = PRISMA_KNOWN
  /\ ErrorClassifier.classifyError ErrorClassifier.prismaUnknownSample = PRISMA_UNKNOWN
  /\ ErrorClassifier.classifyError ErrorClassifier.prismaValidationSample
     = PRISMA_VALIDATION
  /\ ErrorClassifier.classifyError ErrorClassifier.ambiguousSample = AXIOS.
Proof.
  split; [|repeat split; reflexivity].
  intros error. unfold ErrorClassifier.classifyError.
  repeat split; intros; repeat match goal with
                               | H : _ = _ |- _ => rewrite H; clear H
                               end; reflexivity.
Qed.

Lemma classifyError_witness :
  ErrorClassifier.classifyError (JStr "connection reset") = GENERIC
  /\ ErrorClassifier.classifyError
       (JError "Error" "boom" "" [("code", JStr "E_BOOM")]) = GENERIC
  /\ ErrorClassifier.classifyError ErrorClassifier.prismaKnownSample = PRISMA_KNOWN.
Proof.
  destruct classifyError_first_match_wins as [general _].
  split; [|split].
  - apply (general (JStr "connection reset")); reflexivity.
  - apply (general (JError "Error" "boom" "" [("code", JStr "E_BOOM")])); reflexivity.
  - apply (general ErrorClassifier.prismaKnownSample); reflexivity.
Defined.

(* ================================================================= *)
(** ** Metrics *)

Lemma counter_value_app i l a b :
  MetricsService.counter_value i l (a ++ b)%list
  = (MetricsService.counter_value i l a + MetricsService.counter_value i l b)%Z.
Proof.
  induction a as [|e a IH]; simpl.
  - reflexivity.
  - rewrite IH. lia.
Qed.

Lemma recordHttpRequest_log (attributes : MetricsService.HttpRequest) (w : World) :
  metricLog (snd (MetricsService.recordHttpRequest attributes w))
  = (metricLog w
     ++ [ mkMetricEvent httpRequestsTotal (Add 1)
                        (MetricsService.http_labels attributes);
          mkMetricEvent httpRequestDuration
                        (RecordSeconds (MetricsService.hr_durationMs attributes))
                        (MetricsService.http_labels attributes) ]
     ++ (if (400 <=? MetricsService.hr_statusCode attributes)%Z
         then [ mkMetricEvent httpErrorsTotal (Add 1)
                              (MetricsService.http_labels attributes) ]
         else []))%list.
Proof.
  unfold MetricsService.recordHttpRequest, MetricsService.add,
    MetricsService.record, when_, bind, modify, ret.
  destruct (400 <=? MetricsService.hr_statusCode attributes)%Z; simpl;
    repeat rewrite <- app_assoc; simpl; try rewrite app_nil_r; reflexivity.
Qed.

Lemma recordRabbitMessage_log (attributes : MetricsService.RabbitMessage) (w : World) :
  metricLog (snd (MetricsService.recordRabbitMessage attributes w))
  = (metricLog w
     ++ [ mkMetricEvent rabbitMessagesTotal (Add 1)
                        (MetricsService.rabbit_labels attributes) ]
     ++ (if negb (MetricsService.rm_success attributes)
         then [ mkMetricEvent rabbitErrorsTotal (Add 1)
                              (MetricsService.rabbit_labels attributes) ]
         else [])
     ++ match MetricsService.rm_durationMs attributes with
        | Some ms => [ mkMetricEvent rabbitProcessingDuration (RecordSeconds ms)
                                     (MetricsService.rabbit_labels attributes) ]
        | None => []
        end)%list.
Proof.
  unfold MetricsService.recordRabbitMessage, MetricsService.add,
    MetricsService.record, when_, bind, modify, ret.
  destruct (MetricsService.rm_success attributes),
    (MetricsService.rm_durationMs attributes); simpl;
    repeat rewrite <- app_assoc; simpl; try rewrite app_nil_r; reflexivity.
Qed.

Lemma recordWsEvent_log (attributes : MetricsService.WsEvent) (w : World) :
  metricLog (snd (MetricsService.recordWsEvent attributes w))
  = (metricLog w
     ++ [ mkMetricEvent wsEventsTotal (Add 1) (MetricsService.ws_labels attributes) ]
     ++ (if negb (MetricsService.ws_success attributes)
         then [ mkMetricEvent wsErrorsTotal (Add 1)
                              (MetricsService.ws_labels attributes) ]
         else [])
     ++ match MetricsService.ws_durationMs attributes with
        | Some ms => [ mkMetricEvent wsEventDuration (RecordSeconds ms)
                                     (MetricsService.ws_labels attributes) ]
        | None => []
        end)%list.
Proof.
  unfold MetricsService.recordWsEvent, MetricsService.add,
    MetricsService.record, when_, bind, modify, ret.
  destruct (MetricsService.ws_success attributes),
    (MetricsService.ws_durationMs attributes); simpl;
    repeat rewrite <- app_assoc; simpl; try rewrite app_nil_r; reflexivity.
Qed.

(** C8. Recording a request, a broker message or a socket event adds 1
    to the domain's main counter at the event's label set, and adds 1 to
    the domain's errors counter at that same label set exactly when the
    event is a failure (status code at least 400 for a request, success
    flag false for the other two); at every other label set, and for
    every successful event, the errors counter keeps its value. *)
Theorem errors_counter_follows_outcome :
  forall (w : World) (l : Attributes),
    (forall a : MetricsService.HttpRequest,
        let w' := snd (MetricsService.recordHttpRequest a w) in
        MetricsService.counter_value httpRequestsTotal l (metricLog w')
        = (MetricsService.counter_value httpRequestsTotal l (metricLog w)
           + MetricsService.bump (MetricsService.labels_eqb (MetricsService.http_labels a) l))%Z
        /\ MetricsService.counter_value httpErrorsTotal l (metricLog w')
           = (MetricsService.counter_value httpErrorsTotal l (metricLog w)
              + MetricsService.bump ((400 <=? MetricsService.hr_statusCode a)%Z
                      && MetricsService.labels_eqb (MetricsService.http_labels a) l))%Z)
    /\ (forall a : MetricsService.RabbitMessage,
           let w' := snd (MetricsService.recordRabbitMessage a w) in
           MetricsService.counter_value rabbitMessagesTotal l (metricLog w')
           = (MetricsService.counter_value rabbitMessagesTotal l (metricLog w)
              + MetricsService.bump (MetricsService.labels_eqb (MetricsService.rabbit_labels a) l))%Z
           /\ MetricsService.counter_value rabbitErrorsTotal l (metricLog w')
              = (MetricsService.counter_value rabbitErrorsTotal l (metricLog w)
                 + MetricsService.bump (negb (MetricsService.rm_success a)
                         && MetricsService.labels_eqb
                              (MetricsService.rabbit_labels a) l))%Z)
    /\ (forall a : MetricsService.WsEvent,
           let w' := snd (MetricsService.recordWsEvent a w) in
           MetricsService.counter_value wsEventsTotal l (metricLog w')
           = (MetricsService.counter_value wsEventsTotal l (metricLog w)
              + MetricsService.bump (MetricsService.labels_eqb (MetricsService.ws_labels a) l))%Z
           /\ MetricsService.counter_value wsErrorsTotal l (metricLog w')
              = (MetricsService.counter_value wsErrorsTotal l (metricLog w)
                 + MetricsService.bump (negb (MetricsService.ws_success a)
                         && MetricsService.labels_eqb (MetricsService.ws_labels a) l))%Z).
Proof.
  intros w l. split; [|split]; intros a w'; subst w'.
  - rewrite recordHttpRequest_log, !counter_value_app.
    destruct (400 <=? MetricsService.hr_statusCode a)%Z;
      cbn -[MetricsService.labels_eqb MetricsService.http_labels Z.add];
      destruct (MetricsService.labels_eqb (MetricsService.http_labels a) l);
      cbn [MetricsService.bump]; split; lia.
  - rewrite recordRabbitMessage_log, !counter_value_app.
    destruct (MetricsService.rm_success a), (MetricsService.rm_durationMs a);
      cbn -[MetricsService.labels_eqb MetricsService.rabbit_labels Z.add];
      destruct (MetricsService.labels_eqb (MetricsService.rabbit_labels a) l);
      cbn [MetricsService.bump]; split; lia.
  - rewrite recordWsEvent_log, !counter_value_app.
    destruct (MetricsService.ws_success a), (MetricsService.ws_durationMs a);
      cbn -[MetricsService.labels_eqb MetricsService.ws_labels Z.add];
      destruct (MetricsService.labels_eqb (MetricsService.ws_labels a) l);
      cbn [MetricsService.bump]; split; lia.
Qed.

(* ================================================================= *)
(** ** Route normalisation *)

Section Scanners.
Import MetricsService.

Lemma string_app_assoc (a b c : string) : (a ++ b) ++ c = a ++ (b ++ c).
Proof. induction a as [|x a IH]; simpl; [reflexivity | now rewrite IH]. Qed.

Lemma string_app_nil_r (a : string) : a ++ "" = a.
Proof. induction a as [|x a IH]; simpl; [reflexivity | now rewrite IH]. Qed.

Lemma string_length_app (a b : string) :
  String.length (a ++ b) = String.length a + String.length b.
Proof. induction a as [|x a IH]; simpl; [reflexivity | now rewrite IH]. Qed.

Lemma substring0_length n s : (String.length (substring0 n s) <= Z.to_nat n)%nat.
Proof.
  unfold substring0. generalize (Z.to_nat n) as k. clear n.
  induction s as [|c s IH]; intros [|k]; simpl; try lia.
  specialize (IH k). lia.
Qed.

Lemma matches_app_slash pat x s :
  Forall (fun p : ascii -> bool => p "/"%char = false) pat ->
  matches pat (x ++ String "/" s) = matches pat x.
Proof.
  intros Hpat. revert x. induction Hpat as [|p pat Hp _ IH]; intros x.
  - now destruct x.
  - destruct x as [|c x]; simpl.
    + now rewrite Hp.
    + now rewrite IH.
Qed.

Lemma matches_length pat x :
  matches pat x = true -> (List.length pat <= String.length x)%nat.
Proof.
  revert x. induction pat as [|p pat IH]; intros x H; simpl.
  - lia.
  - destruct x as [|c x]; simpl in H; [discriminate|].
    apply andb_true_iff in H as [_ H]. apply IH in H. simpl. lia.
Qed.

Lemma UUID_no_slash : Forall (fun p : ascii -> bool => p "/"%char = false) UUID.
Proof. unfold UUID. simpl. repeat constructor. Qed.

Lemma UUID_length : List.length UUID = 36%nat.
Proof. reflexivity. Qed.

Variable by_ : string.

Lemma replace_fixed_skip_all x k :
  (String.length x <= k)%nat -> replace_fixed UUID by_ k x = "".
Proof.
  revert k. induction x as [|c x IH]; intros k H; simpl.
  - reflexivity.
  - destruct k as [|k]; simpl in H; [lia|]. apply IH. lia.
Qed.

(** A match never crosses a ["/"]: the scan of [x ++ "/" ++ s] is the
    scan of [x], the ["/"], and the scan of [s]. *)
Lemma replace_fixed_slash x skip s :
  (skip <= String.length x)%nat ->
  replace_fixed UUID by_ skip (x ++ String "/" s)
  = replace_fixed UUID by_ skip x ++ String "/" (replace_fixed UUID by_ 0 s).
Proof.
  revert skip. induction x as [|c x IH]; intros skip H.
  - simpl in H. assert (skip = 0)%nat as -> by lia. reflexivity.
  - cbn [append replace_fixed]. destruct skip as [|k].
    + change (String c (x ++ String "/" s)) with (String c x ++ String "/" s).
      rewrite (matches_app_slash UUID (String c x) s UUID_no_slash).
      destruct (matches UUID (String c x)) eqn:Hm.
      * apply matches_length in Hm. rewrite UUID_length in *. simpl in Hm.
        rewrite IH by (simpl; lia). now rewrite string_app_assoc.
      * rewrite IH by lia. reflexivity.
    + simpl in H. apply IH. lia.
Qed.

Lemma replace_fixed_path seg rest :
  replace_fixed UUID by_ 0 (seg ++ join_path rest)
  = replace_fixed UUID by_ 0 seg
    ++ join_path (map (replace_fixed UUID by_ 0) rest).
Proof.
  revert seg. induction rest as [|s1 rest IH]; intros seg; cbn [join_path map].
  - now rewrite !string_app_nil_r.
  - change ("/" ++ s1 ++ join_path rest) with (String "/" (s1 ++ join_path rest)).
    rewrite replace_fixed_slash by lia. now rewrite IH.
Qed.

Lemma replace_fixed_join_path segs :
  replace_fixed UUID by_ 0 (join_path segs)
  = join_path (map (replace_fixed UUID by_ 0) segs).
Proof.
  destruct segs as [|seg rest]; [reflexivity|].
  cbn [join_path map].
  change ("/" ++ seg ++ join_path rest) with (String "/" (seg ++ join_path rest)).
  cbn [replace_fixed]. 
  replace (matches UUID (String "/" (seg ++ join_path rest))) with false
    by reflexivity.
  now rewrite replace_fixed_path.
Qed.

Lemma replace_fixed_uuid_segment seg :
  is_uuid_segment seg = true -> replace_fixed UUID by_ 0 seg = by_.
Proof.
  unfold is_uuid_segment. intros H.
  apply andb_true_iff in H as [Hm Hl]. apply Nat.eqb_eq in Hl.
  destruct seg as [|c r]; [discriminate|].
  cbn [replace_fixed]. rewrite Hm.
  rewrite replace_fixed_skip_all; [apply string_app_nil_r|].
  rewrite UUID_length in *. cbn [String.length] in Hl. lia.
Qed.

Lemma replace_fixed_no_match seg :
  contains_match UUID seg = false -> replace_fixed UUID by_ 0 seg = seg.
Proof.
  induction seg as [|c r IH]; intros H; [reflexivity|].
  cbn [contains_match] in H. apply orb_false_iff in H as [Hm Hr].
  cbn [replace_fixed]. rewrite Hm. now rewrite IH.
Qed.

End Scanners.

Section NumericScanner.
Import MetricsService.

Lemma is_digit_not_dash c : is_digit c = true -> is_dash c = false.
Proof.
  destruct c as [[] [] [] [] [] [] [] []]; intros H;
    solve [reflexivity | discriminate H].
Qed.

Lemma digits_no_uuid_prefix s :
  all_chars is_digit s = true -> matches UUID s = false.
Proof.
  intros H. destruct (matches UUID s) eqn:Hm; [exfalso|reflexivity].
  unfold UUID in Hm.
  destruct s as [|c0 [|c1 [|c2 [|c3 [|c4 [|c5 [|c6 [|c7 [|c8 s]]]]]]]]];
    cbn [matches List.repeat Datatypes.app] in Hm; rewrite ?andb_false_r in Hm;
    try discriminate Hm.
  cbn [all_chars] in H.
  do 8 (apply andb_true_iff in H as [_ H]).
  apply andb_true_iff in H as [H8 _].
  do 8 (apply andb_true_iff in Hm as [_ Hm]).
  apply andb_true_iff in Hm as [Hd _].
  apply is_digit_not_dash in H8. congruence.
Qed.

Lemma digits_no_match s :
  all_chars is_digit s = true -> contains_match UUID s = false.
Proof.
  induction s as [|c r IH]; intros H.
  - reflexivity.
  - cbn [contains_match]. rewrite (digits_no_uuid_prefix _ H).
    cbn [all_chars] in H. apply andb_true_iff in H as [_ H]. now apply IH.
Qed.

Lemma head_is_digit_app_slash x s :
  head_is_digit (x ++ String "/" s) = head_is_digit x.
Proof. now destruct x. Qed.

Lemma replace_numeric_ids_at_slash b s :
  replace_numeric_ids b (String "/" s) = replace_numeric_ids false (String "/" s).
Proof. now destruct b. Qed.

Lemma replace_numeric_ids_slash x b s :
  replace_numeric_ids b (x ++ String "/" s)
  = replace_numeric_ids b x ++ replace_numeric_ids false (String "/" s).
Proof.
  revert b. induction x as [|c x IH]; intros b.
  - apply replace_numeric_ids_at_slash.
  - cbn [append replace_numeric_ids]. rewrite head_is_digit_app_slash.
    destruct (b && is_digit c); [apply IH|].
    destruct (Ascii.eqb c "/" && head_is_digit x); rewrite IH; reflexivity.
Qed.

Lemma replace_numeric_ids_digits d :
  all_chars is_digit d = true -> replace_numeric_ids true d = "".
Proof.
  induction d as [|c d IH]; intros H; [reflexivity|].
  cbn [all_chars] in H. apply andb_true_iff in H as [Hc Hd].
  cbn [replace_numeric_ids]. rewrite Hc. now apply IH.
Qed.

Lemma replace_numeric_ids_no_slash x :
  all_chars (fun c => negb (Ascii.eqb c "/")) x = true ->
  replace_numeric_ids false x = x.
Proof.
  induction x as [|c x IH]; intros H; [reflexivity|].
  cbn [all_chars] in H. apply andb_true_iff in H as [Hc Hx].
  apply negb_true_iff in Hc.
  cbn [replace_numeric_ids]. rewrite Hc. cbn [andb]. now rewrite IH.
Qed.

Lemma replace_numeric_ids_join_path seg rest :
  replace_numeric_ids false (join_path (seg :: rest))
  = replace_numeric_ids false (String "/" seg)
    ++ replace_numeric_ids false (join_path rest).
Proof.
  destruct rest as [|s1 rest].
  - cbn [join_path]. rewrite string_app_nil_r.
    change (replace_numeric_ids false "") with "".
    now rewrite string_app_nil_r.
  - cbn [join_path].
    change ("/" ++ seg ++ "/" ++ s1 ++ join_path rest)
      with (String "/" seg ++ String "/" (s1 ++ join_path rest)).
    apply replace_numeric_ids_slash.
Qed.

(** One segment through both replacements. *)
Lemma normalize_one_segment seg :
  classified seg = true ->
  replace_numeric_ids false (String "/" (replace_fixed UUID ":id" 0 seg))
  = String "/" (normalize_segment seg).
Proof.
  unfold classified, normalize_segment. intros H.
  destruct (is_uuid_segment seg) eqn:Hu.
  - rewrite (replace_fixed_uuid_segment ":id" seg Hu). reflexivity.
  - destruct (is_numeric_segment seg) eqn:Hn; cbn [orb] in *.
    + unfold is_numeric_segment in Hn. apply andb_true_iff in Hn as [Hh Hd].
      rewrite (replace_fixed_no_match ":id" seg (digits_no_match seg Hd)).
      cbn [replace_numeric_ids]. rewrite Hh.
      cbn. now rewrite (replace_numeric_ids_digits seg Hd).
    + unfold is_plain_segment in H.
      apply andb_true_iff in H as [H Hm]. apply andb_true_iff in H as [Hs Hh].
      apply negb_true_iff in Hm, Hh.
      rewrite (replace_fixed_no_match ":id" seg Hm).
      cbn [replace_numeric_ids]. rewrite Hh.
      cbn. now rewrite (replace_numeric_ids_no_slash seg Hs).
Qed.

Lemma normalize_path segs :
  forallb classified segs = true ->
  replace_numeric_ids false (replace_fixed UUID ":id" 0 (join_path segs))
  = join_path (map normalize_segment segs).
Proof.
  rewrite replace_fixed_join_path.
  induction segs as [|seg rest IH]; intros H; [reflexivity|].
  cbn [forallb] in H. apply andb_true_iff in H as [Hseg Hrest].
  cbn [map]. rewrite replace_numeric_ids_join_path.
  rewrite (normalize_one_segment seg Hseg), (IH Hrest). reflexivity.
Qed.

End NumericScanner.



(* ================================================================= *)
(** ** The degrade state of the remote sink *)

Section Keeps.
Context {X : Type} (part : World -> X).

Lemma keeps_ret {A} (a : A) : keeps part (ret a).
Proof. intros w. reflexivity. Qed.

Lemma keeps_lift {A} (c : Completion A) : keeps part (lift c).
Proof. intros w. reflexivity. Qed.

Lemma keeps_gets {A} (f : World -> A) : keeps part (gets f).
Proof. intros w. reflexivity. Qed.

Lemma keeps_throw {A} (e : JValue) : keeps part (@throw A e).
Proof. intros w. reflexivity. Qed.

Lemma keeps_modify (f : World -> World) :
  (forall w, part (f w) = part w) -> keeps part (modify f).
Proof. intros H w. apply H. Qed.

Lemma keeps_bind {A B} (m : M A) (k : A -> M B) :
  keeps part m -> (forall a, keeps part (k a)) -> keeps part (bind m k).
Proof.
  intros Hm Hk w. unfold bind. specialize (Hm w).
  destruct (m w) as [[a|e] w1]; simpl in *.
  - now rewrite Hk.
  - exact Hm.
Qed.

Lemma keeps_when (b : bool) (m : M unit) :
  keeps part m -> keeps part (when_ b m).
Proof. intros H. destruct b; [exact H | apply keeps_ret]. Qed.

Hypothesis blind : untouched_by_logging part.

Lemma keeps_console c : keeps part (modify (log_console c)).
Proof. apply keeps_modify. apply blind. Qed.

Lemma keeps_emitOtelLog level message attributes :
  keeps part (OtelLogger.emitOtelLog level message attributes).
Proof.
  destruct blind as [Hconsole Hemit].
  intros w. unfold OtelLogger.emitOtelLog.
  destruct (otelLogger w) as [logger|]; [|reflexivity].
  destruct (negb (isOtlpAvailable w)); [reflexivity|].
  destruct (logger _); cbn [snd].
  - apply Hemit.
  - now rewrite Hconsole, Hemit.
Qed.

Lemma keeps_writeToConsole this level entry :
  keeps part (StructuredLogger.writeToConsole this level entry).
Proof.
  unfold StructuredLogger.writeToConsole.
  destruct (String.eqb _ _).
  - repeat (apply keeps_bind; [apply keeps_lift | intros ?]).
    apply keeps_console.
  - apply keeps_bind; [apply keeps_lift | intros ?].
    apply keeps_console.
Qed.

Lemma keeps_writeLog this amb level message meta :
  keeps part (StructuredLogger.writeLog this amb level message meta).
Proof.
  unfold StructuredLogger.writeLog.
  destruct (_ <? _)%Z; [apply keeps_ret|].
  apply keeps_bind.
  { destruct (StructuredLogger.enableOtlpLogs this);
      [apply keeps_gets | apply keeps_ret]. }
  intros available. apply keeps_bind.
  { destruct (_ && _); [apply keeps_emitOtelLog | apply keeps_ret]. }
  intros otlpSuccess.
  destruct (_ || _); [apply keeps_writeToConsole | apply keeps_ret].
Qed.

End Keeps.

Lemma flag_untouched_by_logging : untouched_by_logging isOtlpAvailable.
Proof. split; reflexivity. Qed.

Lemma metricLog_untouched_by_logging : untouched_by_logging metricLog.
Proof. split; reflexivity. Qed.

Lemma spanLog_untouched_by_logging : untouched_by_logging spanLog.
Proof. split; reflexivity. Qed.

(** C1, as the code behaves.  No log call ever changes the degrade
    state: when the export throws, [emitOtelLog] prints a diagnostic and
    returns [false], and [isOtlpAvailable] stays [true].  On a sink whose
    every export throws, the first log call falls back to the console,
    the sink is still AVAILABLE afterwards, and the second log call
    attempts the export again. *)
Theorem throwing_export_leaves_sink_available :
  (forall this amb level message meta w,
      isOtlpAvailable
        (snd (StructuredLogger.writeLog this amb level message meta w))
      = isOtlpAvailable w)
  /\ (let svc := Scenarios.remote_only "development" in
      let w0 := Scenarios.started Scenarios.failing_logger in
      let w1 := snd (StructuredLogger.log svc Scenarios.ambient "first" None w0) in
      let w2 := snd (StructuredLogger.log svc Scenarios.ambient "second" None w1) in
      isOtlpAvailable w1 = true
      /\ map body (emitCalls w1) = ["first"]
      /\ map body (emitCalls w2) = ["first"; "second"]
      /\ List.length (console w1) = 2%nat
      /\ List.length (console w2) = 4%nat).
Proof.
  split.
  - intros. apply (keeps_writeLog isOtlpAvailable flag_untouched_by_logging).
  - vm_compute. repeat split; reflexivity.
Qed.

(** While the sink is DEGRADED a log call makes no export attempt. *)
Lemma degraded_sink_is_skipped this amb level message meta w :
  isOtlpAvailable w = false ->
  emitCalls (snd (StructuredLogger.writeLog this amb level message meta w))
  = emitCalls w.
Proof.
  intros Hdown. unfold StructuredLogger.writeLog.
  destruct (_ <? _)%Z; [reflexivity|].
  unfold bind at 1.
  assert (Hav : forall b : bool, (if b then OtelLogger.isOtelLoggerAvailable else ret false) w
                          = (Normal false, w)).
  { intros []; [|reflexivity].
    unfold OtelLogger.isOtelLoggerAvailable, gets. now rewrite Hdown. }
  rewrite Hav. rewrite andb_false_r. unfold bind, ret.
  destruct (_ || _); [|reflexivity].
  generalize (StructuredLogger.createLogEntry this amb level message meta).
  intros entry. unfold StructuredLogger.writeToConsole.
  destruct (String.eqb _ _); unfold bind, lift, modify;
    repeat match goal with
           | |- context [match ?c with _ => _ end] => destruct c
           end; reflexivity.
Qed.

(** The only operation that takes the sink from DEGRADED back to
    AVAILABLE is the explicit reset. *)
Lemma only_reset_recovers (o : RemoteSink.Op) (w : World) :
  isOtlpAvailable w = false ->
  isOtlpAvailable (RemoteSink.run o w) = true ->
  o = RemoteSink.MarkAvailable.
Proof.
  intros Hdown Hup. destruct o; cbn [RemoteSink.run] in Hup.
  - destruct build; cbn in Hup; congruence.
  - cbn in Hup. congruence.
  - cbn in Hup. congruence.
  - reflexivity.
  - rewrite (keeps_writeLog isOtlpAvailable flag_untouched_by_logging) in Hup.
    congruence.
Qed.

(* ================================================================= *)
(** ** Objects as property lists *)

Lemma get_set k k' v props :
  Js.get k (Js.set k' v props)
  = if String.eqb k k' then v else Js.get k props.
Proof.
  induction props as [|[k0 v0] r IH]; cbn [Js.set Js.get].
  - destruct (String.eqb k k') eqn:E; [reflexivity|].
    reflexivity.
  - destruct (String.eqb k' k0) eqn:E0; cbn [Js.get].
    + apply String.eqb_eq in E0. subst k0.
      destruct (String.eqb k k'); reflexivity.
    + destruct (String.eqb k k0) eqn:E1.
      * apply String.eqb_eq in E1. subst k0.
        rewrite String.eqb_sym in E0. now rewrite E0.
      * exact IH.
Qed.

Lemma has_set k k' v props :
  Js.has k (Js.set k' v props) = String.eqb k k' || Js.has k props.
Proof.
  induction props as [|[k0 v0] r IH]; cbn [Js.set Js.has].
  - reflexivity.
  - destruct (String.eqb k' k0) eqn:E0; cbn [Js.has].
    + apply String.eqb_eq in E0. subst k0.
      destruct (String.eqb k k'); reflexivity.
    + rewrite IH. destruct (String.eqb k k0), (String.eqb k k'); reflexivity.
Qed.

(* ================================================================= *)
(** ** The wrapped publish *)

Section PublishProperties.
Import RabbitMQPublishInterceptor.
Variable startSpan : string -> SpanKind -> World -> SpanContext.
Variable propagator : SpanContext -> list (string * string).
Variable originalPublish : PublishCall -> Completion bool.

Lemma get_inject span k headers :
  Js.get k (inject propagator span headers)
  = match written k (propagator span) with
    | Some v => JStr v
    | None => Js.get k headers
    end.
Proof.
  unfold inject. generalize (propagator span) as fields. intros fields.
  revert headers.
  induction fields as [|[k' v] r IH]; intros headers; cbn [fold_left written].
  - reflexivity.
  - rewrite IH. cbn [fst snd]. destruct (written k r); [reflexivity|].
    rewrite get_set. now destruct (String.eqb k k').
Qed.

Lemma has_inject span k headers :
  Js.has k (inject propagator span headers)
  = Js.has k headers
    || match written k (propagator span) with Some _ => true | None => false end.
Proof.
  unfold inject. generalize (propagator span) as fields. intros fields.
  revert headers.
  induction fields as [|[k' v] r IH]; intros headers; cbn [fold_left written].
  - now rewrite orb_false_r.
  - rewrite IH. cbn [fst snd]. rewrite has_set.
    destruct (written k r), (String.eqb k k'), (Js.has k headers); reflexivity.
Qed.

(** The one call the wrapper makes on the original. *)
Lemma publish_calls_original exchange routingKey message options w :
  publishLog (snd (publish startSpan propagator originalPublish
                           exchange routingKey message options w))
  = (publishLog w
     ++ [ mkPublishCall exchange routingKey message
            (Js.set "headers"
               (JObj (inject propagator
                        (startSpan (exchange ++ " publish") PRODUCER w)
                        (Js.entries (Js.orElse (option_headers options) (JObj [])))))
               (StructuredLogger.spread options)) ])%list.
Proof.
  unfold publish, tryFinally, tryCatch, bind, call_original, lift, modify, ret,
    throw, Tracing.tracer_startSpan, Tracing.recordFailure, Tracing.span_do.
  cbn [fst snd publishLog log_span log_publish].
  destruct (originalPublish _) as [result|error]; cbn.
  - reflexivity.
  - destruct (Js.instanceofError error); reflexivity.
Qed.

End PublishProperties.

(** C4. The wrapped publish calls the original exactly once, with the
    same exchange, routing key and message.  The options it passes hold a
    [headers] map in which every field the propagator writes for the
    producer span started for this publish is present with the value
    written (a [traceparent] in particular).  When the caller passed
    options, every other option is passed on as it is, and when those
    options carry headers, every header key the caller supplied is still
    present, with the caller's value unless the propagator wrote that
    key.  When the caller passed no options, or options without headers,
    the map holds the propagator's fields and nothing else. *)
Theorem publish_forwards_with_propagation_headers :
  forall (startSpan : string -> SpanKind -> World -> SpanContext)
         (propagator : SpanContext -> list (string * string))
         (originalPublish : PublishCall -> Completion bool)
         (exchange routingKey : string) (message : JValue)
         (options : option (list (string * JValue))) (w : World),
    let span := startSpan (exchange ++ " publish") PRODUCER w in
    let w' := snd (RabbitMQPublishInterceptor.publish
                     startSpan propagator originalPublish
                     exchange routingKey message options w) in
    let propagated (k : string) : bool :=
      match RabbitMQPublishInterceptor.written k (propagator span) with
      | Some _ => true
      | None => false
      end in
    exists headers outgoing,
      publishLog w'
      = (publishLog w ++ [mkPublishCall exchange routingKey message outgoing])%list
      /\ Js.get "headers" outgoing = JObj headers
      /\ (forall k v, RabbitMQPublishInterceptor.written k (propagator span) = Some v ->
                      Js.has k headers = true /\ Js.get k headers = JStr v)
      /\ (forall o,
            options = Some o ->
            (forall k, String.eqb k "headers" = false ->
                       Js.get k outgoing = Js.get k o)
            /\ (Js.truthy (Js.get "headers" o) = true ->
                let supplied := Js.entries (Js.get "headers" o) in
                forall k,
                  (Js.has k supplied = true -> Js.has k headers = true)
                  /\ (propagated k = false ->
                      Js.has k headers = Js.has k supplied
                      /\ Js.get k headers = Js.get k supplied))
            /\ (Js.truthy (Js.get "headers" o) = false ->
                forall k, Js.has k headers = propagated k))
      /\ (options = None ->
          (forall k, Js.has k headers = propagated k)
          /\ (forall k, String.eqb k "headers" = false ->
                        Js.has k outgoing = false)).
Proof.
  intros startSpan propagator originalPublish exchange routingKey message
         options w span w' propagated.
  subst w'. eexists. eexists.
  split; [apply publish_calls_original|]. fold span.
  split; [now rewrite get_set|].
  split; [|split].
  - intros k v Hk. rewrite has_inject, get_inject, Hk.
    split; [apply orb_true_r | reflexivity].
  - intros o ->.
    cbn [RabbitMQPublishInterceptor.option_headers StructuredLogger.spread].
    split; [|split].
    + intros k Hk. now rewrite get_set, Hk.
    + intros Htruthy. cbv zeta. intros k. subst propagated.
      unfold Js.orElse. rewrite Htruthy, has_inject, get_inject. cbn beta.
      split.
      * now intros ->.
      * destruct (RabbitMQPublishInterceptor.written k (propagator span));
          [discriminate|]. intros _. now rewrite orb_false_r.
    + intros Hfalsy k. subst propagated.
      unfold Js.orElse. rewrite Hfalsy, has_inject. reflexivity.
  - intros ->.
    cbn [RabbitMQPublishInterceptor.option_headers StructuredLogger.spread].
    split.
    + intros k. subst propagated. rewrite has_inject. reflexivity.
    + intros k Hk. now rewrite has_set, Hk.
Qed.

Lemma publish_headers_witness :
  (exists outgoing,
      publishLog
        (snd (PublishScenario.run PublishScenario.accepting
                (Some [ ("persistent", JBool true);
                        ("headers", JObj [("x-tenant", JStr "acme")]) ])))
      = [mkPublishCall "orders" "order.created" PublishScenario.order_created outgoing]
      /\ Js.get "persistent" outgoing = JBool true
      /\ Js.getProp (Js.get "headers" outgoing) "x-tenant" = JStr "acme"
      /\ Js.getProp (Js.get "headers" outgoing) "traceparent"
         = JStr "00-4bf92f3577b34da6a3ce929d0e0e4736-00f067aa0ba902b7-01")
  /\ (exists outgoing,
         publishLog (snd (PublishScenario.run PublishScenario.accepting None))
         = [mkPublishCall "orders" "order.created" PublishScenario.order_created
              outgoing]
         /\ Js.getProp (Js.get "headers" outgoing) "traceparent"
            = JStr "00-4bf92f3577b34da6a3ce929d0e0e4736-00f067aa0ba902b7-01").
Proof.
  split.
  - destruct (publish_forwards_with_propagation_headers
                PublishScenario.startSpan RabbitMQPublishInterceptor.w3c_propagator
                PublishScenario.accepting "orders" "order.created"
                PublishScenario.order_created
                (Some [ ("persistent", JBool true);
                        ("headers", JObj [("x-tenant", JStr "acme")]) ])
                PublishScenario.idle)
      as [headers [outgoing [Hlog [Hheaders [Hwritten [Hsome _]]]]]].
    destruct (Hsome _ eq_refl) as [Hother [Hsupplied _]].
    exists outgoing. split; [exact Hlog|]. split; [|split].
    + exact (Hother "persistent" eq_refl).
    + rewrite Hheaders. cbn [Js.getProp].
      exact (proj2 (proj2 (Hsupplied eq_refl "x-tenant") eq_refl)).
    + rewrite Hheaders. cbn [Js.getProp].
      exact (proj2 (Hwritten "traceparent"
                      "00-4bf92f3577b34da6a3ce929d0e0e4736-00f067aa0ba902b7-01"
                      eq_refl)).
  - destruct (publish_forwards_with_propagation_headers
                PublishScenario.startSpan RabbitMQPublishInterceptor.w3c_propagator
                PublishScenario.accepting "orders" "order.created"
                PublishScenario.order_created None PublishScenario.idle)
      as [headers [outgoing [Hlog [Hheaders [Hwritten _]]]]].
    exists outgoing. split; [exact Hlog|].
    rewrite Hheaders. cbn [Js.getProp].
    exact (proj2 (Hwritten "traceparent"
                    "00-4bf92f3577b34da6a3ce929d0e0e4736-00f067aa0ba902b7-01"
                    eq_refl)).
Defined.

(* ================================================================= *)
(** ** Failures pass through unchanged *)

Lemma recordFailure_runs span error w :
  fst (Tracing.recordFailure span error w) = Normal tt
  /\ spanLog (snd (Tracing.recordFailure span error w))
     = (spanLog w ++ Tracing.failure_events span error)%list
  /\ metricLog (snd (Tracing.recordFailure span error w)) = metricLog w.
Proof.
  unfold Tracing.recordFailure, Tracing.failure_events, Tracing.span_do,
    bind, modify.
  destruct (Js.instanceofError error); cbn; repeat split;
    now rewrite <- ?app_assoc.
Qed.

Lemma tap_values_total (f : JValue -> M unit) :
  (forall v w, fst (f v w) = Normal tt) ->
  forall vs t w, fst (Rx.tap_values f vs t w) = Rx.mkObservable vs t.
Proof.
  intros Htotal vs t. induction vs as [|v r IH]; intros w; cbn [Rx.tap_values].
  - reflexivity.
  - specialize (Htotal v w). destruct (f v w) as [[u|e] w1]; cbn in Htotal.
    + specialize (IH w1). destruct (Rx.tap_values f r t w1) as [o w2].
      cbn in *. now rewrite IH.
    + discriminate.
Qed.

Section ErrorInterceptorProperties.
Import ObservabilityErrorInterceptor.
Variable logger : StructuredLogger.Service.
Variable activeSpan : option SpanContext.
Variable sensitiveFields : list string.
Variable maxBodySize : Z.

Lemma keeps_metricLog_recordSpanError error :
  keeps metricLog (recordSpanError activeSpan error).
Proof.
  unfold recordSpanError. destruct activeSpan as [span|]; [|apply keeps_ret].
  repeat (apply keeps_bind; [apply keeps_modify; reflexivity | intros ?]).
  apply keeps_bind.
  - destruct (ErrorClassifier.isAxiosError error); [|apply keeps_ret].
    apply keeps_bind; [apply keeps_modify; reflexivity | intros ?].
    apply keeps_bind; [apply keeps_lift | intros ?].
    apply keeps_modify; reflexivity.
  - intros ?. apply keeps_when. apply keeps_modify; reflexivity.
Qed.

(** A run of [handleError] that returns has recorded the error metric
    with the kind [classifyError] gives. *)
Lemma handleError_records_metric amb error ctx w w' :
  handleError logger activeSpan sensitiveFields maxBodySize
              amb error ctx w = (Normal tt, w') ->
  exists code,
    metricLog w'
    = (metricLog w
       ++ [ mkMetricEvent errorsTotal (Add 1)
              [ ("error_type",
                 ErrorType_value (ErrorClassifier.classifyError error));
                ("context",
                 MetricsService.error_context_name (metricsContext (getType ctx)));
                ("error_code", code) ] ])%list.
Proof.
  unfold handleError, bind at 1, lift.
  destruct (extractContextInfo ctx) as [contextInfo|x]; [|discriminate].
  unfold bind at 1.
  destruct (extractErrorInfo sensitiveFields maxBodySize error)
    as [errorInfo|x]; [|discriminate].
  unfold bind at 1.
  pose proof (keeps_metricLog_recordSpanError error w) as Hspan.
  destruct (recordSpanError activeSpan error w) as [[u|x] w1]; [|discriminate].
  cbn [snd] in Hspan. unfold bind at 1.
  unfold recordErrorMetric, MetricsService.recordError, MetricsService.add,
    modify at 1.
  intros Hlog. eexists.
  unfold StructuredLogger.error in Hlog.
  match type of Hlog with
  | StructuredLogger.writeLog _ _ _ ?msg ?meta ?w2 = _ =>
      pose proof (keeps_writeLog metricLog metricLog_untouched_by_logging
                    logger amb LError msg meta w2) as Hkeep
  end.
  rewrite Hlog in Hkeep.
  cbn [snd] in Hkeep. rewrite Hkeep. cbn [metricLog log_metric].
  rewrite Hspan. reflexivity.
Qed.

Lemma intercept_rethrows amb ctx next error w w' :
  Rx.terminal next = Rx.Errors error ->
  handleError logger activeSpan sensitiveFields maxBodySize
              amb error ctx w = (Normal tt, w') ->
  intercept logger activeSpan sensitiveFields maxBodySize
            amb ctx next w
  = (Rx.mkObservable (Rx.values next) (Rx.Errors error), w').
Proof.
  intros Hterm Hrun. unfold intercept, Rx.catchError. rewrite Hterm.
  unfold bind. rewrite Hrun. cbn. now rewrite app_nil_r.
Qed.

End ErrorInterceptorProperties.

Section PublishFailure.
Import RabbitMQPublishInterceptor.
Variable startSpan : string -> SpanKind -> World -> SpanContext.
Variable propagator : SpanContext -> list (string * string).
Variable originalPublish : PublishCall -> Completion bool.

Lemma publish_rejected exchange routingKey message options w error :
  let span := startSpan (exchange ++ " publish") PRODUCER w in
  let call := outgoing propagator span exchange routingKey message options in
  originalPublish call = Throw error ->
  publish startSpan propagator originalPublish
          exchange routingKey message options w
  = (Throw error,
     log_span (mkSpanEvent span SpanEnd)
       (snd (Tracing.recordFailure span error
               (log_publish call
                  (log_span
                     (mkSpanEvent span (SpanStart (exchange ++ " publish") PRODUCER))
                     w))))).
Proof.
  intros span call Hreject. subst call. unfold outgoing in *. subst span.
  unfold publish, tryFinally, tryCatch, call_original, Tracing.tracer_startSpan,
    bind, modify, lift, throw, Tracing.span_do.
  cbn beta iota. rewrite Hreject.
  match goal with
  | |- context [Tracing.recordFailure ?sp error ?w1] =>
      destruct (recordFailure_runs sp error w1) as [Hok _];
      destruct (Tracing.recordFailure sp error w1) as [r w2]
  end.
  cbn [fst snd] in *. subst r. reflexivity.
Qed.

Lemma publish_rethrows exchange routingKey message options w error :
  let span := startSpan (exchange ++ " publish") PRODUCER w in
  originalPublish (outgoing propagator span exchange routingKey message options)
  = Throw error ->
  fst (publish startSpan propagator originalPublish
               exchange routingKey message options w) = Throw error
  /\ spanLog (snd (publish startSpan propagator originalPublish
                           exchange routingKey message options w))
     = (spanLog w
        ++ [mkSpanEvent span (SpanStart (exchange ++ " publish") PRODUCER)]
        ++ Tracing.failure_events span error
        ++ [mkSpanEvent span SpanEnd])%list.
Proof.
  intros span Hreject.
  rewrite (publish_rejected exchange routingKey message options w error Hreject).
  cbn [fst snd]. split; [reflexivity|]. fold span.
  match goal with
  | |- context [Tracing.recordFailure span error ?w1] =>
      destruct (recordFailure_runs span error w1) as [_ [Hspans _]]
  end.
  cbn [spanLog log_span]. rewrite Hspans. cbn [spanLog log_span log_publish].
  now rewrite <- !app_assoc.
Qed.

End PublishFailure.

Section WebSocketFailure.
Import WebSocketTraceInterceptor.
Variable startSpan : string -> SpanKind -> World -> SpanContext.
Variable dateNow : World -> Z.

Lemma onSuccess_total span name startTime v w :
  fst (onSuccess dateNow span name startTime v w) = Normal tt.
Proof.
  unfold onSuccess, endSpanSuccess, elapsed, MetricsService.recordWsEvent,
    MetricsService.add, MetricsService.record, Tracing.span_do, when_,
    bind, modify, gets, ret.
  destruct (_ && _); reflexivity.
Qed.

Lemma ws_intercept_rethrows ctx next error w :
  getType ctx = "ws" ->
  Rx.terminal next = Rx.Errors error ->
  let span := event_span startSpan ctx w in
  let result := intercept startSpan dateNow ctx next w in
  fst result = Rx.mkObservable (Rx.values next) (Rx.Errors error)
  /\ exists earlier,
       spanLog (snd result)
       = (earlier ++ Tracing.failure_events span error
          ++ [mkSpanEvent span SpanEnd])%list.
Proof.
  intros Hws Hterm span result. subst result.
  unfold intercept. rewrite Hws. cbn [String.eqb Ascii.eqb Bool.eqb negb].
  fold span. unfold Rx.tap.
  match goal with
  | |- context [Rx.tap_values ?f ?vs ?t ?w1] =>
      pose proof (tap_values_total f
                    (onSuccess_total span (handlerName ctx) (dateNow w1))
                    vs t w1) as Htap;
      destruct (Rx.tap_values f vs t w1) as [tapped w2]
  end.
  cbn [fst] in Htap. subst tapped. rewrite Hterm.
  unfold Rx.catchError. cbn [Rx.terminal Rx.values].
  unfold onError, Tracing.endSpanError, Tracing.span_do, elapsed,
    MetricsService.recordWsEvent, MetricsService.add, MetricsService.record,
    when_, bind, modify, gets, ret, throw.
  destruct (recordFailure_runs span error w2) as [Hok [Hspans _]].
  destruct (Tracing.recordFailure span error w2) as [r w3].
  cbn [fst snd] in Hok, Hspans. subst r.
  cbn. split; [reflexivity|].
  exists (spanLog w2). rewrite Hspans. now rewrite <- app_assoc.
Qed.

End WebSocketFailure.

(** A failure goes through each hook unchanged while the hook's own
    observation returns.
    - Error interceptor: when the handler's stream ends with the error
      [error] and the observation ([handleError]: classify, annotate the
      active span, record the error metric, log) returns, the stream the
      interceptor hands on carries the handler's values and ends with
      that same [error]; the error metric was recorded with the kind
      [classifyError] gives.
    - Wrapped publish: when the original publish rejects with [error],
      the wrapper rejects with that same [error], after recording the
      failure on the producer span, and the last thing it does is end
      the span.
    - Socket trace interceptor: when the handler's stream ends with
      [error], the stream handed on ends with that same [error], and the
      span log ends with the failure recorded on the event's span and
      the end of that span. *)
Theorem failures_are_rethrown_unchanged :
  (forall (logger : StructuredLogger.Service) (activeSpan : option SpanContext)
          (sensitiveFields : list string) (maxBodySize : Z)
          (amb : StructuredLogger.Ambient) (ctx : ExecutionContext)
          (next : Rx.Observable) (error : JValue) (w w' : World),
      Rx.terminal next = Rx.Errors error ->
      ObservabilityErrorInterceptor.handleError
        logger activeSpan sensitiveFields maxBodySize amb error ctx w
      = (Normal tt, w') ->
      ObservabilityErrorInterceptor.intercept
        logger activeSpan sensitiveFields maxBodySize amb ctx next w
      = (Rx.mkObservable (Rx.values next) (Rx.Errors error), w')
      /\ exists code,
           metricLog w'
           = (metricLog w
              ++ [ mkMetricEvent errorsTotal (Add 1)
                     [ ("error_type",
                        ErrorType_value (ErrorClassifier.classifyError error));
                       ("context",
                        MetricsService.error_context_name
                          (ObservabilityErrorInterceptor.metricsContext (getType ctx)));
                       ("error_code", code) ] ])%list)
  /\ (forall (startSpan : string -> SpanKind -> World -> SpanContext)
             (propagator : SpanContext -> list (string * string))
             (originalPublish : PublishCall -> Completion bool)
             (exchange routingKey : string) (message : JValue)
             (options : option (list (string * JValue))) (w : World)
             (error : JValue),
         let span := startSpan (exchange ++ " publish") PRODUCER w in
         let result :=
           RabbitMQPublishInterceptor.publish
             startSpan propagator originalPublish
             exchange routingKey message options w in
         originalPublish
           (RabbitMQPublishInterceptor.outgoing
              propagator span exchange routingKey message options)
         = Throw error ->
         fst result = Throw error
         /\ spanLog (snd result)
            = (spanLog w
               ++ [mkSpanEvent span (SpanStart (exchange ++ " publish") PRODUCER)]
               ++ Tracing.failure_events span error
               ++ [mkSpanEvent span SpanEnd])%list)
  /\ (forall (startSpan : string -> SpanKind -> World -> SpanContext)
             (dateNow : World -> Z) (ctx : ExecutionContext)
             (next : Rx.Observable) (error : JValue) (w : World),
         let span := WebSocketTraceInterceptor.event_span startSpan ctx w in
         let result :=
           WebSocketTraceInterceptor.intercept startSpan dateNow ctx next w in
         getType ctx = "ws" ->
         Rx.terminal next = Rx.Errors error ->
         fst result = Rx.mkObservable (Rx.values next) (Rx.Errors error)
         /\ exists earlier,
              spanLog (snd result)
              = (earlier ++ Tracing.failure_events span error
                 ++ [mkSpanEvent span SpanEnd])%list).
Proof.
  split; [|split].
  - intros * Hterm Hrun. split.
    + now apply intercept_rethrows.
    + eapply handleError_records_metric. exact Hrun.
  - intros * Hreject. now apply publish_rethrows.
  - intros * Hws Hterm. now apply ws_intercept_rethrows.
Qed.

Lemma failures_are_rethrown_example :
  fst InterceptScenario.run_error_interceptor
  = Rx.mkObservable [] (Rx.Errors InterceptScenario.boom)
  /\ fst (PublishScenario.run PublishScenario.rejecting None)
     = Throw PublishScenario.broker_down
  /\ fst InterceptScenario.run_ws_interceptor
     = Rx.mkObservable [] (Rx.Errors InterceptScenario.boom).
Proof.
  destruct failures_are_rethrown_unchanged as [Herr [Hpub Hws]].
  split; [|split].
  - unfold InterceptScenario.run_error_interceptor.
    destruct (Herr InterceptScenario.logger (Some InterceptScenario.request_span)
                Constants.DEFAULT_SENSITIVE_FIELDS Constants.DEFAULT_MAX_BODY_LOG_SIZE
                Scenarios.ambient InterceptScenario.rpc_context
                InterceptScenario.failing_handler InterceptScenario.boom
                PublishScenario.idle
                (snd (ObservabilityErrorInterceptor.handleError
                        InterceptScenario.logger (Some InterceptScenario.request_span)
                        Constants.DEFAULT_SENSITIVE_FIELDS
                        Constants.DEFAULT_MAX_BODY_LOG_SIZE Scenarios.ambient
                        InterceptScenario.boom InterceptScenario.rpc_context
                        PublishScenario.idle)))
      as [Hsame _].
    + reflexivity.
    + vm_compute. reflexivity.
    + rewrite Hsame. reflexivity.
  - apply (Hpub PublishScenario.startSpan RabbitMQPublishInterceptor.w3c_propagator
             PublishScenario.rejecting "orders" "order.created"
             PublishScenario.order_created None PublishScenario.idle
             PublishScenario.broker_down).
    reflexivity.
  - apply (Hws PublishScenario.startSpan InterceptScenario.clock
             InterceptScenario.ws_context InterceptScenario.failing_handler
             InterceptScenario.boom PublishScenario.idle); reflexivity.
Qed.

(** C9, at an input where the code departs from it.  The handler of
    [GET /orders/7] fails with a [NotFoundException]; the request's user
    has a [BigInt] id, which [extractHttpContext] puts in the log
    metadata; [writeToConsole] calls [JSON.stringify] on it outside any
    [try], the [TypeError] leaves [handleError], and the stream the
    interceptor hands on ends with that [TypeError] instead of the
    original exception. *)
Theorem interceptor_replaces_error_when_logging_throws :
  Rx.terminal (fst InterceptScenario.run_http_interceptor)
  = Rx.Errors (TypeError "Do not know how to serialize a BigInt")
  /\ TypeError "Do not know how to serialize a BigInt" <> InterceptScenario.not_found.
Proof.
  split.
  - vm_compute. reflexivity.
  - discriminate.
Qed.

(* ================================================================= *)
(** ** Serialisation *)

Lemma Contains_refl s : Contains s s.
Proof. exists "", "". cbn. now rewrite string_app_nil_r. Qed.

Lemma Contains_app_l a s t : Contains s t -> Contains (a ++ s) t.
Proof.
  intros [x [y ->]]. exists (a ++ x), y. now rewrite string_app_assoc.
Qed.

Lemma Contains_app_r b s t : Contains s t -> Contains (s ++ b) t.
Proof.
  intros [x [y ->]]. exists x, (y ++ b). now rewrite !string_app_assoc.
Qed.

Lemma Contains_cons c s t : Contains s t -> Contains (String c s) t.
Proof. apply (Contains_app_l (String c "")). Qed.

Lemma join_contains sep parts p :
  In p parts -> Contains (Js.join sep parts) p.
Proof.
  induction parts as [|x r IH]; intros Hin; [destruct Hin|].
  destruct Hin as [-> | Hin].
  - destruct r as [|y r]; cbn [Js.join].
    + apply Contains_refl.
    + apply Contains_app_r, Contains_refl.
  - specialize (IH Hin). destruct r as [|y r]; [destruct Hin|].
    change (Js.join sep (x :: y :: r)) with (x ++ sep ++ Js.join sep (y :: r)).
    now apply Contains_app_l, Contains_app_l.
Qed.

Lemma serialize_object props :
  JSON.serialize (JObj props)
  = (parts <- JSON.serialize_props props ;;
     Normal (Some ("{" ++ Js.join "," parts ++ "}"))).
Proof. reflexivity. Qed.

Lemma serialize_error name message stack props :
  JSON.serialize (JError name message stack props)
  = (parts <- JSON.serialize_props props ;;
     Normal (Some ("{" ++ Js.join "," parts ++ "}"))).
Proof. reflexivity. Qed.

Lemma serialize_array items :
  JSON.serialize (JArr items)
  = (parts <- JSON.serialize_items items ;;
     Normal (Some ("[" ++ Js.join "," parts ++ "]"))).
Proof. reflexivity. Qed.

Lemma serialize_total v :
  JSON.serializable v = true -> exists r, JSON.serialize v = Normal r.
Proof.
  assert (Hprops : forall props,
    Forall (fun kv : string * JValue =>
              JSON.serializable (snd kv) = true ->
              exists r, JSON.serialize (snd kv) = Normal r) props ->
    forallb (fun kv => JSON.serializable (snd kv)) props = true ->
    exists parts, JSON.serialize_props props = Normal parts).
  { induction 1 as [|kv r Hkv _ IH]; intros Hall; cbn [JSON.serialize_props].
    - now eexists.
    - cbn [forallb] in Hall. apply andb_true_iff in Hall as [H1 H2].
      destruct (Hkv H1) as [s ->]. destruct (IH H2) as [rest ->].
      cbn. now eexists. }
  induction v using JValue_ind; intros Hs; try discriminate Hs;
    try (destruct b; eexists; reflexivity); try (eexists; reflexivity).
  - rewrite serialize_array. cbn [JSON.serializable] in Hs.
    assert (exists parts, JSON.serialize_items items = Normal parts) as [parts ->].
    { induction H as [|x r Hx _ IH]; cbn [JSON.serialize_items].
      - now eexists.
      - cbn [forallb] in Hs. apply andb_true_iff in Hs as [H1 H2].
        destruct (Hx H1) as [s ->]. destruct (IH H2) as [rest ->].
        cbn. now eexists. }
    cbn. now eexists.
  - rewrite serialize_object. destruct (Hprops props H Hs) as [parts ->].
    cbn. now eexists.
  - rewrite serialize_error. destruct (Hprops props H Hs) as [parts ->].
    cbn. now eexists.
Qed.

Lemma serialize_props_parts props :
  forallb (fun kv => JSON.serializable (snd kv)) props = true ->
  exists parts,
    JSON.serialize_props props = Normal parts
    /\ forall k s, In (k, JStr s) props ->
                   In (JSON.quote k ++ ":" ++ JSON.quote s) parts.
Proof.
  induction props as [|[k v] r IH]; intros Hall; cbn [JSON.serialize_props].
  - eexists. split; [reflexivity | intros k s []].
  - cbn [forallb snd fst] in *. apply andb_true_iff in Hall as [H1 H2].
    destruct (serialize_total v H1) as [sv Hv]. rewrite Hv.
    destruct (IH H2) as [rest [-> Hrest]]. cbn. eexists. split; [reflexivity|].
    intros k' s [E | Hin].
    + injection E as -> ->. cbn in Hv. injection Hv as <-. now left.
    + specialize (Hrest k' s Hin). destruct sv; [now right | exact Hrest].
Qed.

Lemma stringify_object props :
  forallb (fun kv => JSON.serializable (snd kv)) props = true ->
  exists text,
    JSON.stringify (JObj props) = Normal (Some text)
    /\ forall k s, In (k, JStr s) props -> Contains text (JSON.quote s).
Proof.
  intros Hall. unfold JSON.stringify. rewrite serialize_object.
  destruct (serialize_props_parts props Hall) as [parts [-> Hparts]].
  cbn. eexists. split; [reflexivity|].
  intros k s Hin. apply Contains_cons, Contains_app_r.
  eapply join_contains in Hparts; [|exact Hin]. 
  destruct Hparts as [a [b ->]].
  exists (a ++ JSON.quote k ++ ":"), b.
  now rewrite !string_app_assoc.
Qed.

Lemma forallb_mapi {A B} (p : B -> bool) (f : nat -> A -> B) (l : list A) :
  (forall i x, In x l -> p (f i x) = true) ->
  forall i, forallb p (Js.mapi f i l) = true.
Proof.
  induction l as [|x r IH]; intros H i; cbn [Js.mapi forallb].
  - reflexivity.
  - rewrite H by now left. cbn. apply IH. intros j y Hy. apply H. now right.
Qed.

Lemma maskSensitiveData_array fields items :
  Masking.maskSensitiveData fields (JArr items)
  = JObj (Js.mapi (fun i item =>
                     (string_of_nat i,
                      Masking.maskProperty fields (string_of_nat i) item))
                  0 items).
Proof. reflexivity. Qed.

Lemma forallb_map_filter {A B} (q : B -> bool) (f : A -> B) (p : A -> bool) l :
  forallb q (map f l) = true -> forallb q (map f (filter p l)) = true.
Proof.
  intros H. apply forallb_forall. intros y Hy.
  apply in_map_iff in Hy as [x [<- Hx]]. apply filter_In in Hx as [Hx _].
  rewrite forallb_forall in H. apply H. now apply in_map.
Qed.

(** Masking adds no [BigInt]. *)
Lemma masking_serializable fields v :
  JSON.serializable v = true ->
  (forall k, JSON.serializable (Masking.maskProperty fields k v) = true)
  /\ JSON.serializable (Masking.maskItem fields v) = true
  /\ JSON.serializable (Masking.maskSensitiveData fields v) = true.
Proof.
  assert (Hprops : forall props,
    Forall (fun kv : string * JValue =>
      JSON.serializable (snd kv) = true ->
      (forall k, JSON.serializable (Masking.maskProperty fields k (snd kv)) = true)
      /\ JSON.serializable (Masking.maskItem fields (snd kv)) = true
      /\ JSON.serializable (Masking.maskSensitiveData fields (snd kv)) = true) props ->
    forallb (fun kv => JSON.serializable (snd kv)) props = true ->
    forallb (fun kv => JSON.serializable (snd kv))
      (map (fun kv => (fst kv, Masking.maskProperty fields (fst kv) (snd kv))) props)
    = true).
  { induction 1 as [|kv r Hkv _ IH]; intros Hall; [reflexivity|].
    cbn [forallb map snd fst] in *. apply andb_true_iff in Hall as [H1 H2].
    destruct (Hkv H1) as [Hp _]. rewrite Hp. now apply IH. }
  induction v using JValue_ind; intros Hs;
    try (repeat split; intros; unfold Masking.maskProperty;
         try destruct (Masking.isSensitive fields _); reflexivity);
    try discriminate Hs.
  - (* arrays *)
    cbn [JSON.serializable] in Hs.
    assert (Hitems : forall x, In x items ->
              (forall k, JSON.serializable (Masking.maskProperty fields k x) = true)
              /\ JSON.serializable (Masking.maskItem fields x) = true).
    { intros x Hx. rewrite Forall_forall in H. rewrite forallb_forall in Hs.
      destruct (H x Hx (Hs x Hx)) as [Hp [Hi _]]. now split. }
    assert (Harr : JSON.serializable (Masking.maskSensitiveData fields (JArr items)) = true).
    { rewrite maskSensitiveData_array. cbn [JSON.serializable].
      apply forallb_mapi. intros i x Hx. cbn [snd]. now apply Hitems. }
    repeat split; [|exact Harr|exact Harr].
    intros k. unfold Masking.maskProperty.
    destruct (Masking.isSensitive fields k); [reflexivity|].
    cbn [JSON.serializable]. apply forallb_forall. intros y Hy.
    apply in_map_iff in Hy as [x [<- Hx]]. now apply Hitems.
  - (* objects *)
    cbn [JSON.serializable] in Hs.
    assert (Hobj : JSON.serializable (Masking.maskSensitiveData fields (JObj props)) = true).
    { rewrite maskSensitiveData_object. cbn [JSON.serializable].
      apply forallb_map_filter. now apply Hprops. }
    repeat split; [|exact Hobj|exact Hobj].
    intros k. unfold Masking.maskProperty.
    destruct (Masking.isSensitive fields k); [reflexivity | exact Hobj].
  - (* Error instances *)
    cbn [JSON.serializable] in Hs.
    assert (Hobj : JSON.serializable
                     (Masking.maskSensitiveData fields (JError name message stack props))
                   = true).
    { rewrite maskSensitiveData_error. cbn [JSON.serializable].
      apply forallb_map_filter. now apply Hprops. }
    repeat split; [|exact Hobj|exact Hobj].
    intros k. unfold Masking.maskProperty.
    destruct (Masking.isSensitive fields k); [reflexivity | exact Hobj].
Qed.

Lemma forallb_set (p : JValue -> bool) k v props :
  p v = true ->
  forallb (fun kv => p (snd kv)) props = true ->
  forallb (fun kv => p (snd kv)) (Js.set k v props) = true.
Proof.
  intros Hv. induction props as [|[k0 v0] r IH]; intros Hall; cbn [Js.set].
  - cbn. now rewrite Hv.
  - cbn [forallb snd] in Hall. apply andb_true_iff in Hall as [H1 H2].
    destruct (String.eqb k k0); cbn [forallb snd].
    + now rewrite Hv, H2.
    + now rewrite H1, IH.
Qed.

Lemma forallb_assign (p : JValue -> bool) source target :
  forallb (fun kv => p (snd kv)) source = true ->
  forallb (fun kv => p (snd kv)) target = true ->
  forallb (fun kv => p (snd kv)) (Js.assign target source) = true.
Proof.
  unfold Js.assign. revert target.
  induction source as [|[k v] r IH]; intros target Hs Ht; cbn [fold_left].
  - exact Ht.
  - cbn [forallb snd fst] in *. apply andb_true_iff in Hs as [H1 H2].
    apply IH; [exact H2|]. now apply forallb_set.
Qed.

Lemma get_assign_other k source target :
  existsb (String.eqb k) (map fst source) = false ->
  Js.get k (Js.assign target source) = Js.get k target.
Proof.
  unfold Js.assign. revert target.
  induction source as [|[k0 v0] r IH]; intros target Hk; cbn [fold_left].
  - reflexivity.
  - cbn [map existsb fst] in Hk. apply orb_false_iff in Hk as [H1 H2].
    rewrite IH by exact H2. cbn [fst snd]. rewrite get_set. now rewrite H1.
Qed.

Lemma get_In k props s :
  Js.get k props = JStr s -> In (k, JStr s) props.
Proof.
  induction props as [|[k0 v0] r IH]; cbn [Js.get]; [discriminate|].
  destruct (String.eqb k k0) eqn:E.
  - apply String.eqb_eq in E. subst k0. intros ->. now left.
  - intros H. right. now apply IH.
Qed.

(* ================================================================= *)
(** ** The log pipeline *)

Section LogPipelineProperties.
Import StructuredLogger LogPipeline.
Variable this : Service.
Variable amb : Ambient.
Variable level : LogLevel.
Variable message : string.

(** The fields the console format reads, in an entry built without
    metadata. *)
Lemma bare_entry_fields :
  let entry := createLogEntry this amb level message None in
  Js.get "message" entry = JStr message
  /\ Js.get "level" entry = JStr (level_name level)
  /\ (Js.get "trace_id" entry = JUndefined
      \/ exists t, Js.get "trace_id" entry = JStr t)
  /\ forallb (fun kv => JSON.serializable (snd kv)) entry = true.
Proof.
  unfold createLogEntry.
  destruct (activeTraceId amb) as [t|], (activeSpanId amb) as [sp|],
    (context this) as [c|]; cbn [truthy_opt opt_value];
    repeat match goal with
           | |- context [negb (String.eqb ?x "")] =>
               destruct (negb (String.eqb x ""))
           end;
    cbn; repeat split; try (now left); right; now eexists.
Qed.

Lemma createLogEntry_with_meta m :
  createLogEntry this amb level message (Some m)
  = Js.assign (createLogEntry this amb level message None)
      (map (fun kv => (fst kv,
                       Masking.maskProperty (sensitiveFields this) (fst kv) (snd kv)))
           (filter (fun kv => Masking.assignsOwn (fst kv)) m)).
Proof.
  unfold createLogEntry, maskSensitiveData.
  now rewrite maskSensitiveData_object.
Qed.

Lemma reserved_absent m k :
  forallb (fun kv : string * JValue =>
             negb (reserved this (fst kv)) && JSON.serializable (snd kv)) m = true ->
  reserved this k = true ->
  existsb (String.eqb k)
    (map fst (map (fun kv : string * JValue =>
                     (fst kv,
                      Masking.maskProperty (sensitiveFields this) (fst kv) (snd kv)))
                  (filter (fun kv => Masking.assignsOwn (fst kv)) m)))
  = false.
Proof.
  intros Hall Hk. rewrite map_map. cbn [fst].
  induction m as [|[k0 v0] r IH]; [reflexivity|].
  cbn [forallb filter fst snd] in *.
  apply andb_true_iff in Hall as [H1 H2]. apply andb_true_iff in H1 as [H1 _].
  assert (Hother : String.eqb k k0 = false).
  { destruct (String.eqb k k0) eqn:E; [|reflexivity].
    apply String.eqb_eq in E. subst k0. rewrite Hk in H1. discriminate. }
  destruct (Masking.assignsOwn k0); [|now apply IH].
  cbn [map existsb fst]. now rewrite Hother, (IH H2).
Qed.

Lemma createLogEntry_fields meta :
  plain_meta this meta = true ->
  let entry := createLogEntry this amb level message meta in
  Js.get "message" entry = JStr message
  /\ (environment this = "development" ->
      Js.get "level" entry = JStr (level_name level)
      /\ (Js.get "trace_id" entry = JUndefined
          \/ exists t, Js.get "trace_id" entry = JStr t))
  /\ forallb (fun kv => JSON.serializable (snd kv)) entry = true.
Proof.
  destruct bare_entry_fields as [Hm [Hl [Ht Hs]]].
  destruct meta as [m|]; intros Hplain entry; subst entry;
    [|repeat split; assumption].
  cbn [plain_meta] in Hplain. rewrite createLogEntry_with_meta.
  split; [|split].
  { rewrite get_assign_other by (apply reserved_absent; [exact Hplain | reflexivity]).
    exact Hm. }
  { intros Hdev.
    rewrite !get_assign_other
      by (apply reserved_absent;
          [exact Hplain | unfold reserved; rewrite Hdev; reflexivity]).
    now split. }
  apply forallb_assign; [|exact Hs].
  assert (Hser : JSON.serializable (JObj m) = true).
  { cbn [JSON.serializable]. apply forallb_forall. intros kv Hin.
    rewrite forallb_forall in Hplain. specialize (Hplain kv Hin).
    now apply andb_true_iff in Hplain as [_ Hplain]. }
  destruct (masking_serializable (sensitiveFields this) (JObj m) Hser)
    as [_ [_ Hmasked]].
  rewrite maskSensitiveData_object in Hmasked. exact Hmasked.
Qed.

Lemma forallb_omit (p : JValue -> bool) ks props :
  forallb (fun kv => p (snd kv)) props = true ->
  forallb (fun kv => p (snd kv)) (Js.omit ks props) = true.
Proof.
  intros H. apply forallb_forall. intros kv Hin.
  apply filter_In in Hin as [Hin _].
  rewrite forallb_forall in H. now apply H.
Qed.

(** On an entry whose [message] and, in the development format, whose
    [level] and [trace_id] are the ones [createLogEntry] set, and whose
    values serialise, the console write returns and prints one line that
    carries the message. *)
Lemma writeToConsole_line entry w :
  Js.get "message" entry = JStr message ->
  (environment this = "development" ->
   Js.get "level" entry = JStr (level_name level)
   /\ (Js.get "trace_id" entry = JUndefined
       \/ exists t, Js.get "trace_id" entry = JStr t)) ->
  forallb (fun kv => JSON.serializable (snd kv)) entry = true ->
  exists line,
    writeToConsole this level entry w
    = (Normal tt,
       log_console (mkConsoleCall (console_method level) [JStr line]) w)
    /\ carries this line message.
Proof.
  intros Hm Hdev Hs. unfold writeToConsole, carries.
  destruct (String.eqb (environment this) "development") eqn:Henv.
  - apply String.eqb_eq in Henv. destruct (Hdev Henv) as [Hl Ht].
    rewrite Hm, Hl.
    assert (exists traceStr,
               (if Js.truthy (Js.get "trace_id" entry)
                then (t <- Js.callSubstring0 (Js.get "trace_id" entry) 8 ;;
                      Normal (" (trace: " ++ t ++ "...)"))
                else Normal "") = Normal traceStr) as [traceStr ->].
    { destruct Ht as [-> | [t ->]]; [now eexists|].
      destruct (Js.truthy (JStr t)); now eexists. }
    set (rest := Js.omit _ entry).
    assert (exists metaStr,
               (if (0 <? List.length rest)%nat
                then (j <- stringify_value (JObj rest) ;;
                      Normal (" " ++ Js.toString j))
                else Normal "") = Normal metaStr) as [metaStr ->].
    { destruct (0 <? List.length rest)%nat; [|now eexists].
      destruct (stringify_object rest (forallb_omit _ _ _ Hs)) as [text [Htext _]].
      unfold stringify_value. rewrite Htext. cbn. now eexists. }
    unfold bind, lift, modify. cbn [Js.callToUpperCase].
    eexists. split; [reflexivity|].
    cbn [Js.toString].
    do 5 apply Contains_app_l. apply Contains_app_r, Contains_refl.
  - destruct (stringify_object entry Hs) as [text [Htext Hin]].
    unfold stringify_value, bind, lift, modify. rewrite Htext. cbn [bindC].
    eexists. split; [reflexivity|].
    apply (Hin "message"). now apply get_In.
Qed.

Lemma emitOtelLog_returns attributes w :
  exists handled diagnostics,
    fst (OtelLogger.emitOtelLog level message attributes w) = Normal handled
    /\ console (snd (OtelLogger.emitOtelLog level message attributes w))
       = (console w ++ diagnostics)%list
    /\ entry_lines diagnostics = [].
Proof.
  unfold OtelLogger.emitOtelLog.
  destruct (otelLogger w) as [logger|];
    [|exists false, []; cbn; now rewrite app_nil_r].
  destruct (negb (isOtlpAvailable w));
    [exists false, []; cbn; now rewrite app_nil_r|].
  destruct (logger _) as [u|e].
  - exists true, []. cbn. now rewrite app_nil_r.
  - eexists false, [_]. cbn. repeat split; reflexivity.
Qed.

Lemma remote_attempt_console entry w :
  exists diagnostics,
    console (snd (remote_attempt this level message entry w))
    = (console w ++ diagnostics)%list
    /\ entry_lines diagnostics = [].
Proof.
  unfold remote_attempt.
  destruct (_ && _); [|exists []; cbn; now rewrite app_nil_r].
  destruct (emitOtelLog_returns (otlp_attributes entry) w)
    as [handled [diagnostics [H1 [H2 H3]]]].
  destruct (OtelLogger.emitOtelLog _ _ _ w) as [[b|e] w1]; cbn [fst snd] in *;
    [|discriminate].
  now exists diagnostics.
Qed.

(** A log call that passes the level filter is the remote attempt
    followed, when the console is due, by the console write. *)
Lemma writeLog_steps meta w :
  (LOG_LEVEL_PRIORITY (logLevel this) <= LOG_LEVEL_PRIORITY level)%Z ->
  let entry := createLogEntry this amb level message meta in
  let remote := remote_attempt this level message entry w in
  writeLog this amb level message meta w
  = if enableConsoleLogs this || (negb (fst remote) && enableOtlpLogs this)
    then writeToConsole this level entry (snd remote)
    else (Normal tt, snd remote).
Proof.
  intros Hlevel entry remote. subst remote. unfold writeLog, remote_attempt.
  fold entry.
  replace (LOG_LEVEL_PRIORITY level <? LOG_LEVEL_PRIORITY (logLevel this))%Z
    with false by (symmetry; apply Z.ltb_ge; exact Hlevel).
  unfold bind at 1.
  destruct (enableOtlpLogs this); cbn [andb].
  - unfold OtelLogger.isOtelLoggerAvailable, gets.
    set (available := isOtlpAvailable w && _).
    destruct available; unfold bind.
    + destruct (emitOtelLog_returns (otlp_attributes entry) w)
        as [handled [diagnostics [H1 _]]].
      destruct (OtelLogger.emitOtelLog _ _ _ w) as [[b|e] w1];
        cbn [fst snd] in *; [now destruct (_ || _) | discriminate].
    + unfold ret. cbn [fst snd]. now destruct (_ || _).
  - unfold ret, bind. cbn [fst snd]. now destruct (_ || _).
Qed.

End LogPipelineProperties.

Lemma skipn_length_app {A} (l r : list A) : skipn (List.length l) (l ++ r)%list = r.
Proof. induction l as [|x l IH]; [reflexivity | exact IH]. Qed.

Lemma entry_lines_app a b :
  LogPipeline.entry_lines (a ++ b)%list
  = (LogPipeline.entry_lines a ++ LogPipeline.entry_lines b)%list.
Proof. unfold LogPipeline.entry_lines. apply flat_map_app. Qed.




(** Metadata that holds a [BigInt] is outside the statement above:
    [JSON.stringify] in [writeToConsole] is not guarded, so the log call
    itself throws and the fallback line is not written. *)
Example bigint_metadata_loses_the_fallback :
  let this := Scenarios.remote_only "production" in
  let w := Scenarios.started Scenarios.failing_logger in
  let meta := Some [("amount", JBigInt 1999)] in
  LogPipeline.remote_fails this Scenarios.ambient LInfo "payment declined" meta w
  /\ (exists e,
         fst (StructuredLogger.writeLog this Scenarios.ambient LInfo
                "payment declined" meta w) = Throw e)
  /\ LogPipeline.entry_lines
       (LogPipeline.written this Scenarios.ambient LInfo "payment declined" meta w)
     = [].
Proof.
  cbv zeta. unfold LogPipeline.remote_fails.
  repeat split; try reflexivity; try (cbn; lia).
  eexists. vm_compute. reflexivity.
Qed.

(* ================================================================= *)
(** ** Reading back what [stringify] wrote *)

Section ParseStringify.
Import JSON.

Lemma parse_escaped_char c tail :
  parse_string_body (escape_char c ++ tail)
  = cons_result c (parse_string_body tail).
Proof.
  destruct c as [[] [] [] [] [] [] [] []]; reflexivity.
Qed.

Lemma parse_escaped s rest :
  parse_string_body (escape s ++ String dquote rest) = Some (s, rest).
Proof.
  induction s as [|c s IH]; [reflexivity|].
  cbn [escape]. rewrite string_app_assoc, parse_escaped_char, IH. reflexivity.
Qed.

Lemma parse_quoted s rest :
  quote s ++ rest = String dquote (escape s ++ String dquote rest).
Proof.
  unfold quote. cbn [append]. now rewrite string_app_assoc.
Qed.

End ParseStringify.

Section ParseNumbers.
Import JSON.

Lemma uint_digits d : all_chars is_digit (NilEmpty.string_of_uint d) = true.
Proof. induction d; cbn; auto. Qed.

Lemma is_digit_num_char s :
  all_chars is_digit s = true -> all_chars is_num_char s = true.
Proof.
  induction s as [|c s IH]; [reflexivity|]. cbn [all_chars].
  intros H. apply andb_true_iff in H as [H1 H2].
  unfold is_num_char at 1. now rewrite H1, IH.
Qed.

Lemma string_of_Z_chars z :
  all_chars is_num_char (string_of_Z z) = true
  /\ exists c t, string_of_Z z = String c t.
Proof.
  unfold string_of_Z. destruct z as [|p|p]; cbn [Z.to_int].
  - split; [reflexivity | now eexists; eexists].
  - cbn [NilEmpty.string_of_int]. split.
    + apply is_digit_num_char, uint_digits.
    + pose proof (DecimalPos.Unsigned.to_uint_nonnil p) as Hnil.
      destruct (Pos.to_uint p); try contradiction; cbn; now eexists; eexists.
  - cbn [NilEmpty.string_of_int]. split.
    + cbn [all_chars]. rewrite is_digit_num_char by apply uint_digits. reflexivity.
    + now eexists; eexists.
Qed.

Lemma delimited_not_num rest :
  delimited rest = true ->
  match rest with String c _ => is_num_char c = false | EmptyString => True end.
Proof.
  destruct rest as [|c r]; [easy|]. cbn [delimited].
  destruct c as [[] [] [] [] [] [] [] []]; try discriminate; reflexivity.
Qed.

Lemma delimited_skip_ws rest : delimited rest = true -> skip_ws rest = rest.
Proof.
  destruct rest as [|c r]; [reflexivity|]. cbn [delimited skip_ws].
  destruct c as [[] [] [] [] [] [] [] []]; try discriminate; reflexivity.
Qed.

Lemma span_num_app tok rest :
  all_chars is_num_char tok = true -> delimited rest = true ->
  span_num (tok ++ rest) = (tok, rest).
Proof.
  intros Htok Hrest. induction tok as [|c t IH]; cbn [append].
  - apply delimited_not_num in Hrest. destruct rest as [|c r]; [reflexivity|].
    cbn [span_num]. now rewrite Hrest.
  - cbn [all_chars] in Htok. apply andb_true_iff in Htok as [H1 H2].
    cbn [span_num]. now rewrite H1, (IH H2).
Qed.

Lemma parse_number_roundtrip z rest :
  delimited rest = true ->
  parse_number (string_of_Z z ++ rest) = Some (JNum z, rest).
Proof.
  intros Hrest. unfold parse_number.
  rewrite span_num_app by (apply string_of_Z_chars || exact Hrest).
  unfold string_of_Z at 1. rewrite NilEmpty.isi, DecimalZ.of_to.
  now rewrite String.eqb_refl.
Qed.

Lemma parse_value_number fuel c s :
  is_num_char c = true ->
  parse_value (S fuel) (String c s) = parse_number (String c s).
Proof.
  destruct c as [[] [] [] [] [] [] [] []]; try discriminate; reflexivity.
Qed.

Lemma num_char_starts_value c s :
  is_num_char c = true -> starts_value (String c s) = true.
Proof.
  destruct c as [[] [] [] [] [] [] [] []]; try discriminate; reflexivity.
Qed.

Lemma number_reads_back z : reads_as (JNum z) (string_of_Z z).
Proof.
  destruct (string_of_Z_chars z) as [Hchars [c [t Ht]]].
  assert (Hc : is_num_char c = true).
  { rewrite Ht in Hchars. cbn [all_chars] in Hchars.
    now apply andb_true_iff in Hchars as [Hc _]. }
  repeat split.
  - rewrite Ht. now apply num_char_starts_value.
  - rewrite Ht. cbn. lia.
  - intros fuel rest Hfuel Hrest. destruct fuel as [|fuel]; [cbn in Hfuel; lia|].
    rewrite <- (parse_number_roundtrip z rest Hrest). rewrite Ht.
    cbn [append]. now apply parse_value_number.
Qed.

End ParseNumbers.

Section ParseValues.
Import JSON.

Lemma parse_value_string fuel s :
  parse_value (S fuel) (String dquote s)
  = match parse_string_body s with
    | Some (x, rest) => Some (JStr x, rest)
    | None => None
    end.
Proof. reflexivity. Qed.

Lemma string_reads_back s : reads_as (JStr s) (quote s).
Proof.
  repeat split.
  - unfold quote. cbn [String.length size]. lia.
  - intros fuel rest Hfuel _. destruct fuel as [|fuel]; [cbn in Hfuel; lia|].
    now rewrite parse_quoted, parse_value_string, parse_escaped.
Qed.

Lemma literal_reads_back v text :
  (v = JNull /\ text = "null") \/ (v = JBool true /\ text = "true")
  \/ (v = JBool false /\ text = "false") ->
  reads_as v text.
Proof.
  intros [[-> ->] | [[-> ->] | [-> ->]]]; repeat split; try (cbn; lia);
    intros fuel rest Hfuel _; (destruct fuel as [|fuel]; [cbn in Hfuel; lia|]);
    reflexivity.
Qed.

Lemma join_length sep parts :
  (total_length parts <= String.length (Js.join sep parts))%nat.
Proof.
  induction parts as [|x r IH]; [cbn; lia|].
  destruct r as [|y r].
  - cbn. lia.
  - change (Js.join sep (x :: y :: r)) with (x ++ sep ++ Js.join sep (y :: r)).
    rewrite !string_length_app. cbn [total_length] in *. lia.
Qed.

Lemma join_head sep c t ps tail :
  exists more, Js.join sep (String c t :: ps) ++ tail = String c more.
Proof.
  destruct ps as [|p ps]; cbn [Js.join append]; now eexists.
Qed.

(** *** Arrays *)

Lemma items_fuel items parts :
  Forall2 reads_as items parts ->
  (fold_right (fun x n => S (size x + n)) O items
   <= 2 * total_length parts)%nat.
Proof.
  induction 1 as [|x t items parts [_ [Hsize _]] _ IH]; cbn [fold_right total_length].
  - lia.
  - lia.
Qed.

Lemma parse_elements_more fuel s v rest :
  parse_value fuel s = Some (v, String "," rest) ->
  parse_elements (S fuel) s
  = match parse_elements fuel rest with
    | Some (vs, rest') => Some (v :: vs, rest')
    | None => None
    end.
Proof. intros H. cbn [parse_elements]. rewrite H. reflexivity. Qed.

Lemma parse_elements_last fuel s v rest :
  parse_value fuel s = Some (v, String "]" rest) ->
  parse_elements (S fuel) s = Some ([v], rest).
Proof. intros H. cbn [parse_elements]. rewrite H. reflexivity. Qed.

Lemma parse_elements_roundtrip items parts :
  Forall2 reads_as items parts -> items <> [] ->
  forall fuel rest,
    (fold_right (fun x n => S (size x + n)) O items <= fuel)%nat ->
    parse_elements fuel (Js.join "," parts ++ String "]" rest) = Some (items, rest).
Proof.
  induction 1 as [|x t items parts [_ [_ Hread]] Hrest IH]; intros Hne fuel rest Hfuel;
    [contradiction|].
  cbn [fold_right] in Hfuel. destruct fuel as [|fuel]; [lia|].
  destruct Hrest as [|y u items parts Hy Hrest].
  - cbn [Js.join]. apply parse_elements_last.
    apply Hread; [cbn in Hfuel; lia | reflexivity].
  - change (Js.join "," (t :: u :: parts))
      with (t ++ "," ++ Js.join "," (u :: parts)).
    rewrite string_app_assoc.
    change (("," ++ Js.join "," (u :: parts)) ++ String "]" rest)
      with (String "," (Js.join "," (u :: parts) ++ String "]" rest)).
    erewrite parse_elements_more;
      [|apply Hread; [cbn [fold_right] in Hfuel; lia | reflexivity]].
    rewrite IH; [reflexivity | discriminate | cbn [fold_right] in *; lia].
Qed.

Lemma parse_value_array fuel r c tail :
  skip_ws r = String c tail -> Ascii.eqb c "]" = false ->
  parse_value (S fuel) (String "[" r)
  = match parse_elements fuel r with
    | Some (items, rest) => Some (JArr items, rest)
    | None => None
    end.
Proof.
  intros H1 H2. cbn [parse_value skip_ws].
  change (is_ws "[") with false. cbn iota.
  change (Ascii.eqb "[" dquote) with false.
  change (Ascii.eqb "[" "[") with true. cbn iota.
  now rewrite H1, H2.
Qed.

Lemma starts_value_skip_ws c t :
  starts_value (String c t) = true ->
  is_ws c = false /\ Ascii.eqb c "]" = false /\ Ascii.eqb c "}" = false.
Proof.
  cbn [starts_value]. intros H.
  apply andb_true_iff in H as [H H3]. apply andb_true_iff in H as [H1 H2].
  apply negb_true_iff in H1, H2, H3. now repeat split.
Qed.

Lemma array_reads_back items parts :
  Forall2 reads_as items parts ->
  reads_as (JArr items) ("[" ++ Js.join "," parts ++ "]").
Proof.
  intros Hall. repeat split.
  - pose proof (items_fuel items parts Hall) as Hfuel.
    pose proof (join_length "," parts) as Hjoin.
    cbn [size append String.length]. rewrite string_length_app. cbn [String.length]. lia.
  - intros fuel rest Hfuel _. cbn [size] in Hfuel.
    destruct fuel as [|fuel]; [lia|].
    cbn [append]. rewrite string_app_assoc.
    change ("]" ++ rest) with (String "]" rest).
    destruct Hall as [|x t items parts Hx Hrest].
    + reflexivity.
    + destruct Hx as [Hstart Hx]. destruct t as [|c t']; [discriminate|].
      destruct (starts_value_skip_ws c t' Hstart) as [Hws [Hc _]].
      destruct (join_head "," c t' parts (String "]" rest)) as [more Hmore].
      assert (Hskip : skip_ws (Js.join "," (String c t' :: parts) ++ String "]" rest)
                      = String c more).
      { rewrite Hmore. cbn [skip_ws]. now rewrite Hws. }
      rewrite (parse_value_array fuel _ c more Hskip Hc).
      rewrite (parse_elements_roundtrip (x :: items) (String c t' :: parts));
        [reflexivity | constructor; [split; assumption | assumption]
         | discriminate | lia].
Qed.

End ParseValues.

Section ParseObjects.
Import JSON.

Lemma parse_members_step fuel k s :
  parse_members (S fuel) (quote k ++ ":" ++ s)
  = match parse_value fuel s with
    | Some (v, rest2) =>
        match skip_ws rest2 with
        | EmptyString => None
        | String c2 rest3 =>
            if Ascii.eqb c2 "," then
              match parse_members fuel rest3 with
              | Some (ms, rest4) => Some ((k, v) :: ms, rest4)
              | None => None
              end
            else if Ascii.eqb c2 "}" then Some ([(k, v)], rest3)
            else None
        end
    | None => None
    end.
Proof.
  rewrite parse_quoted. cbn [parse_members skip_ws].
  change (is_ws dquote) with false. cbn iota.
  change (Ascii.eqb dquote dquote) with true. cbn iota.
  rewrite parse_escaped. cbn [append skip_ws].
  change (is_ws ":") with false. cbn iota.
  change (Ascii.eqb ":" ":") with true. cbn iota. reflexivity.
Qed.

Lemma parse_members_more fuel k s v rest :
  parse_value fuel s = Some (v, String "," rest) ->
  parse_members (S fuel) (quote k ++ ":" ++ s)
  = match parse_members fuel rest with
    | Some (ms, rest') => Some ((k, v) :: ms, rest')
    | None => None
    end.
Proof. intros H. rewrite parse_members_step, H. reflexivity. Qed.

Lemma parse_members_last fuel k s v rest :
  parse_value fuel s = Some (v, String "}" rest) ->
  parse_members (S fuel) (quote k ++ ":" ++ s) = Some ([(k, v)], rest).
Proof. intros H. rewrite parse_members_step, H. reflexivity. Qed.

Lemma parse_members_roundtrip props texts :
  Forall2 (fun kv text => reads_as (snd kv) text) props texts -> props <> [] ->
  forall fuel rest,
    (fold_right (fun kv n => S (size (snd kv) + n)) O props <= fuel)%nat ->
    parse_members fuel (Js.join "," (member_parts props texts) ++ String "}" rest)
    = Some (props, rest).
Proof.
  induction 1 as [|[k x] t props texts [_ [_ Hread]] Hrest IH];
    intros Hne fuel rest Hfuel; [contradiction|].
  cbn [fold_right snd] in Hfuel. destruct fuel as [|fuel]; [lia|].
  cbn [snd] in Hread. destruct Hrest as [|[k2 y] u props texts Hy Hrest].
  - cbn [member_parts Js.join fst]. rewrite !string_app_assoc.
    apply parse_members_last. apply Hread; [cbn in Hfuel; lia | reflexivity].
  - cbn [member_parts fst] in *.
    set (more := (quote k2 ++ ":" ++ u) :: member_parts props texts) in *.
    change (Js.join "," ((quote k ++ ":" ++ t) :: more))
      with ((quote k ++ ":" ++ t) ++ "," ++ Js.join "," more).
    rewrite !string_app_assoc.
    change ("," ++ Js.join "," more ++ String "}" rest)
      with (String "," (Js.join "," more ++ String "}" rest)).
    erewrite parse_members_more;
      [|apply Hread; [cbn [fold_right] in Hfuel; lia | reflexivity]].
    rewrite IH; [reflexivity | discriminate | cbn [fold_right snd] in *; lia].
Qed.

Lemma parse_value_object fuel r tail :
  skip_ws r = String dquote tail ->
  parse_value (S fuel) (String "{" r)
  = match parse_members fuel r with
    | Some (members, rest) => Some (JObj (Js.assign [] members), rest)
    | None => None
    end.
Proof.
  intros H. cbn [parse_value skip_ws].
  change (is_ws "{") with false. cbn iota.
  change (Ascii.eqb "{" dquote) with false.
  change (Ascii.eqb "{" "[") with false.
  change (Ascii.eqb "{" "{") with true. cbn iota.
  rewrite H. change (Ascii.eqb dquote "}") with false. reflexivity.
Qed.

Lemma has_app k a b : Js.has k (a ++ b)%list = Js.has k a || Js.has k b.
Proof.
  induction a as [|[k0 v0] a IH]; cbn [Datatypes.app Js.has]; [reflexivity|].
  now rewrite IH, orb_assoc.
Qed.

Lemma set_fresh k v acc : Js.has k acc = false -> Js.set k v acc = (acc ++ [(k, v)])%list.
Proof.
  induction acc as [|[k0 v0] acc IH]; cbn [Js.has Js.set Datatypes.app];
    [reflexivity|].
  intros H. apply orb_false_iff in H as [H1 H2]. now rewrite H1, IH.
Qed.

Lemma assign_fresh props acc :
  distinct (map fst props) = true ->
  (forall kv, In kv props -> Js.has (fst kv) acc = false) ->
  Js.assign acc props = (acc ++ props)%list.
Proof.
  unfold Js.assign. revert acc.
  induction props as [|[k v] r IH]; intros acc Hd Hfresh; cbn [fold_left].
  - now rewrite app_nil_r.
  - cbn [map distinct fst snd] in *. apply andb_true_iff in Hd as [Hk Hd].
    apply negb_true_iff in Hk.
    rewrite set_fresh by (apply (Hfresh (k, v)); now left).
    rewrite IH; [now rewrite <- app_assoc | exact Hd |].
    intros [k' v'] Hin. rewrite has_app, (Hfresh (k', v')) by now right.
    cbn [fst Js.has]. rewrite orb_false_r.
    destruct (String.eqb k' k) eqn:E; [|reflexivity].
    apply String.eqb_eq in E. subst k'.
    assert (existsb (String.eqb k) (map fst r) = true); [|congruence].
    apply existsb_exists. exists k. split; [|apply String.eqb_refl].
    apply in_map_iff. now exists (k, v').
Qed.

Lemma members_fuel props texts :
  Forall2 (fun kv text => reads_as (snd kv) text) props texts ->
  (fold_right (fun kv n => S (size (snd kv) + n)) O props
   <= 2 * total_length (member_parts props texts))%nat.
Proof.
  induction 1 as [|kv t props texts [_ [Hsize _]] _ IH];
    cbn [fold_right member_parts total_length].
  - lia.
  - rewrite !string_length_app. lia.
Qed.

Lemma object_reads_back props texts :
  Forall2 (fun kv text => reads_as (snd kv) text) props texts ->
  distinct (map fst props) = true ->
  reads_as (JObj props) ("{" ++ Js.join "," (member_parts props texts) ++ "}").
Proof.
  intros Hall Hdistinct. repeat split.
  - pose proof (members_fuel props texts Hall) as Hfuel.
    pose proof (join_length "," (member_parts props texts)) as Hjoin.
    cbn [size append String.length]. rewrite string_length_app.
    cbn [String.length]. lia.
  - intros fuel rest Hfuel _. cbn [size] in Hfuel.
    destruct fuel as [|fuel]; [lia|].
    cbn [append]. rewrite string_app_assoc.
    change ("}" ++ rest) with (String "}" rest).
    destruct Hall as [|[k x] t props texts Hx Hrest].
    + reflexivity.
    + assert (Hhead : exists tail,
                Js.join "," (member_parts ((k, x) :: props) (t :: texts))
                ++ String "}" rest = String dquote tail).
      { cbn [member_parts fst]. unfold quote at 1. cbn [append].
        apply join_head. }
      destruct Hhead as [tail Hhead].
      rewrite (parse_value_object fuel _ tail)
        by (rewrite Hhead; reflexivity).
      rewrite (parse_members_roundtrip ((k, x) :: props) (t :: texts));
        [|constructor; assumption | discriminate | lia].
      rewrite (assign_fresh ((k, x) :: props) []);
        [reflexivity | exact Hdistinct | reflexivity].
Qed.

(** Every exact value has a text, and the text is read back as the
    value. *)
Lemma exact_reads_back v :
  exact v = true ->
  exists text, serialize v = Normal (Some text) /\ reads_as v text.
Proof.
  induction v using JValue_ind; intros Hexact; try discriminate Hexact.
  - exists "null". split; [reflexivity | apply literal_reads_back; tauto].
  - destruct b.
    + exists "true". split; [reflexivity | apply literal_reads_back; tauto].
    + exists "false". split; [reflexivity | apply literal_reads_back; tauto].
  - eexists. split; [reflexivity | apply number_reads_back].
  - eexists. split; [reflexivity | apply string_reads_back].
  - cbn [exact] in Hexact.
    assert (exists parts,
               serialize_items items = Normal parts
               /\ Forall2 reads_as items parts) as [parts [Hparts Hall]].
    { induction H as [|x r Hx _ IH]; cbn [serialize_items].
      - exists []. now split.
      - cbn [forallb] in Hexact. apply andb_true_iff in Hexact as [H1 H2].
        destruct (Hx H1) as [t [-> Ht]]. destruct (IH H2) as [ts [-> Hts]].
        exists (t :: ts). split; [reflexivity | now constructor]. }
    eexists. split.
    + rewrite serialize_array, Hparts. reflexivity.
    + now apply array_reads_back.
  - cbn [exact] in Hexact. apply andb_true_iff in Hexact as [Hdistinct Hexact].
    assert (exists texts,
               serialize_props props = Normal (member_parts props texts)
               /\ Forall2 (fun kv text => reads_as (snd kv) text) props texts)
      as [texts [Hparts Hall]].
    { clear Hdistinct. induction H as [|kv r Hkv _ IH]; cbn [serialize_props].
      - exists []. now split.
      - cbn [forallb] in Hexact. apply andb_true_iff in Hexact as [H1 H2].
        destruct (Hkv H1) as [t [-> Ht]]. destruct (IH H2) as [ts [-> Hts]].
        exists (t :: ts). split; [reflexivity | now constructor]. }
    eexists. split.
    + rewrite serialize_object, Hparts. reflexivity.
    + now apply object_reads_back.
Qed.

(** [JSON.parse(JSON.stringify(v))] is [v] for an exact [v]. *)
Lemma parse_stringify v :
  exact v = true ->
  exists text, stringify v = Normal (Some text) /\ parse text = Normal v.
Proof.
  intros Hexact. destruct (exact_reads_back v Hexact) as [text [Htext Hread]].
  exists text. split; [exact Htext|].
  destruct Hread as [_ [Hsize Hread]]. unfold parse.
  specialize (Hread (2 * String.length text + 2)%nat "").
  rewrite string_app_nil_r in Hread. rewrite Hread; [reflexivity | lia | reflexivity].
Qed.

End ParseObjects.

(* ================================================================= *)
(** ** Truncation *)

Lemma substring0_prefix n s :
  substring0 n s ++ drop (Z.to_nat n) s = s
  /\ String.length (substring0 n s) = Nat.min (Z.to_nat n) (String.length s).
Proof.
  unfold substring0. generalize (Z.to_nat n) as k. clear n.
  induction s as [|c s IH]; intros [|k]; cbn; try (split; reflexivity).
  destruct (IH k) as [H1 H2]. now rewrite H1, H2.
Qed.

(** C3, as amended.  [truncateBody] answers [undefined] for [null] and
    [undefined].  A body that is a string, or that holds only [null],
    booleans, integers, strings, arrays and objects with distinct keys,
    and whose text (the string itself, or its [JSON.stringify]) is at
    most [maxSize] long, is returned as it is; any other body whose
    serialisation is at most [maxSize] long is returned as the parse of
    that serialisation.  A body whose text is longer than [maxSize] is
    replaced by the first [maxSize] characters of the text followed by
    ["... [TRUNCATED - total: N bytes]"], where [N] is the length of the
    text.  When [JSON.stringify] throws, the answer is
    ["[SERIALIZATION_ERROR]"]. *)
Theorem truncateBody_passes_or_truncates :
  forall (body : JValue) (maxSize : Z),
    (body = JNull \/ body = JUndefined ->
     ErrorClassifier.truncateBody body maxSize = Normal JUndefined)
    /\ (forall text,
          JSON.exact body = true -> body <> JNull ->
          ErrorClassifier.serialized body = Normal (Some text) ->
          (Z.of_nat (String.length text) <= maxSize)%Z ->
          ErrorClassifier.truncateBody body maxSize = Normal body)
    /\ (forall text,
          body <> JNull -> body <> JUndefined -> Js.typeof body <> "string" ->
          JSON.stringify body = Normal (Some text) ->
          (Z.of_nat (String.length text) <= maxSize)%Z ->
          ErrorClassifier.truncateBody body maxSize
          = Normal (match JSON.parse text with
                    | Normal v => v
                    | Throw _ => JStr text
                    end))
    /\ (forall text,
          body <> JNull -> body <> JUndefined ->
          ErrorClassifier.serialized body = Normal (Some text) ->
          (maxSize < Z.of_nat (String.length text))%Z ->
          ErrorClassifier.truncateBody body maxSize
          = Normal (JStr (substring0 maxSize text
                          ++ "... [TRUNCATED - total: "
                          ++ string_of_nat (String.length text) ++ " bytes]"))
          /\ substring0 maxSize text ++ drop (Z.to_nat maxSize) text = text
          /\ String.length (substring0 maxSize text) = Z.to_nat maxSize)
    /\ (forall e,
          body <> JNull -> body <> JUndefined ->
          ErrorClassifier.serialized body = Throw e ->
          ErrorClassifier.truncateBody body maxSize = Normal (JStr "[SERIALIZATION_ERROR]")).
Proof.
  intros body maxSize. split; [|split; [|split; [|split]]].
  - intros [-> | ->]; reflexivity.
  - intros text Hexact Hnull Htext Hfits.
    assert (Hle : (Z.of_nat (String.length text) <=? maxSize)%Z = true)
      by now apply Z.leb_le.
    destruct body; try discriminate Hexact; try contradiction;
      unfold ErrorClassifier.truncateBody; rewrite Htext, Hle; try reflexivity;
      cbn [ErrorClassifier.serialized] in Htext.
    + destruct (parse_stringify (JBool b) Hexact) as [t [Ht Hparse]].
      rewrite Htext in Ht. injection Ht as <-. now rewrite Hparse.
    + destruct (parse_stringify (JNum n) Hexact) as [t [Ht Hparse]].
      rewrite Htext in Ht. injection Ht as <-. now rewrite Hparse.
    + destruct (parse_stringify (JArr items) Hexact) as [t [Ht Hparse]].
      rewrite Htext in Ht. injection Ht as <-. now rewrite Hparse.
    + destruct (parse_stringify (JObj props) Hexact) as [t [Ht Hparse]].
      rewrite Htext in Ht. injection Ht as <-. now rewrite Hparse.
  - intros text Hnull Hundef Hstring Htext Hfits.
    assert (Hle : (Z.of_nat (String.length text) <=? maxSize)%Z = true)
      by now apply Z.leb_le.
    destruct body; try contradiction;
      try (exfalso; apply Hstring; reflexivity);
      unfold ErrorClassifier.truncateBody; cbn [ErrorClassifier.serialized];
      rewrite Htext, Hle; now destruct (JSON.parse text).
  - intros text Hnull Hundef Htext Hover.
    assert (Hle : (Z.of_nat (String.length text) <=? maxSize)%Z = false)
      by (apply Z.leb_gt; lia).
    destruct (substring0_prefix maxSize text) as [Hprefix Hlen].
    repeat split; [|exact Hprefix|rewrite Hlen; lia].
    destruct body; try contradiction;
      unfold ErrorClassifier.truncateBody; rewrite Htext, Hle; reflexivity.
  - intros e Hnull Hundef Hthrow.
    destruct body; try contradiction;
      unfold ErrorClassifier.truncateBody; rewrite Hthrow; reflexivity.
Qed.

Lemma truncateBody_witness :
  ErrorClassifier.truncateBody TruncateScenario.order 100
  = Normal TruncateScenario.order
  /\ ErrorClassifier.truncateBody TruncateScenario.sparse 100
     = Normal (JObj [("id", JNum 7)])
  /\ ErrorClassifier.truncateBody (JStr "0123456789abcdef") 10
     = Normal (JStr "0123456789... [TRUNCATED - total: 16 bytes]")
  /\ ErrorClassifier.truncateBody TruncateScenario.with_bigint 100
     = Normal (JStr "[SERIALIZATION_ERROR]").
Proof.
  split; [|split; [|split]].
  - destruct (truncateBody_passes_or_truncates TruncateScenario.order 100)
      as [_ [Hexact _]].
    destruct (JSON.stringify TruncateScenario.order) as [[text|]|] eqn:E;
      try discriminate E.
    apply (Hexact text); [reflexivity | discriminate | exact E |].
    vm_compute in E. injection E as <-. vm_compute. discriminate.
  - destruct (truncateBody_passes_or_truncates TruncateScenario.sparse 100)
      as [_ [_ [Hparse _]]].
    destruct (JSON.stringify TruncateScenario.sparse) as [[text|]|] eqn:E;
      try discriminate E.
    rewrite (Hparse text);
      [|discriminate | discriminate | discriminate | reflexivity
       |vm_compute in E; injection E as <-; vm_compute; discriminate].
    vm_compute in E. injection E as <-. reflexivity.
  - destruct (truncateBody_passes_or_truncates (JStr "0123456789abcdef") 10)
      as [_ [_ [_ [Hover _]]]].
    destruct (Hover "0123456789abcdef") as [Hcut _];
      [discriminate | discriminate | reflexivity | cbn; lia |].
    exact Hcut.
  - destruct (truncateBody_passes_or_truncates TruncateScenario.with_bigint 100)
      as [_ [_ [_ [_ Hthrow]]]].
    apply (Hthrow (TypeError "Do not know how to serialize a BigInt"));
      [discriminate | discriminate | reflexivity].
Defined.

(** The claim's first part as it is stated fails at [null]: its
    serialised form ["null"] fits in 10, and the answer is [undefined]. *)
Lemma truncateBody_null_is_not_unchanged :
  JSON.stringify JNull = Normal (Some "null")
  /\ ErrorClassifier.truncateBody JNull 10 = Normal JUndefined
  /\ ~ ErrorClassifier.passes_unchanged JNull 10.
Proof.
  split; [reflexivity | split; [reflexivity|]].
  intros H. specialize (H "null" eq_refl). cbn in H.
  assert (Hfits : (4 <= 10)%Z) by lia. specialize (H Hfits). discriminate H.
Qed.


(* ================================================================= *)
(** ** Masking a second time *)

Lemma map_mapi {A B C} (g : B -> C) (f : nat -> A -> B) (l : list A) i :
  map g (Js.mapi f i l) = Js.mapi (fun j x => g (f j x)) i l.
Proof.
  revert i. induction l as [|x l IH]; intros i; cbn [Js.mapi map];
    [reflexivity | now rewrite IH].
Qed.

Lemma mapi_ext_in {A B} (f g : nat -> A -> B) (l : list A) :
  Forall (fun x => forall i, f i x = g i x) l ->
  forall i, Js.mapi f i l = Js.mapi g i l.
Proof.
  induction 1 as [|x l Hx _ IH]; intros i; cbn [Js.mapi];
    [reflexivity | now rewrite Hx, IH].
Qed.

Lemma maskProperty_redacted fields k :
  Masking.maskProperty fields k (JStr Constants.REDACTED) = JStr Constants.REDACTED.
Proof. unfold Masking.maskProperty. now destruct (Masking.isSensitive fields k). Qed.

Lemma index_key_own i : Masking.assignsOwn (string_of_nat i) = true.
Proof.
  unfold Masking.assignsOwn. apply negb_true_iff. apply String.eqb_neq.
  intros H. destruct (string_of_Z_chars (Z.of_nat i)) as [Hchars _].
  unfold string_of_nat in H. rewrite H in Hchars. discriminate Hchars.
Qed.

Lemma filter_own_mapi {A} (g : nat -> A -> JValue) (l : list A) i :
  filter (fun kv : string * JValue => Masking.assignsOwn (fst kv))
         (Js.mapi (fun j x => (string_of_nat j, g j x)) i l)
  = Js.mapi (fun j x => (string_of_nat j, g j x)) i l.
Proof.
  revert i. induction l as [|x l IH]; intros i; cbn [Js.mapi filter fst];
    [reflexivity|].
  now rewrite index_key_own, IH.
Qed.

Lemma filter_own_values (g : string * JValue -> JValue) (l : list (string * JValue)) :
  filter (fun kv : string * JValue => Masking.assignsOwn (fst kv))
         (map (fun kv => (fst kv, g kv)) l)
  = map (fun kv => (fst kv, g kv))
        (filter (fun kv : string * JValue => Masking.assignsOwn (fst kv)) l).
Proof.
  induction l as [|[k v] r IH]; cbn [map filter fst]; [reflexivity|].
  destruct (Masking.assignsOwn k); cbn [map]; now rewrite IH.
Qed.

Lemma filter_twice {A} (p : A -> bool) (l : list A) :
  filter p (filter p l) = filter p l.
Proof.
  induction l as [|x r IH]; cbn [filter]; [reflexivity|].
  destruct (p x) eqn:E; cbn [filter]; now rewrite ?E, IH.
Qed.

Lemma map_fst_filter (p : string -> bool) (l : list (string * JValue)) :
  map fst (filter (fun kv => p (fst kv)) l) = filter p (map fst l).
Proof.
  induction l as [|[k v] r IH]; cbn [map filter fst]; [reflexivity|].
  destruct (p k); cbn [map]; now rewrite IH.
Qed.

Lemma masking_twice fields (v : JValue) :
  (forall k, Masking.maskProperty fields k (Masking.maskProperty fields k v)
             = Masking.maskProperty fields k v)
  /\ Masking.maskItem fields (Masking.maskItem fields v) = Masking.maskItem fields v
  /\ Masking.maskSensitiveData fields (Masking.maskSensitiveData fields v)
     = Masking.maskSensitiveData fields v.
Proof.
  assert (Hprops : forall props,
             Forall (fun kv : string * JValue =>
                       (forall k, Masking.maskProperty fields k
                                    (Masking.maskProperty fields k (snd kv))
                                  = Masking.maskProperty fields k (snd kv))
                       /\ Masking.maskItem fields (Masking.maskItem fields (snd kv))
                          = Masking.maskItem fields (snd kv)
                       /\ Masking.maskSensitiveData fields
                            (Masking.maskSensitiveData fields (snd kv))
                          = Masking.maskSensitiveData fields (snd kv)) props ->
             let once :=
               map (fun kv => (fst kv, Masking.maskProperty fields (fst kv) (snd kv)))
                   (filter (fun kv => Masking.assignsOwn (fst kv)) props) in
             Masking.maskSensitiveData fields (JObj once) = JObj once).
  { intros props H once. rewrite maskSensitiveData_object. f_equal.
    unfold once.
    rewrite (filter_own_values
               (fun kv => Masking.maskProperty fields (fst kv) (snd kv))),
      filter_twice, map_map.
    apply map_ext_in.
    intros [k x] Hin. cbn [fst snd]. apply filter_In in Hin as [Hin _].
    rewrite Forall_forall in H. destruct (H _ Hin) as [Hk _]. cbn [snd] in Hk.
    now rewrite Hk. }
  induction v as [| |b|n|n|s|src|items IH|props IH|name message stack props IH]
    using JValue_ind;
    try (split; [|split];
         [ intros k; unfold Masking.maskProperty;
           destruct (Masking.isSensitive fields k) eqn:E; cbn; now rewrite ?E
         | reflexivity | reflexivity ]).
  - (* arrays *)
    assert (Hitem : Masking.maskSensitiveData fields
                      (Masking.maskSensitiveData fields (JArr items))
                    = Masking.maskSensitiveData fields (JArr items)).
    { rewrite maskSensitiveData_array, maskSensitiveData_object. f_equal.
      rewrite (filter_own_mapi
                 (fun j x => Masking.maskProperty fields (string_of_nat j) x)).
      rewrite map_mapi. apply mapi_ext_in.
      eapply Forall_impl; [|exact IH].
      intros x [Hk _] i. cbn [fst snd]. now rewrite Hk. }
    split; [|split].
    + intros k. unfold Masking.maskProperty at 2 3.
      destruct (Masking.isSensitive fields k) eqn:E.
      * apply maskProperty_redacted.
      * unfold Masking.maskProperty. rewrite E. f_equal.
        rewrite map_map. apply map_ext_in. intros x Hin.
        rewrite Forall_forall in IH. now destruct (IH _ Hin) as [_ [Hi _]].
    + cbn [Masking.maskItem]. rewrite maskSensitiveData_array.
      cbn [Masking.maskItem]. rewrite <- maskSensitiveData_array. exact Hitem.
    + exact Hitem.
  - (* objects *)
    pose proof (Hprops props IH) as Hobj. cbn zeta in Hobj.
    split; [|split].
    + intros k. unfold Masking.maskProperty at 2 3.
      destruct (Masking.isSensitive fields k) eqn:E.
      * apply maskProperty_redacted.
      * rewrite maskSensitiveData_object. unfold Masking.maskProperty. rewrite E.
        exact Hobj.
    + cbn [Masking.maskItem]. rewrite maskSensitiveData_object.
      cbn [Masking.maskItem]. exact Hobj.
    + rewrite maskSensitiveData_object. exact Hobj.
  - (* Error instances *)
    pose proof (Hprops props IH) as Hobj. cbn zeta in Hobj.
    split; [|split].
    + intros k. unfold Masking.maskProperty at 2 3.
      destruct (Masking.isSensitive fields k) eqn:E.
      * apply maskProperty_redacted.
      * rewrite maskSensitiveData_error. unfold Masking.maskProperty. rewrite E.
        exact Hobj.
    + cbn [Masking.maskItem]. rewrite maskSensitiveData_error.
      cbn [Masking.maskItem]. exact Hobj.
    + rewrite maskSensitiveData_error. exact Hobj.
Qed.


(** X1. Masking is stable: for an object, an array or an [Error]
    instance, masking the masked record again changes nothing, and the
    masked record has the keys of the record other than [__proto__], in
    the same order. *)
Theorem masking_is_idempotent_and_keeps_keys :
  forall (sensitiveFields : list string) (data : JValue),
    Js.isObjectLike data = true ->
    let once := Masking.maskSensitiveData sensitiveFields data in
    Masking.maskSensitiveData sensitiveFields once = once
    /\ map fst (Js.entries once)
       = filter Masking.assignsOwn (map fst (Js.entries data)).
Proof.
  intros fields data Hobj once. split.
  - apply masking_twice.
  - unfold once. destruct data; try discriminate Hobj.
    + rewrite maskSensitiveData_array. cbn [Js.entries].
      rewrite <- (map_fst_filter Masking.assignsOwn),
        (filter_own_mapi (fun _ item => item)).
      now rewrite !map_mapi.
    + rewrite maskSensitiveData_object. cbn [Js.entries].
      now rewrite map_map, <- (map_fst_filter Masking.assignsOwn).
    + rewrite maskSensitiveData_error. cbn [Js.entries].
      now rewrite map_map, <- (map_fst_filter Masking.assignsOwn).
Qed.

Lemma masking_is_idempotent_witness :
  let data :=
    JObj [ ("user", JObj [("name", JStr "ana"); ("password", JStr "hunter2")]);
           ("__proto__", JObj [("admin", JBool true)]);
           ("tokens", JArr [JStr "a"; JObj [("apiKey", JStr "k")]]) ] in
  let once := Masking.maskSensitiveData Constants.DEFAULT_SENSITIVE_FIELDS data in
  Masking.maskSensitiveData Constants.DEFAULT_SENSITIVE_FIELDS once = once
  /\ map fst (Js.entries once) = ["user"; "tokens"].
Proof.
  intros data once.
  exact (masking_is_idempotent_and_keeps_keys
           Constants.DEFAULT_SENSITIVE_FIELDS data eq_refl).
Defined.


(* ================================================================= *)
(** ** Header masking *)

Lemma fold_set_distinct (g : string * JValue -> JValue) props acc :
  JSON.distinct (map fst props) = true ->
  (forall kv, In kv props -> Js.has (fst kv) acc = false) ->
  fold_left (fun m kv => Js.set (fst kv) (g kv) m) props acc
  = (acc ++ map (fun kv => (fst kv, g kv)) props)%list.
Proof.
  revert acc.
  induction props as [|[k v] r IH]; intros acc Hd Hfresh; cbn [fold_left map].
  - now rewrite app_nil_r.
  - cbn [map JSON.distinct fst snd] in *. apply andb_true_iff in Hd as [Hk Hd].
    apply negb_true_iff in Hk.
    rewrite set_fresh by (apply (Hfresh (k, v)); now left).
    rewrite IH; [now rewrite <- app_assoc | exact Hd |].
    intros [k' v'] Hin. rewrite has_app, (Hfresh (k', v')) by now right.
    cbn [Js.has fst]. rewrite orb_false_r.
    destruct (String.eqb k' k) eqn:E; [|reflexivity].
    apply String.eqb_eq in E. subst k'.
    rewrite <- not_true_iff_false in Hk. exfalso. apply Hk.
    apply existsb_exists. exists k. split; [|apply String.eqb_refl].
    apply in_map_iff. now exists (k, v').
Qed.

Lemma maskHeaders_object fields props :
  JSON.distinct (map fst props) = true ->
  ErrorClassifier.maskHeaders (JObj props) fields
  = JObj (map (fun kv => (fst kv,
                          if Masking.isSensitive fields (fst kv)
                          then JStr "[REDACTED]" else snd kv)) props).
Proof.
  intros Hd. unfold ErrorClassifier.maskHeaders. cbn [Js.truthy negb Js.entries].
  rewrite (fold_set_distinct
             (fun kv => if Masking.isSensitive fields (fst kv)
                        then JStr Constants.REDACTED else snd kv));
    [reflexivity | exact Hd | reflexivity].
Qed.




(* ================================================================= *)
(** ** The attributes handed to the remote sink *)

Section SetOrSkip.
(** A loop that writes [result[key] = f entry] when [f] gives a value
    and skips the entry otherwise. *)
Variable f : string * JValue -> option JValue.

Local Notation "'step'" :=
  (fun (result : list (string * JValue)) (kv : string * JValue) =>
     match f kv with
     | Some x => Js.set (fst kv) x result
     | None => result
     end) (only parsing).

Lemma In_set k v k' v' props :
  In (k, v) (Js.set k' v' props) -> (k = k' /\ v = v') \/ In (k, v) props.
Proof.
  induction props as [|[k0 v0] r IH]; cbn [Js.set].
  - intros [H|[]]. injection H as <- <-. now left.
  - destruct (String.eqb k' k0) eqn:E.
    + intros [H|H].
      * injection H as <- <-. apply String.eqb_eq in E. now left.
      * right. now right.
    + intros [H|H]; [right; now left|].
      destruct (IH H) as [Hl|Hr]; [now left | right; now right].
Qed.

Lemma loop_values (P : JValue -> Prop) obj acc :
  (forall kv x, f kv = Some x -> P x) ->
  (forall k v, In (k, v) acc -> P v) ->
  forall k v, In (k, v) (fold_left step obj acc) -> P v.
Proof.
  intros Hf. revert acc.
  induction obj as [|kv r IH]; intros acc Hacc k v; cbn [fold_left].
  - apply Hacc.
  - apply IH. destruct (f kv) as [x|] eqn:E; [|exact Hacc].
    intros k1 v1 Hin. apply In_set in Hin as [[_ ->]|Hin].
    + exact (Hf _ _ E).
    + exact (Hacc _ _ Hin).
Qed.

Lemma loop_has obj acc k :
  Js.has k (fold_left step obj acc)
  = Js.has k acc
    || existsb (fun kv => String.eqb k (fst kv)
                          && match f kv with Some _ => true | None => false end)
               obj.
Proof.
  revert acc. induction obj as [|kv r IH]; intros acc; cbn [fold_left existsb].
  - now rewrite orb_false_r.
  - rewrite IH. destruct (f kv) as [x|].
    + rewrite has_set, andb_true_r.
      now rewrite (orb_comm (String.eqb k (fst kv))), orb_assoc.
    + now rewrite andb_false_r.
Qed.

Lemma loop_get_other obj acc k :
  existsb (String.eqb k) (map fst obj) = false ->
  Js.get k (fold_left step obj acc) = Js.get k acc.
Proof.
  revert acc. induction obj as [|kv r IH]; intros acc H; cbn [fold_left];
    [reflexivity|].
  cbn [map existsb] in H. apply orb_false_iff in H as [Hk Hr].
  rewrite IH by exact Hr.
  destruct (f kv); [|reflexivity]. now rewrite get_set, Hk.
Qed.

Lemma loop_get obj acc k v x :
  JSON.distinct (map fst obj) = true ->
  In (k, v) obj -> f (k, v) = Some x ->
  Js.get k (fold_left step obj acc) = x.
Proof.
  revert acc. induction obj as [|[k0 v0] r IH]; intros acc Hd Hin Hf; [destruct Hin|].
  cbn [map JSON.distinct fst] in Hd. apply andb_true_iff in Hd as [Hk Hd].
  apply negb_true_iff in Hk. cbn [fold_left].
  destruct Hin as [Hin|Hin].
  - injection Hin as -> ->. rewrite Hf.
    rewrite loop_get_other by exact Hk.
    cbn [fst]. now rewrite get_set, String.eqb_refl.
  - now apply IH.
Qed.
End SetOrSkip.

Lemma stringify_object_like v :
  Js.isObjectLike v = true -> JSON.stringify v <> Normal None.
Proof.
  unfold JSON.stringify. destruct v; try discriminate; intros _.
  - rewrite serialize_array. now destruct (JSON.serialize_items items).
  - rewrite serialize_object. now destruct (JSON.serialize_props props).
  - rewrite serialize_error. now destruct (JSON.serialize_props props).
Qed.


Lemma fold_left_pointwise {A B} (f g : A -> B -> A) (l : list B) (a : A) :
  (forall x y, f x y = g x y) -> fold_left f l a = fold_left g l a.
Proof.
  intros H. revert a. induction l as [|y l IH]; intros a; cbn [fold_left];
    [reflexivity | now rewrite H, IH].
Qed.

Lemma sanitizeAttributes_loop obj :
  OtelLogger.sanitizeAttributes obj
  = fold_left
      (fun result kv =>
         match
           match snd kv with
           | JNull | JUndefined => None
           | JStr _ | JNum _ | JBool _ => Some (snd kv)
           | JArr _ | JObj _ | JError _ _ _ _ =>
               Some (match JSON.stringify (snd kv) with
                     | Normal (Some text) => JStr text
                     | Normal None => JUndefined
                     | Throw _ => JStr "[SERIALIZATION_ERROR]"
                     end)
           | JBigInt _ | JFunction _ => Some (JStr (Js.toString (snd kv)))
           end
         with
         | Some x => Js.set (fst kv) x result
         | None => result
         end)
      obj [].
Proof.
  unfold OtelLogger.sanitizeAttributes. apply fold_left_pointwise.
  intros result [k v]. cbn [fst snd].
  destruct v; try reflexivity; now destruct (JSON.stringify _) as [[t|]|e].
Qed.

Lemma sanitizeAttributes_typeof obj k v :
  In (k, v) (OtelLogger.sanitizeAttributes obj) ->
  Js.typeof v = "string" \/ Js.typeof v = "number" \/ Js.typeof v = "boolean".
Proof.
  rewrite sanitizeAttributes_loop.
  apply (loop_values _ (fun v => Js.typeof v = "string" \/ Js.typeof v = "number"
                                 \/ Js.typeof v = "boolean") obj []);
    [|intros ? ? []].
  intros [k0 v0] x. cbn [snd].
  generalize (stringify_object_like v0).
  destruct (JSON.stringify v0) as [[t|]|e]; intros Hs;
    destruct v0; intros H; try discriminate H; injection H as <-;
    cbn [Js.typeof]; auto;
    now contradiction (Hs eq_refl).
Qed.

Lemma sanitizeAttributes_has obj k :
  Js.has k (OtelLogger.sanitizeAttributes obj) = true
  <-> exists v, In (k, v) obj /\ v <> JNull /\ v <> JUndefined.
Proof.
  rewrite sanitizeAttributes_loop, loop_has. cbn [Js.has orb].
  rewrite existsb_exists. split.
  - intros [[k0 v0] [Hin H]]. cbn [fst snd] in H.
    apply andb_true_iff in H as [Hk Hv]. apply String.eqb_eq in Hk. subst k0.
    exists v0. split; [exact Hin|]. now destruct v0.
  - intros [v [Hin [Hn Hu]]]. exists (k, v). split; [exact Hin|].
    cbn [fst snd]. rewrite String.eqb_refl. now destruct v.
Qed.




(* ================================================================= *)
(** ** The record a log call hands to the remote sink *)

Lemma has_existsb k props :
  Js.has k props = existsb (String.eqb k) (map fst props).
Proof.
  induction props as [|[k0 v0] r IH]; cbn [Js.has map existsb fst];
    [reflexivity | now rewrite IH].
Qed.

Lemma keys_set k v props :
  map fst (Js.set k v props)
  = if Js.has k props then map fst props else (map fst props ++ [k])%list.
Proof.
  induction props as [|[k0 v0] r IH]; cbn [Js.set Js.has map fst Datatypes.app];
    [reflexivity|].
  destruct (String.eqb k k0); cbn [orb map fst]; [reflexivity|].
  rewrite IH. now destruct (Js.has k r).
Qed.

Lemma distinct_snoc keys k :
  JSON.distinct keys = true -> existsb (String.eqb k) keys = false ->
  JSON.distinct (keys ++ [k]) = true.
Proof.
  induction keys as [|k0 r IH]; cbn [Datatypes.app JSON.distinct existsb];
    [reflexivity|].
  intros Hd Hk. apply andb_true_iff in Hd as [H0 Hd].
  apply orb_false_iff in Hk as [Hk0 Hk].
  rewrite IH by assumption. rewrite andb_true_r.
  rewrite existsb_app. cbn [existsb]. rewrite orb_false_r.
  apply negb_true_iff in H0. rewrite H0. cbn [orb].
  now rewrite String.eqb_sym, Hk0.
Qed.

Lemma distinct_set k v props :
  JSON.distinct (map fst props) = true ->
  JSON.distinct (map fst (Js.set k v props)) = true.
Proof.
  intros Hd. rewrite keys_set. destruct (Js.has k props) eqn:E; [exact Hd|].
  apply distinct_snoc; [exact Hd | now rewrite <- has_existsb].
Qed.

Lemma distinct_assign target source :
  JSON.distinct (map fst target) = true ->
  JSON.distinct (map fst (Js.assign target source)) = true.
Proof.
  unfold Js.assign. revert target.
  induction source as [|kv r IH]; intros target Hd; cbn [fold_left];
    [exact Hd|].
  apply IH. now apply distinct_set.
Qed.

Lemma createLogEntry_distinct this amb level message meta :
  JSON.distinct
    (map fst (StructuredLogger.createLogEntry this amb level message meta)) = true.
Proof.
  unfold StructuredLogger.createLogEntry.
  assert (H : forall entry,
             JSON.distinct (map fst entry) = true ->
             JSON.distinct
               (map fst match meta with
                        | Some m =>
                            Js.assign entry
                              (Js.entries (StructuredLogger.maskSensitiveData
                                             this (JObj m)))
                        | None => entry
                        end) = true).
  { intros entry Hd. destruct meta; [now apply distinct_assign | exact Hd]. }
  apply H.
  repeat match goal with
         | |- context [if ?b then _ else _] => destruct b
         end;
    repeat apply distinct_set; reflexivity.
Qed.

Lemma get_In_distinct k v props :
  JSON.distinct (map fst props) = true -> In (k, v) props -> Js.get k props = v.
Proof.
  induction props as [|[k0 v0] r IH]; [intros _ []|].
  cbn [map JSON.distinct fst Js.get]. intros Hd [Hin|Hin].
  - injection Hin as -> ->. now rewrite String.eqb_refl.
  - apply andb_true_iff in Hd as [Hk Hd]. apply negb_true_iff in Hk.
    destruct (String.eqb k k0) eqn:E; [|now apply IH].
    apply String.eqb_eq in E. subst k0.
    rewrite <- not_true_iff_false in Hk. exfalso. apply Hk.
    apply existsb_exists. exists k. split; [|apply String.eqb_refl].
    apply in_map_iff. now exists (k, v).
Qed.

Lemma writeToConsole_keeps {X} (part : World -> X) this level entry :
  (forall c w, part (log_console c w) = part w) ->
  keeps part (StructuredLogger.writeToConsole this level entry).
Proof.
  intros H. unfold StructuredLogger.writeToConsole.
  destruct (String.eqb _ _).
  - repeat (apply keeps_bind; [apply keeps_lift | intros ?]).
    now apply keeps_modify.
  - apply keeps_bind; [apply keeps_lift | intros ?].
    now apply keeps_modify.
Qed.

Lemma writeLog_emits this amb level message meta w :
  let record :=
    mkLogRecord (OtelLogger.LOG_SEVERITY_MAP level)
                (toUpperCase (level_name level)) message
                (OtelLogger.sanitizeAttributes
                   (StructuredLogger.otlp_attributes
                      (StructuredLogger.createLogEntry this amb level message meta))) in
  let after := emitCalls (snd (StructuredLogger.writeLog this amb level message meta w)) in
  after = emitCalls w \/ after = (emitCalls w ++ [record])%list.
Proof.
  intros record after. subst after.
  destruct (StructuredLogger.LOG_LEVEL_PRIORITY level
            <? StructuredLogger.LOG_LEVEL_PRIORITY (StructuredLogger.logLevel this))%Z
    eqn:Hlevel.
  - left. unfold StructuredLogger.writeLog. now rewrite Hlevel.
  - apply Z.ltb_ge in Hlevel.
    rewrite (writeLog_steps this amb level message meta w Hlevel). cbn zeta.
    set (entry := StructuredLogger.createLogEntry this amb level message meta) in *.
    assert (Hremote :
              let remote := LogPipeline.remote_attempt this level message entry w in
              emitCalls (snd remote) = emitCalls w
              \/ emitCalls (snd remote) = (emitCalls w ++ [record])%list).
    { unfold LogPipeline.remote_attempt. cbn zeta.
      destruct (_ && _); [|now left].
      unfold OtelLogger.emitOtelLog.
      destruct (otelLogger w) as [logger|]; [|now left].
      destruct (negb (isOtlpAvailable w)); [now left|].
      fold record. destruct (logger record); right; reflexivity. }
    cbn zeta in Hremote.
    destruct (_ || _); [|exact Hremote].
    now rewrite (writeToConsole_keeps emitCalls this level entry
                   (fun c w => eq_refl)).
Qed.


(** X4. Whatever a log call hands to the remote sink is a record with
    the message as body and the severity of the level, whose attributes
    never repeat [timestamp], [level] or [message] (metadata using those
    names included) and hold only strings, numbers and booleans. *)
Theorem remote_record_has_flat_attributes :
  forall (this : StructuredLogger.Service) (amb : StructuredLogger.Ambient)
         (level : LogLevel) (message : string)
         (meta : option (list (string * JValue))) (w : World) (r : LogRecord),
    In r (emitCalls (snd (StructuredLogger.writeLog this amb level message meta w))) ->
    In r (emitCalls w)
    \/ (body r = message
        /\ severityText r = toUpperCase (level_name level)
        /\ severityNumber r = OtelLogger.LOG_SEVERITY_MAP level
        /\ (forall k, In k ["timestamp"; "level"; "message"] ->
                      Js.has k (attributes r) = false)
        /\ (forall k v, In (k, v) (attributes r) ->
              Js.typeof v = "string" \/ Js.typeof v = "number"
              \/ Js.typeof v = "boolean")).
Proof.
  intros this amb level message meta w r Hin.
  destruct (writeLog_emits this amb level message meta w) as [H|H];
    cbn zeta in H; rewrite H in Hin; [now left|].
  apply in_app_or in Hin as [Hin|[<-|[]]]; [now left|right].
  cbn [body severityText severityNumber attributes].
  repeat split; [|apply sanitizeAttributes_typeof].
  intros k Hk. apply not_true_iff_false. intros Hhas.
  apply sanitizeAttributes_has in Hhas as [v [Hv [Hnull Hundef]]].
  apply Hundef.
  set (entry := StructuredLogger.createLogEntry this amb level message meta) in *.
  assert (Hd : JSON.distinct (map fst (StructuredLogger.otlp_attributes entry)) = true).
  { unfold StructuredLogger.otlp_attributes. repeat apply distinct_set.
    apply createLogEntry_distinct. }
  rewrite <- (get_In_distinct k v _ Hd Hv).
  unfold StructuredLogger.otlp_attributes.
  destruct Hk as [<-|[<-|[<-|[]]]]; now rewrite !get_set.
Qed.

Lemma remote_record_witness :
  let this := Scenarios.remote_only "production" in
  let meta := Some [("message", JStr "shadow"); ("order", JObj [("id", JNum 7)])] in
  let w := Scenarios.started Scenarios.healthy_logger in
  exists r,
    emitCalls (snd (StructuredLogger.writeLog this Scenarios.ambient LWarn
                      "stock low" meta w)) = [r]
    /\ body r = "stock low"
    /\ Js.has "message" (attributes r) = false.
Proof.
  intros this meta w. eexists. split; [reflexivity|].
  destruct (remote_record_has_flat_attributes
              this Scenarios.ambient LWarn "stock low" meta w _
              (or_introl eq_refl)) as [[]|[Hbody [_ [_ [Hkeys _]]]]].
  split; [exact Hbody|]. apply Hkeys. right. right. now left.
Defined.


(* ================================================================= *)
(** ** Which value a field of the log entry gets *)

Lemma has_false_distinct k (v : JValue) r :
  existsb (String.eqb k) (map fst r) = false -> ~ In (k, v) r.
Proof.
  intros H Hin. rewrite <- not_true_iff_false in H. apply H.
  apply existsb_exists. exists k. split; [|apply String.eqb_refl].
  apply in_map_iff. now exists (k, v).
Qed.

Lemma get_assign k target source :
  JSON.distinct (map fst source) = true ->
  Js.get k (Js.assign target source)
  = if Js.has k source then Js.get k source else Js.get k target.
Proof.
  unfold Js.assign. revert target.
  induction source as [|[k0 v0] r IH]; intros target Hd; cbn [fold_left];
    [reflexivity|].
  cbn [map JSON.distinct fst snd] in *. apply andb_true_iff in Hd as [Hk Hd].
  apply negb_true_iff in Hk.
  rewrite IH by exact Hd. cbn [Js.has Js.get]. rewrite get_set.
  destruct (String.eqb k k0) eqn:E; cbn [orb]; [|reflexivity].
  apply String.eqb_eq in E. subst k0. now rewrite has_existsb, Hk.
Qed.

Lemma has_map_values (g : string -> JValue -> JValue) k props :
  Js.has k (map (fun kv => (fst kv, g (fst kv) (snd kv))) props) = Js.has k props.
Proof.
  induction props as [|[k0 v0] r IH]; cbn [map Js.has fst snd];
    [reflexivity | now rewrite IH].
Qed.

Lemma get_map_values (g : string -> JValue -> JValue) k props :
  Js.has k props = true ->
  Js.get k (map (fun kv => (fst kv, g (fst kv) (snd kv))) props)
  = g k (Js.get k props).
Proof.
  induction props as [|[k0 v0] r IH]; cbn [map Js.has Js.get fst snd];
    [discriminate|].
  destruct (String.eqb k k0) eqn:E; cbn [orb].
  - intros _. apply String.eqb_eq in E. now subst k0.
  - exact IH.
Qed.

Lemma existsb_filter_false {A} (q p : A -> bool) (l : list A) :
  existsb q l = false -> existsb q (filter p l) = false.
Proof.
  induction l as [|x r IH]; cbn [existsb filter]; [reflexivity|].
  intros H. apply orb_false_iff in H as [Hx Hr].
  destruct (p x); cbn [existsb]; now rewrite ?Hx, IH.
Qed.

Lemma distinct_own_keys (l : list (string * JValue)) :
  JSON.distinct (map fst l) = true ->
  JSON.distinct
    (map fst (filter (fun kv : string * JValue => Masking.assignsOwn (fst kv)) l))
  = true.
Proof.
  rewrite (map_fst_filter Masking.assignsOwn).
  induction (map fst l) as [|k r IH]; cbn [JSON.distinct filter]; [reflexivity|].
  intros H. apply andb_true_iff in H as [Hk Hr].
  destruct (Masking.assignsOwn k); [|now apply IH].
  cbn [JSON.distinct]. rewrite (IH Hr), andb_true_r.
  apply negb_true_iff. apply existsb_filter_false. now apply negb_true_iff.
Qed.

Lemma has_own_keys k (l : list (string * JValue)) :
  Js.has k (filter (fun kv : string * JValue => Masking.assignsOwn (fst kv)) l)
  = Js.has k l && Masking.assignsOwn k.
Proof.
  induction l as [|[k0 v0] r IH]; cbn [filter Js.has fst]; [reflexivity|].
  destruct (String.eqb k k0) eqn:E.
  - apply String.eqb_eq in E. subst k0. cbn [orb andb].
    destruct (Masking.assignsOwn k) eqn:Hown.
    + cbn [Js.has]. now rewrite String.eqb_refl.
    + rewrite IH. rewrite ?Hown. now rewrite ?andb_false_r.
  - cbn [orb]. destruct (Masking.assignsOwn k0); [|exact IH].
    cbn [Js.has]. now rewrite E.
Qed.

Lemma get_own_keys k (l : list (string * JValue)) :
  Masking.assignsOwn k = true ->
  Js.get k (filter (fun kv : string * JValue => Masking.assignsOwn (fst kv)) l)
  = Js.get k l.
Proof.
  intros Hown.
  induction l as [|[k0 v0] r IH]; cbn [filter Js.get fst]; [reflexivity|].
  destruct (String.eqb k k0) eqn:E.
  - apply String.eqb_eq in E. subst k0. rewrite Hown. cbn [Js.get].
    now rewrite String.eqb_refl.
  - destruct (Masking.assignsOwn k0); [|exact IH].
    cbn [Js.get]. now rewrite E.
Qed.

(** X5. A field of the log entry that the metadata names gets the
    metadata's value, masked, even when it is one of the entry's own
    fields ([message], [level], [timestamp], [service], ...); every other
    field, and [__proto__], which masking leaves out, is what it is
    without metadata. *)
Theorem metadata_overrides_entry_fields :
  forall (this : StructuredLogger.Service) (amb : StructuredLogger.Ambient)
         (level : LogLevel) (message : string)
         (meta : list (string * JValue)) (k : string),
    JSON.distinct (map fst meta) = true ->
    Js.get k (StructuredLogger.createLogEntry this amb level message (Some meta))
    = if Js.has k meta && Masking.assignsOwn k
      then Masking.maskProperty (StructuredLogger.sensitiveFields this) k
                                (Js.get k meta)
      else Js.get k (StructuredLogger.createLogEntry this amb level message None).
Proof.
  intros this amb level message meta k Hd.
  rewrite createLogEntry_with_meta.
  rewrite get_assign by (rewrite map_map; now apply distinct_own_keys).
  rewrite (has_map_values (Masking.maskProperty (StructuredLogger.sensitiveFields this))).
  rewrite has_own_keys.
  destruct (Js.has k meta && Masking.assignsOwn k) eqn:E; [|reflexivity].
  apply andb_true_iff in E as [Hhas Hown].
  rewrite (get_map_values
             (Masking.maskProperty (StructuredLogger.sensitiveFields this)))
    by now rewrite has_own_keys, Hhas, Hown.
  now rewrite get_own_keys.
Qed.

Lemma metadata_overrides_witness :
  let this := Scenarios.remote_only "production" in
  let meta := [("message", JStr "shadow"); ("attempt", JNum 2)] in
  Js.get "message"
    (StructuredLogger.createLogEntry this Scenarios.ambient LInfo "paid" (Some meta))
  = JStr "shadow"
  /\ Js.get "service"
       (StructuredLogger.createLogEntry this Scenarios.ambient LInfo "paid" (Some meta))
     = JStr "orders-api".
Proof.
  intros this meta. split.
  - exact (metadata_overrides_entry_fields
             this Scenarios.ambient LInfo "paid" meta "message" eq_refl).
  - exact (metadata_overrides_entry_fields
             this Scenarios.ambient LInfo "paid" meta "service" eq_refl).
Defined.

(** X6. [error(message, trace, meta)] logs the [trace] argument under
    [stack_trace] whatever [stack_trace] the metadata carries: the entry
    has the masked [trace] there, so a call with [trace] undefined logs
    no stack trace even when the metadata has one. *)
Theorem error_trace_argument_replaces_meta_stack_trace :
  forall (this : StructuredLogger.Service) (amb : StructuredLogger.Ambient)
         (message : string) (trace : JValue)
         (meta : option (list (string * JValue))),
    JSON.distinct (map fst (StructuredLogger.spread meta)) = true ->
    exists logged,
      StructuredLogger.error this amb message trace meta
      = StructuredLogger.writeLog this amb LError message (Some logged)
      /\ Js.get "stack_trace"
           (StructuredLogger.createLogEntry this amb LError message (Some logged))
         = Masking.maskProperty (StructuredLogger.sensitiveFields this)
                                "stack_trace" trace
      /\ (trace = JUndefined ->
          Masking.isSensitive (StructuredLogger.sensitiveFields this) "stack_trace"
          = false ->
          Js.get "stack_trace"
            (StructuredLogger.createLogEntry this amb LError message (Some logged))
          = JUndefined).
Proof.
  intros this amb message trace meta Hd.
  exists (Js.set "stack_trace" trace (StructuredLogger.spread meta)).
  assert (Hget :
            Js.get "stack_trace"
              (StructuredLogger.createLogEntry this amb LError message
                 (Some (Js.set "stack_trace" trace (StructuredLogger.spread meta))))
            = Masking.maskProperty (StructuredLogger.sensitiveFields this)
                                   "stack_trace" trace).
  { rewrite createLogEntry_with_meta.
    rewrite get_assign
      by (rewrite map_map; apply distinct_own_keys; now apply distinct_set).
    rewrite (has_map_values
               (Masking.maskProperty (StructuredLogger.sensitiveFields this))).
    rewrite has_own_keys, has_set, String.eqb_refl.
    change (Masking.assignsOwn "stack_trace") with true. cbn [orb andb].
    rewrite (get_map_values
               (Masking.maskProperty (StructuredLogger.sensitiveFields this)))
      by (rewrite has_own_keys, has_set, String.eqb_refl; reflexivity).
    rewrite get_own_keys by reflexivity.
    now rewrite get_set, String.eqb_refl. }
  split; [reflexivity|split]; [exact Hget|].
  intros -> Hsens. rewrite Hget. unfold Masking.maskProperty. now rewrite Hsens.
Qed.

Lemma error_trace_witness :
  let this := Scenarios.remote_only "production" in
  let meta := Some [("stack_trace", JStr "Error: boom at charge()")] in
  exists logged,
    StructuredLogger.error this Scenarios.ambient "charge failed" JUndefined meta
    = StructuredLogger.writeLog this Scenarios.ambient LError "charge failed"
        (Some logged)
    /\ Js.get "stack_trace"
         (StructuredLogger.createLogEntry this Scenarios.ambient LError
            "charge failed" (Some logged))
       = JUndefined.
Proof.
  intros this meta.
  destruct (error_trace_argument_replaces_meta_stack_trace
              this Scenarios.ambient "charge failed" JUndefined meta eq_refl)
    as [logged [Hcall [_ Hlost]]].
  exists logged. split; [exact Hcall|]. apply Hlost; reflexivity.
Defined.


(* ================================================================= *)
(** ** What the error extractors put in the log *)

(** X8. Of a known Prisma error only four fields reach the log:
    [error_type], [error_code], the sanitised [error_message] and
    [prisma]; and [prisma] holds at most [model], [field] and
    [constraint], each the truthy [modelName], [target] or [constraint]
    of the error's [meta].  No other key of [meta] is copied. *)
Theorem prisma_known_info_copies_three_meta_fields :
  forall (error : JValue) (info : list (string * JValue)),
    ErrorClassifier.extractPrismaKnownErrorInfo error = Normal info ->
    let meta := Js.orElse (Js.getProp error "meta") (JObj []) in
    let pick (source : string) : JValue :=
      if Js.truthy (Js.getProp meta source) then Js.getProp meta source
      else JUndefined in
    map fst info = ["error_type"; "error_code"; "error_message"; "prisma"]
    /\ exists safeMeta,
         Js.get "prisma" info = JObj safeMeta
         /\ (forall k, Js.has k safeMeta = true ->
                       In k ["model"; "field"; "constraint"])
         /\ Js.get "model" safeMeta = pick "modelName"
         /\ Js.get "field" safeMeta = pick "target"
         /\ Js.get "constraint" safeMeta = pick "constraint".
Proof.
  intros error info. unfold ErrorClassifier.extractPrismaKnownErrorInfo.
  destruct (ErrorClassifier.sanitizePrismaMessage _); [|discriminate].
  cbn [bindC]. intros H. injection H as <-. cbn zeta.
  set (meta := Js.orElse (Js.getProp error "meta") (JObj [])).
  split; [reflexivity|]. eexists. split; [reflexivity|].
  destruct (Js.truthy (Js.getProp meta "modelName"));
    destruct (Js.truthy (Js.getProp meta "target"));
    destruct (Js.truthy (Js.getProp meta "constraint"));
    (split; [|repeat split; reflexivity]);
    intros k; cbn [Js.set Js.has String.eqb Ascii.eqb Bool.eqb];
    cbn; intros Hk;
    repeat match type of Hk with
           | (String.eqb k ?s || _) = true =>
               apply orb_true_iff in Hk as [Hk|Hk];
               [apply String.eqb_eq in Hk; subst k; cbn; tauto|]
           end;
    discriminate Hk.
Qed.

Lemma prisma_known_info_witness :
  exists info,
    ErrorClassifier.extractPrismaKnownErrorInfo
      (JError "PrismaClientKnownRequestError" "Unique constraint failed" ""
         [ ("code", JStr "P2002"); ("clientVersion", JStr "5.7.0");
           ("meta", JObj [ ("modelName", JStr "User");
                           ("query", JStr "SELECT secret") ]) ])
    = Normal info
    /\ map fst info = ["error_type"; "error_code"; "error_message"; "prisma"]
    /\ Js.get "prisma" info = JObj [("model", JStr "User")].
Proof.
  eexists. split; [reflexivity|].
  destruct (prisma_known_info_copies_three_meta_fields
              (JError "PrismaClientKnownRequestError" "Unique constraint failed" ""
                 [ ("code", JStr "P2002"); ("clientVersion", JStr "5.7.0");
                   ("meta", JObj [ ("modelName", JStr "User");
                                   ("query", JStr "SELECT secret") ]) ])
              _ eq_refl)
    as [Hkeys _].
  split; [exact Hkeys | reflexivity].
Defined.


(* ================================================================= *)
(** ** Sanitised Prisma messages *)

Section ReplaceDelimited.
Import ErrorClassifier.
Variable d : ascii.
Variable min : nat.
Variable by_ : string.

Local Notation "'free'" :=
  (all_chars (fun c => negb (Ascii.eqb c d))) (only parsing).

Lemma replace_delimited_free a s :
  free a = true ->
  replace_delimited d min by_ 0 (a ++ s) = a ++ replace_delimited d min by_ 0 s.
Proof.
  induction a as [|c a IH]; [reflexivity|].
  cbn [all_chars]. intros H. apply andb_true_iff in H as [Hc Ha].
  apply negb_true_iff in Hc.
  change (String c a ++ s) with (String c (a ++ s)).
  cbn [replace_delimited]. rewrite Hc. cbn [andb].
  now rewrite IH.
Qed.

Lemma replace_delimited_skip x s :
  replace_delimited d min by_ (String.length x) (x ++ s)
  = replace_delimited d min by_ 0 s.
Proof.
  induction x as [|c x IH]; [now destruct s|].
  change (String c x ++ s) with (String c (x ++ s)).
  cbn [String.length replace_delimited]. exact IH.
Qed.

Lemma run_until_free v b :
  free v = true -> run_until d (v ++ String d b) = String.length v.
Proof.
  induction v as [|c v IH]; cbn [all_chars].
  - intros _. cbn. now rewrite Ascii.eqb_refl.
  - intros H. apply andb_true_iff in H as [Hc Hv]. apply negb_true_iff in Hc.
    change (String c v ++ String d b) with (String c (v ++ String d b)).
    cbn [run_until String.length]. rewrite Hc. now rewrite IH.
Qed.

Lemma drop_length_app v s : drop (String.length v) (v ++ s) = s.
Proof.
  induction v as [|c v IH]; [now destruct s|]. exact IH.
Qed.

Lemma replace_delimited_match v b :
  free v = true -> (min <= String.length v)%nat ->
  replace_delimited d min by_ 0 (String d (v ++ String d b))
  = by_ ++ replace_delimited d min by_ 0 b.
Proof.
  intros Hv Hmin. cbn [replace_delimited].
  rewrite run_until_free by exact Hv.
  rewrite Ascii.eqb_refl, drop_length_app.
  replace (min <=? String.length v)%nat with true
    by (symmetry; now apply Nat.leb_le).
  cbn [andb startsWith]. rewrite Ascii.eqb_refl. cbn [andb].
  f_equal.
  replace (v ++ String d b) with ((v ++ String d "") ++ b)
    by now rewrite string_app_assoc.
  replace (S (String.length v)) with (String.length (v ++ String d ""))
    by (rewrite string_length_app; cbn; lia).
  apply replace_delimited_skip.
Qed.

Lemma replace_delimited_free_all a :
  free a = true -> replace_delimited d min by_ 0 a = a.
Proof.
  intros H. rewrite <- (string_app_nil_r a) at 1.
  rewrite replace_delimited_free by exact H. apply string_app_nil_r.
Qed.
End ReplaceDelimited.

Lemma all_chars_app p a b :
  all_chars p (a ++ b) = all_chars p a && all_chars p b.
Proof.
  induction a as [|c a IH]; [reflexivity|].
  change (String c a ++ b) with (String c (a ++ b)).
  cbn [all_chars]. now rewrite IH, andb_assoc.
Qed.

Lemma all_chars_weaken (p q : ascii -> bool) s :
  (forall c, p c = true -> q c = true) ->
  all_chars p s = true -> all_chars q s = true.
Proof.
  intros H. induction s as [|c s IH]; [reflexivity|]. cbn [all_chars].
  intros Hs. apply andb_true_iff in Hs as [Hc Hs]. now rewrite (H _ Hc), IH.
Qed.


(** X9. [sanitizePrismaMessage] throws a [TypeError] for a message that
    is not a string and returns a string otherwise.  A message without
    back quotes and double quotes is returned as it is.  After a prefix
    without quotes, a non-empty back-quoted value becomes [`[VALUE]`] and
    a double-quoted value of 50 characters or more becomes
    ["[LONG_VALUE]"], and the rest of the message is sanitised in the
    same way. *)
Theorem sanitizePrismaMessage_replaces_quoted_values :
  let plain :=
    all_chars (fun c => negb (Ascii.eqb c "`") && negb (Ascii.eqb c JSON.dquote)) in
  let q := String JSON.dquote "" in
  (forall message,
      (forall text, message <> JStr text) ->
      exists msg, ErrorClassifier.sanitizePrismaMessage message
                  = Throw (TypeError msg))
  /\ (forall text,
        plain text = true ->
        ErrorClassifier.sanitizePrismaMessage (JStr text) = Normal (JStr text))
  /\ (forall a v b t,
        plain a = true -> v <> "" ->
        all_chars (fun c => negb (Ascii.eqb c "`")) v = true ->
        ErrorClassifier.sanitizePrismaMessage (JStr b) = Normal (JStr t) ->
        ErrorClassifier.sanitizePrismaMessage (JStr (a ++ "`" ++ v ++ "`" ++ b))
        = Normal (JStr (a ++ "`[VALUE]`" ++ t)))
  /\ (forall a v b t,
        plain a = true -> plain v = true -> (50 <= String.length v)%nat ->
        ErrorClassifier.sanitizePrismaMessage (JStr b) = Normal (JStr t) ->
        ErrorClassifier.sanitizePrismaMessage (JStr (a ++ q ++ v ++ q ++ b))
        = Normal (JStr (a ++ q ++ "[LONG_VALUE]" ++ q ++ t))).
Proof.
  intros plain q.
  assert (Hbq : forall s, plain s = true ->
                          all_chars (fun c => negb (Ascii.eqb c "`")) s = true).
  { intros s. apply all_chars_weaken. intros c H.
    now apply andb_true_iff in H as [H _]. }
  assert (Hdq : forall s, plain s = true ->
                          all_chars (fun c => negb (Ascii.eqb c JSON.dquote)) s = true).
  { intros s. apply all_chars_weaken. intros c H.
    now apply andb_true_iff in H as [_ H]. }
  split; [|split; [|split]].
  - intros message Hnot.
    destruct message; cbn [ErrorClassifier.sanitizePrismaMessage];
      try (eexists; reflexivity).
    now contradiction (Hnot s).
  - intros text Hplain. cbn [ErrorClassifier.sanitizePrismaMessage].
    rewrite (replace_delimited_free_all "`") by now apply Hbq.
    now rewrite (replace_delimited_free_all JSON.dquote) by now apply Hdq.
  - intros a v b t Ha Hv Hfree Hb.
    cbn [ErrorClassifier.sanitizePrismaMessage] in *. injection Hb as <-.
    do 2 f_equal.
    rewrite (replace_delimited_free "`") by now apply Hbq.
    change ("`" ++ v ++ "`" ++ b) with (String "`" (v ++ String "`" b)).
    rewrite (replace_delimited_match "`");
      [| exact Hfree | destruct v; [now contradiction Hv | cbn; lia]].
    rewrite (replace_delimited_free JSON.dquote) by now apply Hdq.
    f_equal.
  - intros a v b t Ha Hv Hlen Hb.
    cbn [ErrorClassifier.sanitizePrismaMessage] in *. injection Hb as <-.
    do 2 f_equal.
    rewrite (replace_delimited_free "`" 1 _ a) by now apply Hbq.
    rewrite (replace_delimited_free "`" 1 _ q) by reflexivity.
    rewrite (replace_delimited_free "`" 1 _ v) by now apply Hbq.
    rewrite (replace_delimited_free "`" 1 _ q) by reflexivity.
    rewrite (replace_delimited_free JSON.dquote) by now apply Hdq.
    f_equal.
    change (q ++ v ++ q ++ ?x) with (String JSON.dquote (v ++ String JSON.dquote x)).
    rewrite (replace_delimited_match JSON.dquote);
      [reflexivity | now apply Hdq | exact Hlen].
Qed.

Lemma sanitizePrismaMessage_witness :
  ErrorClassifier.sanitizePrismaMessage
    (JStr "Unique constraint failed on the fields: (`email`)")
  = Normal (JStr "Unique constraint failed on the fields: (`[VALUE]`)")
  /\ exists msg,
       ErrorClassifier.sanitizePrismaMessage JUndefined = Throw (TypeError msg).
Proof.
  destruct sanitizePrismaMessage_replaces_quoted_values
    as [Hthrow [Hplain [Hvalue _]]].
  split.
  - apply (Hvalue "Unique constraint failed on the fields: (" "email" ")" ")");
      [reflexivity | discriminate | reflexivity |].
    apply (Hplain ")"). reflexivity.
  - apply Hthrow. discriminate.
Defined.


(* ================================================================= *)
(** ** The error metric of the interceptor *)

Lemma recordSpanError_returns activeSpan fields maxBodySize error info w :
  ObservabilityErrorInterceptor.extractErrorInfo fields maxBodySize error
  = Normal info ->
  fst (ObservabilityErrorInterceptor.recordSpanError activeSpan error w) = Normal tt.
Proof.
  unfold ObservabilityErrorInterceptor.extractErrorInfo,
    ObservabilityErrorInterceptor.recordSpanError,
    ErrorClassifier.classifyError.
  destruct activeSpan as [span|]; [|reflexivity].
  destruct (ErrorClassifier.isAxiosError error).
  - unfold ErrorClassifier.extractAxiosErrorInfo, Js.optProp.
    destruct (Js.optToUpperCase _) as [upper|x]; [|discriminate].
    intros _. unfold bind, Tracing.span_do, modify, lift, when_.
    cbn [fst snd].
    now destruct (ErrorClassifier.isPrismaKnownRequestError error).
  - intros _. unfold bind, Tracing.span_do, modify, lift, when_, ret.
    cbn [fst snd].
    now destruct (ErrorClassifier.isPrismaKnownRequestError error).
Qed.

(** The metric [handleError] records when both extractions succeed. *)
Lemma handleError_metric logger activeSpan fields maxBodySize amb error ctx w
      contextInfo errorInfo :
  ObservabilityErrorInterceptor.extractContextInfo ctx = Normal contextInfo ->
  ObservabilityErrorInterceptor.extractErrorInfo fields maxBodySize error
  = Normal errorInfo ->
  metricLog (snd (ObservabilityErrorInterceptor.handleError
                    logger activeSpan fields maxBodySize amb error ctx w))
  = (metricLog w
     ++ [ mkMetricEvent errorsTotal (Add 1)
            [ ("error_type",
               ErrorType_value (ErrorClassifier.classifyError error));
              ("context",
               MetricsService.error_context_name
                 (ObservabilityErrorInterceptor.metricsContext (getType ctx)));
              ("error_code",
               Js.toString
                 (Js.orElse
                    (if ErrorClassifier.isPrismaKnownRequestError error
                     then Js.getProp error "code"
                     else if ErrorClassifier.isAxiosError error
                          then JStr (Js.toString
                                       (Js.orElse
                                          (Js.getProp (Js.getProp error "response")
                                                      "status")
                                          (Js.orElse (Js.getProp error "code")
                                                     (JStr "unknown"))))
                          else JUndefined)
                    (JStr "unknown"))) ] ])%list.
Proof.
  intros Hctx Herr.
  unfold ObservabilityErrorInterceptor.handleError, bind at 1, lift.
  rewrite Hctx. unfold bind at 1. rewrite Herr. unfold bind at 1.
  pose proof (keeps_metricLog_recordSpanError activeSpan error w) as Hspan.
  pose proof (recordSpanError_returns activeSpan fields maxBodySize error
                errorInfo w Herr) as Hret.
  destruct (ObservabilityErrorInterceptor.recordSpanError activeSpan error w)
    as [[[]|x] w1]; [|discriminate Hret].
  cbn [snd] in Hspan. unfold bind at 1.
  unfold ObservabilityErrorInterceptor.recordErrorMetric,
    MetricsService.recordError, MetricsService.add, modify at 1.
  unfold StructuredLogger.error.
  rewrite (keeps_writeLog metricLog metricLog_untouched_by_logging).
  cbn [metricLog log_metric MetricsService.ee_type MetricsService.ee_context
         MetricsService.ee_code].
  now rewrite Hspan.
Qed.

Lemma extractErrorInfo_error_type fields maxBodySize error info :
  ObservabilityErrorInterceptor.extractErrorInfo fields maxBodySize error
  = Normal info ->
  Js.get "error_type" info
  = JStr (ErrorType_value
            match ErrorClassifier.classifyError error with
            | PRISMA_VALIDATION => GENERIC
            | kind => kind
            end).
Proof.
  unfold ObservabilityErrorInterceptor.extractErrorInfo.
  assert (Hgeneric :
            Js.get "error_type" (ErrorClassifier.extractGenericErrorInfo error)
            = JStr (ErrorType_value GENERIC)).
  { unfold ErrorClassifier.extractGenericErrorInfo.
    now destruct (Js.instanceofError error). }
  unfold ErrorClassifier.classifyError.
  destruct (ErrorClassifier.isAxiosError error).
  { unfold ErrorClassifier.extractAxiosErrorInfo.
    destruct (Js.optToUpperCase _); [|discriminate]. cbn [bindC].
    destruct (ErrorClassifier.truncateBody _ _); [|discriminate]. cbn [bindC].
    destruct (ErrorClassifier.truncateBody _ _); [|discriminate]. cbn [bindC].
    intros H. injection H as <-. reflexivity. }
  destruct (ErrorClassifier.isPrismaKnownRequestError error).
  { unfold ErrorClassifier.extractPrismaKnownErrorInfo.
    destruct (ErrorClassifier.sanitizePrismaMessage _); [|discriminate].
    cbn [bindC]. intros H. injection H as <-. reflexivity. }
  destruct (ErrorClassifier.isPrismaUnknownRequestError error).
  { unfold ErrorClassifier.extractPrismaUnknownErrorInfo.
    destruct (ErrorClassifier.sanitizePrismaMessage _); [|discriminate].
    cbn [bindC]. intros H. injection H as <-. reflexivity. }
  destruct (ErrorClassifier.isPrismaValidationError error);
    intros H; injection H as <-; exact Hgeneric.
Qed.

(** X7. The [error_type] the interceptor logs is the kind
    [classifyError] gives, except for a Prisma validation error, which is
    logged with the generic kind ["Error"]; the metric [handleError]
    records for the same error is labelled with the kind [classifyError]
    gives, the validation kind included. *)
Theorem logged_error_type_follows_classification :
  forall (sensitiveFields : list string) (maxBodySize : Z)
         (error : JValue) (info : list (string * JValue)),
    ObservabilityErrorInterceptor.extractErrorInfo sensitiveFields maxBodySize error
    = Normal info ->
    Js.get "error_type" info
    = JStr (ErrorType_value
              match ErrorClassifier.classifyError error with
              | PRISMA_VALIDATION => GENERIC
              | kind => kind
              end)
    /\ forall (logger : StructuredLogger.Service) (activeSpan : option SpanContext)
              (amb : StructuredLogger.Ambient) (ctx : ExecutionContext)
              (contextInfo : list (string * JValue)) (w : World),
         ObservabilityErrorInterceptor.extractContextInfo ctx = Normal contextInfo ->
         exists context code,
           metricLog (snd (ObservabilityErrorInterceptor.handleError
                             logger activeSpan sensitiveFields maxBodySize
                             amb error ctx w))
           = (metricLog w
              ++ [ mkMetricEvent errorsTotal (Add 1)
                     [ ("error_type",
                        ErrorType_value (ErrorClassifier.classifyError error));
                       ("context", context);
                       ("error_code", code) ] ])%list.
Proof.
  intros fields maxBodySize error info Herr. split.
  - now apply (extractErrorInfo_error_type fields maxBodySize).
  - intros logger activeSpan amb ctx contextInfo w Hctx.
    eexists. eexists.
    exact (handleError_metric logger activeSpan fields maxBodySize amb error ctx w
             contextInfo info Hctx Herr).
Qed.

Lemma logged_error_type_witness :
  ErrorClassifier.classifyError ErrorClassifier.prismaValidationSample
  = PRISMA_VALIDATION
  /\ (exists info,
         ObservabilityErrorInterceptor.extractErrorInfo
           Constants.DEFAULT_SENSITIVE_FIELDS Constants.DEFAULT_MAX_BODY_LOG_SIZE
           ErrorClassifier.prismaValidationSample = Normal info
         /\ Js.get "error_type" info = JStr "Error")
  /\ exists context code,
       metricLog (snd (ObservabilityErrorInterceptor.handleError
                         InterceptScenario.logger None
                         Constants.DEFAULT_SENSITIVE_FIELDS
                         Constants.DEFAULT_MAX_BODY_LOG_SIZE Scenarios.ambient
                         ErrorClassifier.prismaValidationSample
                         InterceptScenario.rpc_context PublishScenario.idle))
       = [ mkMetricEvent errorsTotal (Add 1)
             [ ("error_type", "PrismaClientValidationError");
               ("context", context);
               ("error_code", code) ] ].
Proof.
  destruct (logged_error_type_follows_classification
              Constants.DEFAULT_SENSITIVE_FIELDS Constants.DEFAULT_MAX_BODY_LOG_SIZE
              ErrorClassifier.prismaValidationSample _ eq_refl)
    as [Hlogged Hmetric].
  split; [reflexivity|split].
  - eexists. split; [reflexivity | exact Hlogged].
  - exact (Hmetric InterceptScenario.logger None Scenarios.ambient
             InterceptScenario.rpc_context _ PublishScenario.idle eq_refl).
Defined.

(** X10. When the context and the error information can be extracted,
    [handleError] adds exactly one to [errors_total], labelled with the
    kind [classifyError] gives, the context ([rmq] and [rpc] count as
    [rabbitmq]) and the error code (the Prisma code, the Axios status or
    code, ["unknown"] otherwise); it does so before it logs, so the
    metric is recorded even when the logging that follows throws.  When
    an extraction throws, [handleError] throws and records nothing. *)
Theorem error_metric_is_recorded_before_logging :
  forall (logger : StructuredLogger.Service) (activeSpan : option SpanContext)
         (sensitiveFields : list string) (maxBodySize : Z)
         (amb : StructuredLogger.Ambient) (error : JValue)
         (ctx : ExecutionContext) (w : World),
    let run :=
      ObservabilityErrorInterceptor.handleError
        logger activeSpan sensitiveFields maxBodySize amb error ctx w in
    let code :=
      if ErrorClassifier.isPrismaKnownRequestError error
      then Js.getProp error "code"
      else if ErrorClassifier.isAxiosError error
           then JStr (Js.toString
                        (Js.orElse (Js.getProp (Js.getProp error "response") "status")
                           (Js.orElse (Js.getProp error "code") (JStr "unknown"))))
           else JUndefined in
    (forall contextInfo errorInfo,
        ObservabilityErrorInterceptor.extractContextInfo ctx = Normal contextInfo ->
        ObservabilityErrorInterceptor.extractErrorInfo sensitiveFields maxBodySize error
        = Normal errorInfo ->
        metricLog (snd run)
        = (metricLog w
           ++ [ mkMetricEvent errorsTotal (Add 1)
                  [ ("error_type",
                     ErrorType_value (ErrorClassifier.classifyError error));
                    ("context",
                     MetricsService.error_context_name
                       (ObservabilityErrorInterceptor.metricsContext (getType ctx)));
                    ("error_code",
                     Js.toString (Js.orElse code (JStr "unknown"))) ] ])%list)
    /\ (forall x,
          ObservabilityErrorInterceptor.extractContextInfo ctx = Throw x
          \/ (exists contextInfo,
                ObservabilityErrorInterceptor.extractContextInfo ctx
                = Normal contextInfo
                /\ ObservabilityErrorInterceptor.extractErrorInfo
                     sensitiveFields maxBodySize error = Throw x) ->
          run = (Throw x, w)).
Proof.
  intros logger activeSpan fields maxBodySize amb error ctx w run code.
  subst run. split.
  - intros contextInfo errorInfo Hctx Herr.
    exact (handleError_metric logger activeSpan fields maxBodySize amb error ctx w
             contextInfo errorInfo Hctx Herr).
  - intros x [Hctx|[contextInfo [Hctx Herr]]];
      unfold ObservabilityErrorInterceptor.handleError, bind at 1, lift;
      rewrite Hctx; [reflexivity|].
    unfold bind at 1. now rewrite Herr.
Qed.

Lemma error_metric_witness :
  let w := snd InterceptScenario.run_http_interceptor in
  metricLog w
  = [ mkMetricEvent errorsTotal (Add 1)
        [ ("error_type", "Error"); ("context", "http"); ("error_code", "unknown") ] ]
  /\ exists e, Rx.terminal (fst InterceptScenario.run_http_interceptor) = Rx.Errors e
               /\ e <> InterceptScenario.not_found.
Proof.
  intros w. split.
  - destruct (error_metric_is_recorded_before_logging
                InterceptScenario.logger None Constants.DEFAULT_SENSITIVE_FIELDS
                Constants.DEFAULT_MAX_BODY_LOG_SIZE Scenarios.ambient
                InterceptScenario.not_found InterceptScenario.http_context
                PublishScenario.idle) as [H _].
    exact (H _ _ eq_refl eq_refl).
  - eexists. split; [reflexivity | discriminate].
Defined.


(* ================================================================= *)
(** ** What route normalisation leaves behind *)

Section NumericIdsGone.
Import MetricsService.

Lemma string_app_cons_inv x c y c' s :
  x ++ String c y = String c' s ->
  (x = "" /\ c = c' /\ y = s) \/ exists x', x = String c' x' /\ x' ++ String c y = s.
Proof.
  destruct x as [|x0 x']; cbn; intros H; injection H as H1 H2.
  - left. now subst.
  - right. exists x'. now subst.
Qed.

Lemma replace_numeric_ids_head r c y :
  head_is_digit r = false ->
  replace_numeric_ids false r = String c y -> is_digit c = false.
Proof.
  destruct r as [|c' r']; [discriminate|].
  cbn [head_is_digit replace_numeric_ids andb]. intros Hc.
  destruct (Ascii.eqb c' "/" && head_is_digit r').
  - cbn. intros H. now injection H as <- _.
  - intros H. now injection H as <- _.
Qed.

Lemma replace_numeric_ids_no_numeric_id s :
  forall flag x c y,
    replace_numeric_ids flag s = x ++ String "/" (String c y) ->
    is_digit c = false.
Proof.
  induction s as [|ch r IH]; intros flag x c y.
  - cbn. now destruct x.
  - cbn [replace_numeric_ids].
    destruct (flag && is_digit ch); [apply IH|].
    destruct (Ascii.eqb ch "/") eqn:Hslash; cbn [andb].
    + destruct (head_is_digit r) eqn:Hhead.
      * intros H. symmetry in H.
        change ("/:id" ++ replace_numeric_ids true r)
          with (String "/" (String ":" (String "i" (String "d"
                  (replace_numeric_ids true r))))) in H.
        apply string_app_cons_inv in H as [[_ [_ H]]|[x1 [-> H]]];
          [now injection H as -> _|].
        apply string_app_cons_inv in H as [[_ [H _]]|[x2 [-> H]]];
          [discriminate H|].
        apply string_app_cons_inv in H as [[_ [H _]]|[x3 [-> H]]];
          [discriminate H|].
        apply string_app_cons_inv in H as [[_ [H _]]|[x4 [-> H]]];
          [discriminate H|].
        symmetry in H. exact (IH _ _ _ _ H).
      * intros H. symmetry in H.
        apply string_app_cons_inv in H as [[_ [_ H]]|[x1 [-> H]]].
        -- symmetry in H. exact (replace_numeric_ids_head _ _ _ Hhead H).
        -- symmetry in H. exact (IH _ _ _ _ H).
    + intros H. symmetry in H.
      apply string_app_cons_inv in H as [[_ [H _]]|[x1 [-> H]]].
      * subst ch. discriminate Hslash.
      * symmetry in H. exact (IH _ _ _ _ H).
Qed.
End NumericIdsGone.

(** X11. A normalised route never holds a ["/"] directly followed by a
    digit: no numeric path segment survives [normalizeRoute], whatever
    the route. *)
Theorem normalizeRoute_leaves_no_numeric_segment :
  forall (route a b : string) (c : ascii),
    MetricsService.normalizeRoute route = a ++ "/" ++ String c b ->
    is_digit c = false.
Proof.
  intros route a b c. unfold MetricsService.normalizeRoute.
  set (out := MetricsService.replace_numeric_ids false _).
  intros H.
  destruct (substring0_prefix 100 out) as [Hprefix _].
  rewrite H in Hprefix.
  apply (replace_numeric_ids_no_numeric_id
           (MetricsService.replace_fixed MetricsService.UUID ":id" 0 route)
           false a c (b ++ drop (Z.to_nat 100) out)).
  fold out. rewrite <- Hprefix at 1. now rewrite string_app_assoc.
Qed.

Lemma normalizeRoute_no_numeric_witness :
  MetricsService.normalizeRoute "/orders/42/items/7" = "/orders/:id/items/:id"
  /\ is_digit ":" = false.
Proof.
  split; [reflexivity|].
  apply (normalizeRoute_leaves_no_numeric_segment
           "/orders/42/items/7" "/orders" "id/items/:id" ":").
  reflexivity.
Defined.


(* ================================================================= *)
(** ** Routing keys *)

Section LongNumeric.
Import MetricsService.

Lemma no_dash_no_uuid_prefix s :
  all_chars (fun c => negb (is_dash c)) s = true -> matches UUID s = false.
Proof.
  intros H. destruct (matches UUID s) eqn:Hm; [exfalso|reflexivity].
  unfold UUID in Hm.
  destruct s as [|c0 [|c1 [|c2 [|c3 [|c4 [|c5 [|c6 [|c7 [|c8 s]]]]]]]]];
    cbn [matches List.repeat Datatypes.app] in Hm; rewrite ?andb_false_r in Hm;
    try discriminate Hm.
  cbn [all_chars] in H.
  do 8 (apply andb_true_iff in H as [_ H]).
  apply andb_true_iff in H as [H8 _].
  do 8 (apply andb_true_iff in Hm as [_ Hm]).
  apply andb_true_iff in Hm as [Hd _].
  apply negb_true_iff in H8. congruence.
Qed.

Lemma no_dash_no_match s :
  all_chars (fun c => negb (is_dash c)) s = true -> contains_match UUID s = false.
Proof.
  induction s as [|c r IH]; intros H; [reflexivity|].
  cbn [contains_match]. rewrite (no_dash_no_uuid_prefix _ H).
  cbn [all_chars] in H. apply andb_true_iff in H as [_ H]. now apply IH.
Qed.

Lemma digit_run_head x : head_is_digit x = false -> digit_run x = O.
Proof. destruct x as [|c x]; [reflexivity|]. cbn. now intros ->. Qed.

Lemma digit_run_digits d s :
  all_chars is_digit d = true ->
  digit_run (d ++ s) = (String.length d + digit_run s)%nat.
Proof.
  induction d as [|c d IH]; [reflexivity|]. cbn [all_chars]. intros H.
  apply andb_true_iff in H as [Hc Hd].
  change (String c d ++ s) with (String c (d ++ s)).
  cbn [digit_run String.length]. rewrite Hc. now rewrite IH.
Qed.

Lemma is_digit_not_dot c : is_digit c = true -> Ascii.eqb c "." = false.
Proof.
  destruct c as [[] [] [] [] [] [] [] []]; intros H;
    solve [reflexivity | discriminate H].
Qed.

Lemma replace_long_numeric_word a s :
  all_chars (fun c => negb (is_digit c)) a = true ->
  head_is_digit s = false ->
  replace_long_numeric 0 (a ++ s) = a ++ replace_long_numeric 0 s.
Proof.
  induction a as [|c a IH]; [reflexivity|]. cbn [all_chars]. intros H Hs.
  apply andb_true_iff in H as [Hc Ha].
  change (String c a ++ s) with (String c (a ++ s)).
  cbn [replace_long_numeric].
  assert (Hrun : digit_run (a ++ s) = O).
  { apply digit_run_head. destruct a as [|c' a']; [exact Hs|].
    cbn [all_chars] in Ha. apply andb_true_iff in Ha as [Hc' _].
    cbn. now apply negb_true_iff. }
  rewrite Hrun. cbn [Nat.leb andb]. rewrite andb_false_r. cbn [andb].
  now rewrite IH.
Qed.

Lemma replace_long_numeric_plain a :
  all_chars (fun c => negb (is_digit c)) a = true ->
  replace_long_numeric 0 a = a.
Proof.
  intros H. rewrite <- (string_app_nil_r a) at 1.
  rewrite replace_long_numeric_word by (exact H || reflexivity).
  apply string_app_nil_r.
Qed.

Lemma replace_long_numeric_digits d s :
  all_chars is_digit d = true ->
  replace_long_numeric 0 (d ++ s) = d ++ replace_long_numeric 0 s.
Proof.
  induction d as [|c d IH]; [reflexivity|]. cbn [all_chars]. intros H.
  apply andb_true_iff in H as [Hc Hd].
  change (String c d ++ s) with (String c (d ++ s)).
  cbn [replace_long_numeric]. rewrite (is_digit_not_dot _ Hc). cbn [andb].
  now rewrite IH.
Qed.

Lemma replace_long_numeric_skip x s :
  replace_long_numeric (String.length x) (x ++ s) = replace_long_numeric 0 s.
Proof.
  induction x as [|c x IH]; [now destruct s|].
  change (String c x ++ s) with (String c (x ++ s)).
  cbn [String.length replace_long_numeric]. exact IH.
Qed.

Lemma replace_long_numeric_match d b :
  all_chars is_digit d = true -> (10 <= String.length d)%nat ->
  replace_long_numeric 0 (String "." (d ++ String "." b))
  = ".*." ++ replace_long_numeric 0 b.
Proof.
  intros Hd Hlen. cbn [replace_long_numeric].
  rewrite digit_run_digits by exact Hd. cbn [digit_run is_digit].
  replace (is_digit ".") with false by reflexivity.
  rewrite Nat.add_0_r, drop_length_app.
  replace (10 <=? String.length d)%nat with true
    by (symmetry; now apply Nat.leb_le).
  cbn [Ascii.eqb Bool.eqb andb startsWith]. f_equal.
  replace (d ++ String "." b) with ((d ++ ".") ++ b)
    by now rewrite string_app_assoc.
  replace (S (String.length d)) with (String.length (d ++ "."))
    by (rewrite string_length_app; cbn; lia).
  apply replace_long_numeric_skip.
Qed.

Lemma replace_long_numeric_short d b :
  all_chars is_digit d = true -> (String.length d < 10)%nat ->
  replace_long_numeric 0 (String "." (d ++ String "." b))
  = String "." (d ++ replace_long_numeric 0 (String "." b)).
Proof.
  intros Hd Hlen. cbn [replace_long_numeric].
  rewrite digit_run_digits by exact Hd. cbn [digit_run is_digit].
  replace (is_digit ".") with false by reflexivity.
  rewrite Nat.add_0_r.
  replace (10 <=? String.length d)%nat with false
    by (symmetry; apply Nat.leb_gt; lia).
  rewrite andb_false_r. cbn [andb].
  now rewrite replace_long_numeric_digits.
Qed.

Lemma replace_long_numeric_last d :
  all_chars is_digit d = true ->
  replace_long_numeric 0 (String "." d) = String "." d.
Proof.
  intros Hd.
  assert (Hrun : digit_run d = String.length d).
  { pose proof (digit_run_digits d "" Hd) as H.
    rewrite string_app_nil_r in H. cbn [digit_run] in H. lia. }
  assert (Hdrop : drop (String.length d) d = "").
  { pose proof (drop_length_app d "") as H. now rewrite string_app_nil_r in H. }
  assert (Hcopy : replace_long_numeric 0 d = d).
  { pose proof (replace_long_numeric_digits d "" Hd) as H.
    now rewrite !string_app_nil_r in H. }
  cbn [replace_long_numeric]. rewrite Hrun, Hdrop. cbn [startsWith].
  rewrite andb_false_r. now rewrite Hcopy.
Qed.
End LongNumeric.


Lemma normalizeRoutingKey_no_dash key :
  all_chars (fun c => negb (MetricsService.is_dash c)) key = true ->
  MetricsService.normalizeRoutingKey key
  = substring0 100 (MetricsService.replace_long_numeric 0 key).
Proof.
  intros H. unfold MetricsService.normalizeRoutingKey.
  now rewrite (replace_fixed_no_match "*" key (no_dash_no_match key H)).
Qed.

(** X12. [normalizeRoutingKey] caps the key at 100 characters.  On a key
    made of words without digits and dashes around dot-separated runs of
    digits: a run of ten digits or more between two dots becomes ["*"];
    a shorter run is kept; a run that ends the key is kept, having no dot
    after it; and of two long runs in a row only the first is replaced,
    because the match takes the dot between them.  A key without digits
    and dashes is only cut. *)
Theorem normalizeRoutingKey_replaces_long_numeric_segments :
  let word := all_chars (fun c => negb (is_digit c) && negb (MetricsService.is_dash c)) in
  let digits := all_chars is_digit in
  (forall key, (String.length (MetricsService.normalizeRoutingKey key) <= 100)%nat)
  /\ (forall p, word p = true ->
                MetricsService.normalizeRoutingKey p = substring0 100 p)
  /\ (forall p d s,
        word p = true -> digits d = true -> word s = true ->
        ((10 <= String.length d)%nat ->
         MetricsService.normalizeRoutingKey (p ++ "." ++ d ++ "." ++ s)
         = substring0 100 (p ++ ".*." ++ s))
        /\ ((String.length d < 10)%nat ->
            MetricsService.normalizeRoutingKey (p ++ "." ++ d ++ "." ++ s)
            = substring0 100 (p ++ "." ++ d ++ "." ++ s))
        /\ MetricsService.normalizeRoutingKey (p ++ "." ++ d)
           = substring0 100 (p ++ "." ++ d)
        /\ (forall d',
              digits d' = true -> (10 <= String.length d)%nat ->
              MetricsService.normalizeRoutingKey
                (p ++ "." ++ d ++ "." ++ d' ++ "." ++ s)
              = substring0 100 (p ++ ".*." ++ d' ++ "." ++ s))).
Proof.
  intros word digits.
  assert (Hnodigit : forall x, word x = true ->
                               all_chars (fun c => negb (is_digit c)) x = true).
  { intros x. apply all_chars_weaken. intros c H.
    now apply andb_true_iff in H as [H _]. }
  assert (Hword : forall x, word x = true ->
                            all_chars (fun c => negb (MetricsService.is_dash c)) x = true).
  { intros x. apply all_chars_weaken. intros c H.
    now apply andb_true_iff in H as [_ H]. }
  assert (Hdigits : forall x, digits x = true ->
                              all_chars (fun c => negb (MetricsService.is_dash c)) x = true).
  { intros x. apply all_chars_weaken. intros c H.
    now rewrite (is_digit_not_dash c H). }
  split; [|split].
  - intros key. apply substring0_length.
  - intros p Hp. rewrite normalizeRoutingKey_no_dash by now apply Hword.
    now rewrite replace_long_numeric_plain by now apply Hnodigit.
  - intros p d s Hp Hd Hs.
    assert (Hdot : all_chars (fun c => negb (is_digit c)) (String "." s) = true).
    { cbn [all_chars]. now rewrite (Hnodigit s Hs). }
    split; [|split; [|split]].
    + intros Hlen. rewrite normalizeRoutingKey_no_dash.
      * rewrite replace_long_numeric_word by (reflexivity || now apply Hnodigit).
        change ("." ++ d ++ "." ++ s) with (String "." (d ++ String "." s)).
        rewrite replace_long_numeric_match by assumption.
        now rewrite replace_long_numeric_plain by now apply Hnodigit.
      * rewrite !all_chars_app, (Hword p Hp), (Hdigits d Hd), (Hword s Hs).
        reflexivity.
    + intros Hlen. rewrite normalizeRoutingKey_no_dash.
      * rewrite replace_long_numeric_word by (reflexivity || now apply Hnodigit).
        change ("." ++ d ++ "." ++ s) with (String "." (d ++ String "." s)).
        rewrite replace_long_numeric_short by assumption.
        now rewrite replace_long_numeric_plain by exact Hdot.
      * rewrite !all_chars_app, (Hword p Hp), (Hdigits d Hd), (Hword s Hs).
        reflexivity.
    + rewrite normalizeRoutingKey_no_dash.
      * rewrite replace_long_numeric_word by (reflexivity || now apply Hnodigit).
        change ("." ++ d) with (String "." d).
        now rewrite replace_long_numeric_last by assumption.
      * rewrite !all_chars_app, (Hword p Hp), (Hdigits d Hd). reflexivity.
    + intros d' Hd' Hlen. rewrite normalizeRoutingKey_no_dash.
      * rewrite replace_long_numeric_word by (reflexivity || now apply Hnodigit).
        change ("." ++ d ++ "." ++ d' ++ "." ++ s)
          with (String "." (d ++ String "." (d' ++ String "." s))).
        rewrite replace_long_numeric_match by assumption.
        rewrite replace_long_numeric_digits by assumption.
        now rewrite replace_long_numeric_plain by exact Hdot.
      * rewrite !all_chars_app, (Hword p Hp), (Hdigits d Hd), (Hdigits d' Hd'),
          (Hword s Hs).
        reflexivity.
Qed.

Lemma normalizeRoutingKey_witness :
  MetricsService.normalizeRoutingKey "order.1234567890.created" = "order.*.created"
  /\ MetricsService.normalizeRoutingKey "order.1234567890.9876543210.created"
     = "order.*.9876543210.created"
  /\ MetricsService.normalizeRoutingKey "order.1234567890" = "order.1234567890".
Proof.
  destruct normalizeRoutingKey_replaces_long_numeric_segments as [_ [_ H]].
  destruct (H "order" "1234567890" "created" eq_refl eq_refl eq_refl)
    as [Hlong [_ [Hlast Htwo]]].
  split; [|split].
  - apply Hlong. cbn. lia.
  - apply (Htwo "9876543210"); [reflexivity | cbn; lia].
  - exact Hlast.
Defined.


(* ================================================================= *)
(** ** The HTTP metrics interceptor *)

Lemma tap_values_counts (f : JValue -> M unit) (i : Instrument) (l : Attributes)
      (c : Z) :
  (forall v w, fst (f v w) = Normal tt
               /\ MetricsService.counter_value i l (metricLog (snd (f v w)))
                  = (MetricsService.counter_value i l (metricLog w) + c)%Z) ->
  forall vs t w,
    MetricsService.counter_value i l (metricLog (snd (Rx.tap_values f vs t w)))
    = (MetricsService.counter_value i l (metricLog w)
       + Z.of_nat (List.length vs) * c)%Z.
Proof.
  intros Hf vs t. induction vs as [|v r IH]; intros w.
  - cbn [Rx.tap_values snd List.length]. lia.
  - cbn [Rx.tap_values]. destruct (Hf v w) as [Hret Hcount].
    destruct (f v w) as [[[]|e] w1]; [|discriminate Hret].
    cbn [snd] in Hcount. specialize (IH w1).
    destruct (Rx.tap_values f r t w1) as [o w2]. cbn [snd] in *.
    rewrite IH, Hcount. cbn [List.length]. lia.
Qed.

Section HttpMetricsProperties.
Import HttpMetricsInterceptor.
Variable dateNow : World -> Z.
Variable stringAtLeast400 : string -> bool.

Lemma some_prefix_string p prefixes :
  some_prefix (JStr p) prefixes
  = Normal (existsb (fun ignored => startsWith p ignored) prefixes).
Proof.
  induction prefixes as [|x r IH]; [reflexivity|].
  cbn [some_prefix callStartsWith bindC existsb].
  destruct (startsWith p x); [reflexivity | exact IH].
Qed.

(** What one recording adds to the two HTTP counters. *)
Lemma recordMetrics_counts request route statusCode startTime w :
  getRoute request = JStr route ->
  let named : Attributes :=
    [ ("method", Js.toString (Js.getProp request "method"));
      ("route", MetricsService.normalizeRoute route);
      ("status_code", Js.toString statusCode) ] in
  let run := recordMetrics dateNow stringAtLeast400 request statusCode startTime w in
  fst run = Normal tt
  /\ (forall l,
        MetricsService.counter_value httpRequestsTotal l (metricLog (snd run))
        = (MetricsService.counter_value httpRequestsTotal l (metricLog w)
           + MetricsService.bump (MetricsService.labels_eqb named l))%Z
        /\ MetricsService.counter_value httpErrorsTotal l (metricLog (snd run))
           = (MetricsService.counter_value httpErrorsTotal l (metricLog w)
              + MetricsService.bump (atLeast400 stringAtLeast400 statusCode
                                     && MetricsService.labels_eqb named l))%Z).
Proof.
  intros Hroute named run. subst run.
  unfold recordMetrics, recordHttpRequest. rewrite Hroute.
  unfold bind, gets, lift, MetricsService.add, MetricsService.record, modify, when_.
  cbn [callNormalizeRoute fst snd]. fold named.
  destruct (atLeast400 stringAtLeast400 statusCode);
    cbn [fst snd metricLog log_metric ret]; (split; [reflexivity|]);
    intros l; rewrite !counter_value_app;
    cbn [MetricsService.counter_value instrument measurement
           labels MetricsService.instrument_eqb andb];
    destruct (MetricsService.labels_eqb named l);
    cbn [MetricsService.bump andb]; split; lia.
Qed.
End HttpMetricsProperties.


(** X13. The HTTP metrics interceptor leaves the stream and every
    metric alone outside the [http] context and on a path that starts
    with ["/health"], ["/healthz"], ["/ready"], ["/metrics"] or
    ["/favicon.ico"] (a prefix test: ["/healthcheck"] and ["/ready-set"]
    are skipped as well). *)
Theorem http_metrics_skip_other_contexts_and_ignored_paths :
  forall (dateNow : World -> Z) (stringAtLeast400 : string -> bool)
         (ctx : ExecutionContext) (response : JValue)
         (next : Rx.Observable) (w : World),
    let run :=
      HttpMetricsInterceptor.intercept dateNow stringAtLeast400 ctx response next w in
    (getType ctx <> "http" -> run = (Normal next, w))
    /\ (forall prefix rest,
          getType ctx = "http" ->
          In prefix HttpMetricsInterceptor.ignoredPaths ->
          Js.member (request ctx) "path" = Normal (JStr (prefix ++ rest)) ->
          run = (Normal next, w)).
Proof.
  intros dateNow sge ctx response next w run. subst run.
  unfold HttpMetricsInterceptor.intercept. split.
  - intros Htype. apply String.eqb_neq in Htype. now rewrite Htype.
  - intros prefix rest Htype Hin Hpath. rewrite Htype, Hpath.
    cbn [String.eqb Ascii.eqb Bool.eqb negb bindC].
    unfold HttpMetricsInterceptor.shouldIgnore. rewrite some_prefix_string.
    replace (existsb _ _) with true; [reflexivity|].
    symmetry. apply existsb_exists. exists prefix. split; [exact Hin|].
    apply startsWith_spec. now exists rest.
Qed.

Lemma http_metrics_skip_witness :
  let ctx :=
    mkExecutionContext "http" "check" "HealthController"
      (JObj [("method", JStr "GET"); ("path", JStr "/healthcheck/db")])
      JUndefined JUndefined JUndefined JUndefined in
  HttpMetricsInterceptor.intercept
    InterceptScenario.clock (fun _ => false) ctx (JObj [("statusCode", JNum 200)])
    (Rx.mkObservable [JStr "ok"] Rx.Completes) PublishScenario.idle
  = (Normal (Rx.mkObservable [JStr "ok"] Rx.Completes), PublishScenario.idle).
Proof.
  intros ctx.
  destruct (http_metrics_skip_other_contexts_and_ignored_paths
              InterceptScenario.clock (fun _ => false) ctx
              (JObj [("statusCode", JNum 200)])
              (Rx.mkObservable [JStr "ok"] Rx.Completes) PublishScenario.idle)
    as [_ H].
  apply (H "/health" "check/db"); [reflexivity | now left | reflexivity].
Defined.


Section HttpMetricsRecording.
Import HttpMetricsInterceptor.
Variable dateNow : World -> Z.
Variable stringAtLeast400 : string -> bool.
Variable ctx : ExecutionContext.
Variable response : JValue.
Variable path route : string.
Variable status : JValue.
Hypothesis Htype : getType ctx = "http".
Hypothesis Hpath : Js.member (request ctx) "path" = Normal (JStr path).
Hypothesis Hmeasured :
  existsb (fun ignored => startsWith path ignored) ignoredPaths = false.
Hypothesis Hroute : getRoute (request ctx) = JStr route.
Hypothesis Hstatus : Js.member response "statusCode" = Normal status.

Local Notation "'named' s" :=
  ([ ("method", Js.toString (Js.getProp (request ctx) "method"));
     ("route", MetricsService.normalizeRoute route);
     ("status_code", Js.toString s) ] : Attributes)
  (at level 10, only parsing).

Local Notation "'onValue' startTime" :=
  (fun _ : JValue =>
     statusCode <~ lift (Js.member response "statusCode") ;;
     recordMetrics dateNow stringAtLeast400 (request ctx) statusCode startTime)
  (at level 10, only parsing).

Local Notation "'onError' startTime" :=
  (fun error : JValue =>
     statusCode <~ lift (errorStatus error) ;;
     recordMetrics dateNow stringAtLeast400 (request ctx) statusCode startTime ;;;
     @throw Rx.Observable error)
  (at level 10, only parsing).

Lemma http_intercept_measured next w :
  intercept dateNow stringAtLeast400 ctx response next w
  = let tapped := Rx.tap (onValue (dateNow w)) next w in
    let caught := Rx.catchError (onError (dateNow w)) (fst tapped) (snd tapped) in
    (Normal (fst caught), snd caught).
Proof.
  unfold intercept. rewrite Htype, Hpath.
  cbn [String.eqb Ascii.eqb Bool.eqb negb bindC].
  unfold shouldIgnore. rewrite some_prefix_string, Hmeasured.
  destruct (Rx.tap _ next w) as [tapped w1]. cbn [fst snd].
  now destruct (Rx.catchError _ tapped w1).
Qed.

Lemma http_onValue startTime v w :
  fst ((onValue startTime) v w) = Normal tt
  /\ forall l,
       MetricsService.counter_value httpRequestsTotal l
         (metricLog (snd ((onValue startTime) v w)))
       = (MetricsService.counter_value httpRequestsTotal l (metricLog w)
          + MetricsService.bump (MetricsService.labels_eqb (named status) l))%Z
       /\ MetricsService.counter_value httpErrorsTotal l
            (metricLog (snd ((onValue startTime) v w)))
          = (MetricsService.counter_value httpErrorsTotal l (metricLog w)
             + MetricsService.bump (atLeast400 stringAtLeast400 status
                                    && MetricsService.labels_eqb (named status) l))%Z.
Proof.
  unfold bind at 1, lift. rewrite Hstatus.
  exact (recordMetrics_counts dateNow stringAtLeast400 (request ctx) route status
           startTime w Hroute).
Qed.

Lemma http_tapped startTime vs t w :
  let tapped := Rx.tap (onValue startTime) (Rx.mkObservable vs t) w in
  fst tapped = Rx.mkObservable vs t
  /\ forall l,
       MetricsService.counter_value httpRequestsTotal l (metricLog (snd tapped))
       = (MetricsService.counter_value httpRequestsTotal l (metricLog w)
          + Z.of_nat (List.length vs)
            * MetricsService.bump (MetricsService.labels_eqb (named status) l))%Z
       /\ MetricsService.counter_value httpErrorsTotal l (metricLog (snd tapped))
          = (MetricsService.counter_value httpErrorsTotal l (metricLog w)
             + Z.of_nat (List.length vs)
               * MetricsService.bump (atLeast400 stringAtLeast400 status
                                      && MetricsService.labels_eqb (named status) l))%Z.
Proof.
  intros tapped. subst tapped. unfold Rx.tap. cbn [Rx.values Rx.terminal].
  split.
  - apply tap_values_total. intros v w0. apply (http_onValue startTime v w0).
  - intros l. split.
    + apply (tap_values_counts (onValue startTime)). intros v w0.
      destruct (http_onValue startTime v w0) as [H1 H2]. split; [exact H1|].
      apply H2.
    + apply (tap_values_counts (onValue startTime)). intros v w0.
      destruct (http_onValue startTime v w0) as [H1 H2]. split; [exact H1|].
      apply H2.
Qed.
End HttpMetricsRecording.


(** X14. On a measured HTTP route of a request whose method is a
    string, the interceptor hands on the values
    and the end of the handler's stream as they are, and counts one
    request per value with the response's status code; when the stream
    fails it counts one more request with the status
    [error.status || error.statusCode || 500] and rethrows the very same
    error.  Each counted request also counts as an error when its status
    is at least 400.  When the handler fails with [null] or [undefined]
    the status cannot be read: the stream then ends with that
    [TypeError] and the failure is not counted. *)
Theorem http_metrics_count_every_value_and_the_failure :
  forall (dateNow : World -> Z) (stringAtLeast400 : string -> bool)
         (ctx : ExecutionContext) (response : JValue)
         (path route method : string) (status : JValue)
         (vs : list JValue) (terminal : Rx.Terminal) (w : World),
    getType ctx = "http" ->
    Js.member (request ctx) "path" = Normal (JStr path) ->
    existsb (fun ignored => startsWith path ignored)
            HttpMetricsInterceptor.ignoredPaths = false ->
    HttpMetricsInterceptor.getRoute (request ctx) = JStr route ->
    Js.getProp (request ctx) "method" = JStr method ->
    Js.member response "statusCode" = Normal status ->
    let named (s : JValue) : Attributes :=
      [ ("method", method);
        ("route", MetricsService.normalizeRoute route);
        ("status_code", Js.toString s) ] in
    let run :=
      HttpMetricsInterceptor.intercept dateNow stringAtLeast400 ctx response
        (Rx.mkObservable vs terminal) w in
    let counted (i : Instrument) (l : Attributes) : Z :=
      (MetricsService.counter_value i l (metricLog (snd run))
       - MetricsService.counter_value i l (metricLog w))%Z in
    let perValue (l : Attributes) : Z :=
      (Z.of_nat (List.length vs)
       * MetricsService.bump (MetricsService.labels_eqb (named status) l))%Z in
    let perValueError (l : Attributes) : Z :=
      (Z.of_nat (List.length vs)
       * MetricsService.bump
           (HttpMetricsInterceptor.atLeast400 stringAtLeast400 status
            && MetricsService.labels_eqb (named status) l))%Z in
    (terminal = Rx.Completes ->
     fst run = Normal (Rx.mkObservable vs Rx.Completes)
     /\ forall l, counted httpRequestsTotal l = perValue l
                  /\ counted httpErrorsTotal l = perValueError l)
    /\ (forall error errStatus,
          terminal = Rx.Errors error ->
          HttpMetricsInterceptor.errorStatus error = Normal errStatus ->
          fst run = Normal (Rx.mkObservable vs (Rx.Errors error))
          /\ forall l,
               counted httpRequestsTotal l
               = (perValue l
                  + MetricsService.bump
                      (MetricsService.labels_eqb (named errStatus) l))%Z
               /\ counted httpErrorsTotal l
                  = (perValueError l
                     + MetricsService.bump
                         (HttpMetricsInterceptor.atLeast400 stringAtLeast400 errStatus
                          && MetricsService.labels_eqb (named errStatus) l))%Z)
    /\ (forall error x,
          terminal = Rx.Errors error ->
          HttpMetricsInterceptor.errorStatus error = Throw x ->
          fst run = Normal (Rx.mkObservable vs (Rx.Errors x))
          /\ forall l, counted httpRequestsTotal l = perValue l
                       /\ counted httpErrorsTotal l = perValueError l).
Proof.
  intros dateNow sge ctx response path route method status vs terminal w
         Htype Hpath Hmeasured Hroute Hmethod Hstatus named run counted perValue
         perValueError.
  subst run counted perValue perValueError named.
  assert (Hm : method = Js.toString (Js.getProp (request ctx) "method"))
    by now rewrite Hmethod.
  clear Hmethod. subst method.
  rewrite (http_intercept_measured dateNow sge ctx response path
             Htype Hpath Hmeasured).
  cbn zeta. cbn beta.
  destruct (http_tapped dateNow sge ctx response route status Hroute Hstatus
              (dateNow w) vs terminal w) as [Hstream Hcount].
  cbn zeta in Hstream, Hcount.
  destruct (Rx.tap _ (Rx.mkObservable vs terminal) w) as [tapped w1].
  cbn [fst snd] in *. subst tapped.
  split; [|split].
  - intros ->. unfold Rx.catchError. cbn [Rx.terminal fst snd].
    split; [reflexivity|]. intros l. destruct (Hcount l) as [H1 H2].
    rewrite H1, H2. split; lia.
  - intros error errStatus -> Herr.
    destruct (recordMetrics_counts dateNow sge (request ctx) route errStatus
                (dateNow w) w1 Hroute) as [Hret Hadd].
    cbn zeta in Hret, Hadd.
    match goal with
    | |- context [Rx.catchError ?sel ?o ?w0] =>
        assert (Hcaught :
                  Rx.catchError sel o w0
                  = (Rx.mkObservable vs (Rx.Errors error),
                     snd (HttpMetricsInterceptor.recordMetrics dateNow sge
                            (request ctx) errStatus (dateNow w) w1)))
    end.
    { unfold Rx.catchError, bind, lift. cbn [Rx.terminal Rx.values].
      rewrite Herr.
      destruct (HttpMetricsInterceptor.recordMetrics _ _ _ errStatus _ w1)
        as [[[]|e] w2]; [reflexivity | discriminate Hret]. }
    rewrite Hcaught. cbn [fst snd]. split; [reflexivity|].
    intros l. destruct (Hcount l) as [H1 H2]. destruct (Hadd l) as [H3 H4].
    rewrite H3, H4, H1, H2. split; lia.
  - intros error x -> Herr.
    match goal with
    | |- context [Rx.catchError ?sel ?o ?w0] =>
        assert (Hcaught :
                  Rx.catchError sel o w0
                  = (Rx.mkObservable vs (Rx.Errors x), w1))
    end.
    { unfold Rx.catchError, bind, lift. cbn [Rx.terminal Rx.values].
      now rewrite Herr. }
    rewrite Hcaught. cbn [fst snd]. split; [reflexivity|].
    intros l. destruct (Hcount l) as [H1 H2].
    rewrite H1, H2. split; lia.
Qed.


Lemma http_metrics_failure_witness :
  let run :=
    HttpMetricsInterceptor.intercept
      InterceptScenario.clock HttpScenario.no_numeric_strings
      HttpScenario.order_request HttpScenario.ok_response
      (Rx.mkObservable [] (Rx.Errors HttpScenario.not_found)) PublishScenario.idle in
  fst run = Normal (Rx.mkObservable [] (Rx.Errors HttpScenario.not_found))
  /\ (MetricsService.counter_value httpErrorsTotal HttpScenario.not_found_labels
        (metricLog (snd run))
      - MetricsService.counter_value httpErrorsTotal HttpScenario.not_found_labels
          (metricLog PublishScenario.idle))%Z
     = 1%Z.
Proof.
  intros run.
  destruct (http_metrics_count_every_value_and_the_failure
              InterceptScenario.clock HttpScenario.no_numeric_strings
              HttpScenario.order_request HttpScenario.ok_response
              "/orders/7" "/orders/:id" "GET" (JNum 200)
              [] (Rx.Errors HttpScenario.not_found) PublishScenario.idle
              eq_refl eq_refl eq_refl eq_refl eq_refl eq_refl) as [_ [H _]].
  destruct (H HttpScenario.not_found (JNum 404) eq_refl eq_refl) as [Hstream Hcount].
  split; [exact Hstream|].
  destruct (Hcount HttpScenario.not_found_labels) as [_ Herrors].
  etransitivity; [exact Herrors | reflexivity].
Defined.


(* ================================================================= *)
(** ** The paths left out of traces and of metrics *)

Lemma startsWith_before_query a b p :
  all_chars (fun c => negb (Ascii.eqb c "?")) p = true ->
  startsWith (a ++ String "?" b) p = startsWith a p.
Proof.
  revert a. induction p as [|c p IH]; intros a Hp; [reflexivity|].
  cbn [all_chars] in Hp. apply andb_true_iff in Hp as [Hc Hp].
  apply negb_true_iff in Hc.
  destruct a as [|x a].
  - cbn [append startsWith]. now rewrite Hc.
  - change (String x a ++ String "?" b) with (String x (a ++ String "?" b)).
    cbn [startsWith]. now rewrite IH.
Qed.

(** X15. The metrics interceptor and the HTTP instrumentation of
    [initTracing] leave out the same requests, whether the URL carries a
    query string or not, except that the metrics interceptor also leaves
    out the paths that start with ["/favicon.ico"]; a request without a
    URL is traced. *)
Theorem metrics_and_tracing_ignore_the_same_paths :
  (forall path,
      HttpMetricsInterceptor.shouldIgnore (JStr path)
      = Normal (TracingBootstrap.ignoreIncomingRequestHook (Some path)
                || startsWith path "/favicon.ico"))
  /\ (forall path query,
        HttpMetricsInterceptor.shouldIgnore (JStr path)
        = Normal (TracingBootstrap.ignoreIncomingRequestHook
                    (Some (path ++ "?" ++ query))
                  || startsWith path "/favicon.ico"))
  /\ TracingBootstrap.ignoreIncomingRequestHook None = false.
Proof.
  assert (H : forall path,
             HttpMetricsInterceptor.shouldIgnore (JStr path)
             = Normal (TracingBootstrap.ignoreIncomingRequestHook (Some path)
                       || startsWith path "/favicon.ico")).
  { intros path. unfold HttpMetricsInterceptor.shouldIgnore.
    rewrite some_prefix_string. f_equal.
    unfold HttpMetricsInterceptor.ignoredPaths,
      TracingBootstrap.ignoreIncomingRequestHook.
    cbn [existsb]. rewrite !orb_false_r. now rewrite !orb_assoc. }
  split; [exact H|split; [|reflexivity]].
  intros path query. rewrite H. do 2 f_equal.
  unfold TracingBootstrap.ignoreIncomingRequestHook. cbn [existsb].
  change (path ++ "?" ++ query) with (path ++ String "?" query).
  now rewrite !startsWith_before_query by reflexivity.
Qed.


(* ================================================================= *)
(** ** Initialisation of the remote sink *)

(** X16. When [initOtelLogger] fails it answers [null] and switches the
    sink off.  A later initialisation that succeeds installs the logger
    but does not switch the sink back on: log calls still never reach
    the logger, until [markOtlpAvailable] is called. *)
Theorem failed_initialisation_keeps_the_sink_off :
  forall (e : JValue) (logger : Logger) (w : World),
    let failed := snd (OtelLogger.initOtelLogger (Throw e) w) in
    let retried := snd (OtelLogger.initOtelLogger (Normal logger) failed) in
    fst (OtelLogger.initOtelLogger (Throw e) w) = Normal None
    /\ fst (OtelLogger.isOtelLoggerAvailable failed) = Normal false
    /\ fst (OtelLogger.initOtelLogger (Normal logger) failed) = Normal (Some logger)
    /\ fst (OtelLogger.isOtelLoggerAvailable retried) = Normal false
    /\ (forall this amb level message meta,
          emitCalls (snd (StructuredLogger.writeLog this amb level message meta
                            retried))
          = emitCalls w)
    /\ fst (OtelLogger.isOtelLoggerAvailable
              (snd (OtelLogger.markOtlpAvailable retried))) = Normal true.
Proof.
  intros e logger w failed retried.
  repeat split; try reflexivity.
  intros this amb level message meta.
  now rewrite degraded_sink_is_skipped.
Qed.


(* ================================================================= *)
(** ** The span of a publish *)

Lemma publish_resolved startSpan propagator originalPublish
      exchange routingKey message options w result :
  let span := startSpan (exchange ++ " publish") PRODUCER w in
  let call :=
    RabbitMQPublishInterceptor.outgoing propagator span exchange routingKey
      message options in
  originalPublish call = Normal result ->
  RabbitMQPublishInterceptor.publish startSpan propagator originalPublish
    exchange routingKey message options w
  = (Normal result,
     log_span (mkSpanEvent span SpanEnd)
       (log_span (mkSpanEvent span (SpanSetStatus StatusOK))
          (log_publish call
             (log_span
                (mkSpanEvent span (SpanStart (exchange ++ " publish") PRODUCER))
                w)))).
Proof.
  intros span call Hresolve. subst call.
  unfold RabbitMQPublishInterceptor.outgoing in *. subst span.
  unfold RabbitMQPublishInterceptor.publish, tryFinally, tryCatch,
    RabbitMQPublishInterceptor.call_original, Tracing.tracer_startSpan,
    bind, modify, lift, throw, ret, Tracing.span_do.
  cbn beta iota. now rewrite Hresolve.
Qed.

(** X17. Every call of the wrapped publish starts one producer span
    named after the exchange, calls the original once, and ends the span
    once, after setting its status: OK when the original resolves, ERROR
    with the failure recorded when it rejects.  What the original
    answers, value or rejection, is what the caller gets; no metric is
    touched. *)
Theorem publish_starts_and_ends_one_span :
  forall (startSpan : string -> SpanKind -> World -> SpanContext)
         (propagator : SpanContext -> list (string * string))
         (originalPublish : PublishCall -> Completion bool)
         (exchange routingKey : string) (message : JValue)
         (options : option (list (string * JValue))) (w : World),
    let span := startSpan (exchange ++ " publish") PRODUCER w in
    let call :=
      RabbitMQPublishInterceptor.outgoing propagator span exchange routingKey
        message options in
    let run :=
      RabbitMQPublishInterceptor.publish startSpan propagator originalPublish
        exchange routingKey message options w in
    fst run = originalPublish call
    /\ spanLog (snd run)
       = (spanLog w
          ++ [mkSpanEvent span (SpanStart (exchange ++ " publish") PRODUCER)]
          ++ match originalPublish call with
             | Normal _ => [mkSpanEvent span (SpanSetStatus StatusOK)]
             | Throw error => Tracing.failure_events span error
             end
          ++ [mkSpanEvent span SpanEnd])%list
    /\ publishLog (snd run) = (publishLog w ++ [call])%list
    /\ metricLog (snd run) = metricLog w.
Proof.
  intros startSpan propagator originalPublish exchange routingKey message
         options w span call run. subst run.
  destruct (originalPublish call) as [result|error] eqn:Hcall.
  - rewrite (publish_resolved startSpan propagator originalPublish
               exchange routingKey message options w result Hcall).
    cbn [fst snd spanLog publishLog metricLog log_span log_publish].
    repeat split. now rewrite <- !app_assoc.
  - rewrite (publish_rejected startSpan propagator originalPublish
               exchange routingKey message options w error Hcall).
    fold span call. cbn [fst snd].
    match goal with
    | |- context [Tracing.recordFailure span error ?w1] =>
        destruct (recordFailure_runs span error w1) as [_ [Hspans Hmetrics]];
        assert (Hpublish : publishLog (snd (Tracing.recordFailure span error w1))
                           = publishLog w1)
    end.
    { unfold Tracing.recordFailure, bind, Tracing.span_do, modify.
      now destruct (Js.instanceofError error). }
    cbn [spanLog publishLog metricLog log_span log_publish].
    rewrite Hspans, Hpublish, Hmetrics.
    cbn [spanLog publishLog metricLog log_span log_publish].
    repeat split. now rewrite <- !app_assoc.
Qed.


(* ================================================================= *)
(** ** What the trace interceptors count *)

Lemma tap_values_adds (measure : World -> Z) (f : JValue -> M unit) (c : Z) :
  (forall v w, fst (f v w) = Normal tt
               /\ measure (snd (f v w)) = (measure w + c)%Z) ->
  forall vs t w,
    measure (snd (Rx.tap_values f vs t w))
    = (measure w + Z.of_nat (List.length vs) * c)%Z.
Proof.
  intros Hf vs t. induction vs as [|v r IH]; intros w.
  - cbn [Rx.tap_values snd List.length]. lia.
  - cbn [Rx.tap_values]. destruct (Hf v w) as [Hret Hcount].
    destruct (f v w) as [[[]|e] w1]; [|discriminate Hret].
    cbn [snd] in Hcount. specialize (IH w1).
    destruct (Rx.tap_values f r t w1) as [o w2]. cbn [snd] in *.
    rewrite IH, Hcount. cbn [List.length]. lia.
Qed.

Lemma ends_app a b : SpanLog.ends (a ++ b)%list = (SpanLog.ends a + SpanLog.ends b)%Z.
Proof. unfold SpanLog.ends. rewrite filter_app, length_app. lia. Qed.

Lemma ends_failure_events span error :
  SpanLog.ends (Tracing.failure_events span error) = 0%Z.
Proof.
  unfold Tracing.failure_events. now destruct (Js.instanceofError error).
Qed.

Section WebSocketCounts.
Import WebSocketTraceInterceptor.
Variable startSpan : string -> SpanKind -> World -> SpanContext.
Variable dateNow : World -> Z.

Lemma ws_onSuccess_adds span name startTime v w :
  let after := snd (onSuccess dateNow span name startTime v w) in
  SpanLog.ends (spanLog after) = (SpanLog.ends (spanLog w) + 1)%Z
  /\ forall l,
       MetricsService.counter_value wsEventsTotal l (metricLog after)
       = (MetricsService.counter_value wsEventsTotal l (metricLog w)
          + MetricsService.bump (MetricsService.labels_eqb [("event", name)] l))%Z
       /\ MetricsService.counter_value wsErrorsTotal l (metricLog after)
          = (MetricsService.counter_value wsErrorsTotal l (metricLog w) + 0)%Z.
Proof.
  unfold onSuccess, endSpanSuccess, elapsed, MetricsService.recordWsEvent,
    MetricsService.add, MetricsService.record, Tracing.span_do, when_,
    bind, modify, gets, ret.
  destruct (_ && _);
    cbn [fst snd spanLog metricLog log_span log_metric negb
           MetricsService.ws_success MetricsService.ws_durationMs
           MetricsService.ws_labels MetricsService.ws_event];
    (split; [rewrite !ends_app; cbn; lia|]);
    intros l; rewrite !counter_value_app;
    unfold MetricsService.ws_labels;
    cbn [MetricsService.counter_value instrument measurement labels
           MetricsService.instrument_eqb andb MetricsService.ws_event];
    destruct (MetricsService.labels_eqb [("event", name)] l);
    cbn [MetricsService.bump]; split; lia.
Qed.

Lemma ws_onError_adds span name startTime error w :
  let run := onError dateNow span name startTime error w in
  fst run = Throw error
  /\ SpanLog.ends (spanLog (snd run)) = (SpanLog.ends (spanLog w) + 1)%Z
  /\ forall l,
       MetricsService.counter_value wsEventsTotal l (metricLog (snd run))
       = (MetricsService.counter_value wsEventsTotal l (metricLog w)
          + MetricsService.bump (MetricsService.labels_eqb [("event", name)] l))%Z
       /\ MetricsService.counter_value wsErrorsTotal l (metricLog (snd run))
          = (MetricsService.counter_value wsErrorsTotal l (metricLog w)
             + MetricsService.bump (MetricsService.labels_eqb [("event", name)] l))%Z.
Proof.
  unfold onError, Tracing.endSpanError, Tracing.span_do, elapsed,
    MetricsService.recordWsEvent, MetricsService.add, MetricsService.record,
    when_, bind, modify, gets, ret, throw.
  destruct (recordFailure_runs span error w) as [Hok [Hspans Hmetrics]].
  destruct (Tracing.recordFailure span error w) as [r w1].
  cbn [fst snd] in Hok, Hspans, Hmetrics. subst r.
  cbn [fst snd spanLog metricLog log_span log_metric negb
         MetricsService.ws_success MetricsService.ws_durationMs
         MetricsService.ws_labels MetricsService.ws_event].
  split; [reflexivity|split].
  - rewrite Hspans, !ends_app, ends_failure_events. cbn. lia.
  - intros l. rewrite Hmetrics, !counter_value_app.
    unfold MetricsService.ws_labels.
    cbn [MetricsService.counter_value instrument measurement labels
           MetricsService.instrument_eqb andb MetricsService.ws_event].
    destruct (MetricsService.labels_eqb [("event", name)] l);
      cbn [MetricsService.bump]; split; lia.
Qed.
End WebSocketCounts.


Lemma ws_span_started startSpan ctx w :
  let started := WebSocketTraceInterceptor.span_started startSpan ctx w in
  SpanLog.ends (spanLog started) = SpanLog.ends (spanLog w)
  /\ metricLog started = metricLog w.
Proof.
  unfold WebSocketTraceInterceptor.span_started. cbn zeta.
  destruct (Js.truthy _); cbn [spanLog metricLog log_span];
    rewrite !ends_app; cbn; split; (lia || reflexivity).
Qed.

(** X18. The WebSocket trace interceptor leaves the stream alone
    outside the [ws] context.  In it, for a client object, the handler's
    stream reaches the caller as it is, failure included; the event counter grows by one
    per value and by one for the failure, the error counter only for the
    failure, all under the handler's name; and the span is ended once
    per value and once for the failure: never when the stream completes
    without a value, twice when a value is followed by a failure. *)
Theorem ws_trace_counts_values_and_failure :
  forall (startSpan : string -> SpanKind -> World -> SpanContext)
         (dateNow : World -> Z) (ctx : ExecutionContext)
         (vs : list JValue) (terminal : Rx.Terminal) (w : World),
    let next := Rx.mkObservable vs terminal in
    let run := WebSocketTraceInterceptor.intercept startSpan dateNow ctx next w in
    let failed : Z :=
      match terminal with Rx.Errors _ => 1%Z | Rx.Completes => 0%Z end in
    let named : Attributes := [("event", handlerName ctx)] in
    (getType ctx <> "ws" -> run = (next, w))
    /\ (getType ctx = "ws" -> Js.isObjectLike (client ctx) = true ->
        fst run = next
        /\ SpanLog.ends (spanLog (snd run))
           = (SpanLog.ends (spanLog w) + Z.of_nat (List.length vs) + failed)%Z
        /\ forall l,
             MetricsService.counter_value wsEventsTotal l (metricLog (snd run))
             = (MetricsService.counter_value wsEventsTotal l (metricLog w)
                + (Z.of_nat (List.length vs) + failed)
                  * MetricsService.bump (MetricsService.labels_eqb named l))%Z
             /\ MetricsService.counter_value wsErrorsTotal l (metricLog (snd run))
                = (MetricsService.counter_value wsErrorsTotal l (metricLog w)
                   + failed
                     * MetricsService.bump (MetricsService.labels_eqb named l))%Z).
Proof.
  intros startSpan dateNow ctx vs terminal w next run failed named.
  subst run next failed named. unfold WebSocketTraceInterceptor.intercept. split.
  - intros Htype. apply String.eqb_neq in Htype. now rewrite Htype.
  - intros Htype _. rewrite Htype. cbn [String.eqb Ascii.eqb Bool.eqb negb].
    destruct (ws_span_started startSpan ctx w) as [Hends0 Hmetrics0].
    cbn zeta in Hends0, Hmetrics0.
    set (w0 := WebSocketTraceInterceptor.span_started startSpan ctx w) in *.
    set (span := WebSocketTraceInterceptor.event_span startSpan ctx w).
    set (f := WebSocketTraceInterceptor.onSuccess dateNow span (handlerName ctx)
                (dateNow w0)).
    assert (Hf : forall v w1, fst (f v w1) = Normal tt)
      by (intros; apply onSuccess_total).
    pose proof (tap_values_total f Hf vs terminal w0) as Hstream.
    pose proof (tap_values_adds (fun w1 => SpanLog.ends (spanLog w1)) f 1
                  (fun v w1 =>
                     conj (Hf v w1)
                          (proj1 (ws_onSuccess_adds dateNow span (handlerName ctx)
                                    (dateNow w0) v w1)))
                  vs terminal w0) as Hends.
    assert (Hcount : forall l,
               MetricsService.counter_value wsEventsTotal l
                 (metricLog (snd (Rx.tap_values f vs terminal w0)))
               = (MetricsService.counter_value wsEventsTotal l (metricLog w0)
                  + Z.of_nat (List.length vs)
                    * MetricsService.bump
                        (MetricsService.labels_eqb [("event", handlerName ctx)] l))%Z
               /\ MetricsService.counter_value wsErrorsTotal l
                    (metricLog (snd (Rx.tap_values f vs terminal w0)))
                  = (MetricsService.counter_value wsErrorsTotal l (metricLog w0)
                     + Z.of_nat (List.length vs) * 0)%Z).
    { intros l. split.
      - apply (tap_values_adds
                 (fun w1 => MetricsService.counter_value wsEventsTotal l (metricLog w1))).
        intros v w1. split; [apply Hf|].
        apply (ws_onSuccess_adds dateNow span (handlerName ctx) (dateNow w0) v w1).
      - apply (tap_values_adds
                 (fun w1 => MetricsService.counter_value wsErrorsTotal l (metricLog w1))).
        intros v w1. split; [apply Hf|].
        apply (ws_onSuccess_adds dateNow span (handlerName ctx) (dateNow w0) v w1). }
    unfold Rx.tap. cbn [Rx.values Rx.terminal].
    destruct (Rx.tap_values f vs terminal w0) as [tapped w1].
    cbn [fst snd] in Hstream, Hends, Hcount. subst tapped.
    unfold Rx.catchError. cbn [Rx.terminal Rx.values].
    destruct terminal as [|error].
    + cbn [fst snd]. split; [reflexivity|split].
      * rewrite Hends, Hends0. lia.
      * intros l. destruct (Hcount l) as [H1 H2].
        rewrite H1, H2, Hmetrics0. split; lia.
    + destruct (ws_onError_adds dateNow span (handlerName ctx) (dateNow w0) error w1)
        as [Hthrow [Hends1 Hcount1]].
      cbn zeta in Hthrow, Hends1, Hcount1.
      destruct (WebSocketTraceInterceptor.onError dateNow span (handlerName ctx)
                  (dateNow w0) error w1) as [r w2].
      cbn [fst snd] in *. subst r. cbn [fst snd]. split; [reflexivity|split].
      * rewrite Hends1, Hends, Hends0. lia.
      * intros l. destruct (Hcount l) as [H1 H2]. destruct (Hcount1 l) as [H3 H4].
        rewrite H3, H4, H1, H2, Hmetrics0. split; lia.
Qed.

Lemma ws_trace_counts_witness :
  let run :=
    WebSocketTraceInterceptor.intercept PublishScenario.startSpan
      InterceptScenario.clock InterceptScenario.ws_context
      (Rx.mkObservable [JStr "joined"] (Rx.Errors InterceptScenario.boom))
      PublishScenario.idle in
  fst run = Rx.mkObservable [JStr "joined"] (Rx.Errors InterceptScenario.boom)
  /\ SpanLog.ends (spanLog (snd run)) = 2%Z.
Proof.
  intros run.
  destruct (ws_trace_counts_values_and_failure PublishScenario.startSpan
              InterceptScenario.clock InterceptScenario.ws_context
              [JStr "joined"] (Rx.Errors InterceptScenario.boom)
              PublishScenario.idle) as [_ H].
  destruct (H eq_refl eq_refl) as [Hstream [Hends _]].
  split; [exact Hstream | exact Hends].
Defined.


Section ConsumerCounts.
Import RabbitMQTraceInterceptor.
Variable dateNow : World -> Z.

Local Notation "'consumed' ex key" :=
  [("exchange", ex); ("routing_key", MetricsService.normalizeRoutingKey key);
   ("operation", "consume")] (at level 10, ex at level 9, key at level 9,
                              only parsing).

Lemma consumer_onSuccess_adds span ex key startTime v w :
  let run := onSuccess dateNow span (JStr ex) (JStr key) startTime v w in
  fst run = Normal tt
  /\ SpanLog.ends (spanLog (snd run)) = (SpanLog.ends (spanLog w) + 1)%Z
  /\ forall l,
       MetricsService.counter_value rabbitMessagesTotal l (metricLog (snd run))
       = (MetricsService.counter_value rabbitMessagesTotal l (metricLog w)
          + MetricsService.bump (MetricsService.labels_eqb (consumed ex key) l))%Z
       /\ MetricsService.counter_value rabbitErrorsTotal l (metricLog (snd run))
          = (MetricsService.counter_value rabbitErrorsTotal l (metricLog w) + 0)%Z.
Proof.
  unfold onSuccess, endSpanSuccess, elapsed, recordConsumed,
    MetricsService.recordRabbitMessage, MetricsService.add,
    MetricsService.record, Tracing.span_do, when_, bind, modify, gets, ret.
  cbn [fst snd spanLog metricLog log_span log_metric negb Js.toString
         MetricsService.rm_success MetricsService.rm_durationMs].
  split; [reflexivity|split].
  - rewrite !ends_app. cbn. lia.
  - intros l. rewrite !counter_value_app.
    unfold MetricsService.rabbit_labels.
    cbn [MetricsService.counter_value instrument measurement labels
           MetricsService.instrument_eqb andb MetricsService.rm_exchange
           MetricsService.rm_routingKey MetricsService.rm_operation
           MetricsService.operation_name].
    destruct (MetricsService.labels_eqb _ l);
      cbn [MetricsService.bump]; split; lia.
Qed.

Lemma consumer_onError_adds span ex key startTime error w :
  let run := onError dateNow span (JStr ex) (JStr key) startTime error w in
  fst run = Throw error
  /\ SpanLog.ends (spanLog (snd run)) = (SpanLog.ends (spanLog w) + 1)%Z
  /\ forall l,
       MetricsService.counter_value rabbitMessagesTotal l (metricLog (snd run))
       = (MetricsService.counter_value rabbitMessagesTotal l (metricLog w)
          + MetricsService.bump (MetricsService.labels_eqb (consumed ex key) l))%Z
       /\ MetricsService.counter_value rabbitErrorsTotal l (metricLog (snd run))
          = (MetricsService.counter_value rabbitErrorsTotal l (metricLog w)
             + MetricsService.bump (MetricsService.labels_eqb (consumed ex key) l))%Z.
Proof.
  unfold onError, Tracing.endSpanError, Tracing.span_do, elapsed, recordConsumed,
    MetricsService.recordRabbitMessage, MetricsService.add, MetricsService.record,
    when_, bind, modify, gets, ret, throw.
  destruct (recordFailure_runs span error w) as [Hok [Hspans Hmetrics]].
  destruct (Tracing.recordFailure span error w) as [r w1].
  cbn [fst snd] in Hok, Hspans, Hmetrics. subst r.
  cbn [fst snd spanLog metricLog log_span log_metric negb Js.toString
         MetricsService.rm_success MetricsService.rm_durationMs].
  split; [reflexivity|split].
  - rewrite Hspans, !ends_app, ends_failure_events. cbn. lia.
  - intros l. rewrite Hmetrics, !counter_value_app.
    unfold MetricsService.rabbit_labels.
    cbn [MetricsService.counter_value instrument measurement labels
           MetricsService.instrument_eqb andb MetricsService.rm_exchange
           MetricsService.rm_routingKey MetricsService.rm_operation
           MetricsService.operation_name].
    destruct (MetricsService.labels_eqb _ l);
      cbn [MetricsService.bump]; split; lia.
Qed.
End ConsumerCounts.

(** X19. The consumer's trace interceptor hands the stream over
    untouched, and records nothing, when the context is not a RabbitMQ
    one or has no message context.  Otherwise, for a message whose
    exchange and routing key are strings (['unknown'] stands in for a
    missing one), the handler's stream reaches the caller as it is,
    failure included; the messages counter grows by one per value and by
    one for the failure, the errors counter only for the failure, under
    the exchange, the normalised routing key and the operation
    [consume]; and the span is ended once per value and once for the
    failure. *)
Theorem consumer_trace_counts_values_and_failure :
  forall (startSpan : string -> SpanKind -> World -> SpanContext)
         (dateNow : World -> Z) (ctx : ExecutionContext) (args : JValue)
         (vs : list JValue) (terminal : Rx.Terminal) (w : World),
    let next := Rx.mkObservable vs terminal in
    let run := RabbitMQTraceInterceptor.intercept startSpan dateNow ctx args next w in
    let rmqContext := RabbitMQTraceInterceptor.getRmqContext ctx args in
    let fields := Js.getProp rmqContext "fields" in
    let failed : Z :=
      match terminal with Rx.Errors _ => 1%Z | Rx.Completes => 0%Z end in
    (RabbitMQTraceInterceptor.isRabbitMQContext ctx args = false
     \/ Js.truthy rmqContext = false ->
     run = (Normal next, w))
    /\ (Js.truthy (Js.getProp fields "exchange") = false ->
        RabbitMQTraceInterceptor.exchangeOf rmqContext = JStr "unknown")
    /\ (Js.truthy (Js.getProp fields "routingKey") = false ->
        RabbitMQTraceInterceptor.routingKeyOf rmqContext = JStr "unknown")
    /\ forall (exchange routingKey : string) (queue : JValue),
         RabbitMQTraceInterceptor.isRabbitMQContext ctx args = true ->
         Js.truthy rmqContext = true ->
         RabbitMQTraceInterceptor.exchangeOf rmqContext = JStr exchange ->
         RabbitMQTraceInterceptor.routingKeyOf rmqContext = JStr routingKey ->
         RabbitMQTraceInterceptor.callSplitFirst (Js.optProp fields "consumerTag")
         = Normal queue ->
         let named : Attributes :=
           [ ("exchange", exchange);
             ("routing_key", MetricsService.normalizeRoutingKey routingKey);
             ("operation", "consume") ] in
         fst run = Normal next
         /\ SpanLog.ends (spanLog (snd run))
            = (SpanLog.ends (spanLog w) + Z.of_nat (List.length vs) + failed)%Z
         /\ forall l,
              MetricsService.counter_value rabbitMessagesTotal l (metricLog (snd run))
              = (MetricsService.counter_value rabbitMessagesTotal l (metricLog w)
                 + (Z.of_nat (List.length vs) + failed)
                   * MetricsService.bump (MetricsService.labels_eqb named l))%Z
              /\ MetricsService.counter_value rabbitErrorsTotal l (metricLog (snd run))
                 = (MetricsService.counter_value rabbitErrorsTotal l (metricLog w)
                    + failed
                      * MetricsService.bump (MetricsService.labels_eqb named l))%Z.
Proof.
  intros startSpan dateNow ctx args vs terminal w next run rmqContext fields failed.
  subst run next failed fields rmqContext.
  unfold RabbitMQTraceInterceptor.intercept.
  split; [|split; [|split]].
  - intros [Hno|Hno]; rewrite Hno; cbn [negb]; [reflexivity|].
    now destruct (RabbitMQTraceInterceptor.isRabbitMQContext ctx args).
  - intros Hno. unfold RabbitMQTraceInterceptor.exchangeOf, Js.orElse, Js.optProp.
    now rewrite Hno.
  - intros Hno. unfold RabbitMQTraceInterceptor.routingKeyOf, Js.orElse, Js.optProp.
    now rewrite Hno.
  - intros exchange routingKey queue Hrmq Hcontext Hexchange Hkey Hqueue.
    cbn zeta. rewrite Hrmq, Hcontext, Hexchange, Hkey, Hqueue.
    cbn [negb Js.toString].
    set (name := exchange ++ " process").
    set (span := startSpan name CONSUMER w).
    set (w0 := log_span (mkSpanEvent span (SpanStart name CONSUMER)) w).
    assert (Hends0 : SpanLog.ends (spanLog w0) = SpanLog.ends (spanLog w))
      by (subst w0; cbn [spanLog log_span]; rewrite ends_app; cbn; lia).
    assert (Hmetrics0 : metricLog w0 = metricLog w) by reflexivity.
    set (f := RabbitMQTraceInterceptor.onSuccess dateNow span (JStr exchange)
                (JStr routingKey) (dateNow w0)).
    assert (Hf : forall v w1, fst (f v w1) = Normal tt)
      by (intros; apply consumer_onSuccess_adds).
    pose proof (tap_values_total f Hf vs terminal w0) as Hstream.
    pose proof (tap_values_adds (fun w1 => SpanLog.ends (spanLog w1)) f 1
                  (fun v w1 =>
                     conj (Hf v w1)
                          (proj1 (proj2 (consumer_onSuccess_adds dateNow span
                                           exchange routingKey (dateNow w0) v w1))))
                  vs terminal w0) as Hends.
    assert (Hcount : forall l,
               MetricsService.counter_value rabbitMessagesTotal l
                 (metricLog (snd (Rx.tap_values f vs terminal w0)))
               = (MetricsService.counter_value rabbitMessagesTotal l (metricLog w0)
                  + Z.of_nat (List.length vs)
                    * MetricsService.bump
                        (MetricsService.labels_eqb
                           [ ("exchange", exchange);
                             ("routing_key",
                              MetricsService.normalizeRoutingKey routingKey);
                             ("operation", "consume") ] l))%Z
               /\ MetricsService.counter_value rabbitErrorsTotal l
                    (metricLog (snd (Rx.tap_values f vs terminal w0)))
                  = (MetricsService.counter_value rabbitErrorsTotal l (metricLog w0)
                     + Z.of_nat (List.length vs) * 0)%Z).
    { intros l. split.
      - apply (tap_values_adds
                 (fun w1 => MetricsService.counter_value rabbitMessagesTotal l
                              (metricLog w1))).
        intros v w1. split; [apply Hf|].
        apply (consumer_onSuccess_adds dateNow span exchange routingKey
                 (dateNow w0) v w1).
      - apply (tap_values_adds
                 (fun w1 => MetricsService.counter_value rabbitErrorsTotal l
                              (metricLog w1))).
        intros v w1. split; [apply Hf|].
        apply (consumer_onSuccess_adds dateNow span exchange routingKey
                 (dateNow w0) v w1). }
    unfold Rx.tap. cbn [Rx.values Rx.terminal].
    destruct (Rx.tap_values f vs terminal w0) as [tapped w1].
    cbn [fst snd] in Hstream, Hends, Hcount. subst tapped.
    unfold Rx.catchError. cbn [Rx.terminal Rx.values].
    destruct terminal as [|error].
    + cbn [fst snd]. split; [reflexivity|split].
      * rewrite Hends, Hends0. lia.
      * intros l. destruct (Hcount l) as [H1 H2].
        rewrite H1, H2, Hmetrics0. split; lia.
    + destruct (consumer_onError_adds dateNow span exchange routingKey
                  (dateNow w0) error w1) as [Hthrow [Hends1 Hcount1]].
      cbn zeta in Hthrow, Hends1, Hcount1.
      destruct (RabbitMQTraceInterceptor.onError dateNow span (JStr exchange)
                  (JStr routingKey) (dateNow w0) error w1) as [r w2].
      cbn [fst snd] in *. subst r. cbn [fst snd]. split; [reflexivity|split].
      * rewrite Hends1, Hends, Hends0. lia.
      * intros l. destruct (Hcount l) as [H1 H2]. destruct (Hcount1 l) as [H3 H4].
        rewrite H3, H4, H1, H2, Hmetrics0. split; lia.
Qed.

Lemma consumer_trace_counts_witness :
  let run :=
    RabbitMQTraceInterceptor.intercept PublishScenario.startSpan
      InterceptScenario.clock ConsumeScenario.rmq_context
      ConsumeScenario.handler_args
      (Rx.mkObservable [JStr "charged"] (Rx.Errors InterceptScenario.boom))
      PublishScenario.idle in
  fst run
  = Normal (Rx.mkObservable [JStr "charged"] (Rx.Errors InterceptScenario.boom))
  /\ SpanLog.ends (spanLog (snd run)) = 2%Z
  /\ MetricsService.counter_value rabbitMessagesTotal
       [ ("exchange", "orders"); ("routing_key", "order.*.created");
         ("operation", "consume") ] (metricLog (snd run)) = 2%Z
  /\ MetricsService.counter_value rabbitErrorsTotal
       [ ("exchange", "orders"); ("routing_key", "order.*.created");
         ("operation", "consume") ] (metricLog (snd run)) = 1%Z.
Proof.
  intros run.
  destruct (consumer_trace_counts_values_and_failure PublishScenario.startSpan
              InterceptScenario.clock ConsumeScenario.rmq_context
              ConsumeScenario.handler_args
              [JStr "charged"] (Rx.Errors InterceptScenario.boom)
              PublishScenario.idle) as [_ [_ [_ H]]].
  destruct (H "orders" "order.1234567890.created" (JStr "billing")
              eq_refl eq_refl eq_refl eq_refl eq_refl) as [Hstream [Hends Hcount]].
  destruct (Hcount [ ("exchange", "orders"); ("routing_key", "order.*.created");
                     ("operation", "consume") ]) as [Hmessages Herrors].
  split; [exact Hstream|split; [exact Hends|split]].
  - etransitivity; [exact Hmessages|]. now vm_compute.
  - etransitivity; [exact Herrors|]. now vm_compute.
Defined.



(* ================================================================= *)
(** ** The trace context of a WebSocket event *)

Lemma lower_char_idempotent c :
  JsString.lower_char (JsString.lower_char c) = JsString.lower_char c.
Proof. destruct c as [[] [] [] [] [] [] [] []]; reflexivity. Qed.

Lemma toLowerCase_idempotent s :
  JsString.toLowerCase (JsString.toLowerCase s) = JsString.toLowerCase s.
Proof.
  unfold JsString.toLowerCase.
  induction s as [|c r IH]; cbn [JsString.map_chars]; [reflexivity|].
  now rewrite lower_char_idempotent, IH.
Qed.

Section CarrierLoop.
Import WebSocketTraceContext.

Local Notation "'step'" :=
  (fun (carrier : list (string * JValue)) (kv : string * JValue) =>
     match stringOrFirst (snd kv) with
     | Some value => Js.set (JsString.toLowerCase (fst kv)) value carrier
     | None => carrier
     end) (only parsing).

Lemma carrier_keys_lower entries :
  forall acc,
    (forall k v, In (k, v) acc -> JsString.toLowerCase k = k) ->
    forall k v, In (k, v) (fold_left step entries acc) ->
                JsString.toLowerCase k = k.
Proof.
  induction entries as [|kv r IH]; intros acc Hacc k v; cbn [fold_left].
  - apply Hacc.
  - apply IH. destruct (stringOrFirst (snd kv)) as [x|]; [|exact Hacc].
    intros k1 v1 Hin. apply In_set in Hin as [[-> _]|Hin].
    + apply toLowerCase_idempotent.
    + exact (Hacc _ _ Hin).
Qed.

Lemma carrier_get entries name x :
  (forall k' v', In (k', v') entries ->
                 JsString.toLowerCase k' = JsString.toLowerCase name ->
                 stringOrFirst v' = Some x) ->
  forall acc,
    (exists k' v', In (k', v') entries
                   /\ JsString.toLowerCase k' = JsString.toLowerCase name)
    \/ Js.get (JsString.toLowerCase name) acc = x ->
    Js.get (JsString.toLowerCase name) (fold_left step entries acc) = x.
Proof.
  induction entries as [|[k0 v0] r IH]; intros Hall acc Hsome; cbn [fold_left].
  - destruct Hsome as [[k' [v' [[] _]]]|H]. exact H.
  - apply IH; [intros k' v' Hin; apply Hall; now right|].
    cbn [fst snd].
    destruct (String.eqb (JsString.toLowerCase name) (JsString.toLowerCase k0)) eqn:E.
    + apply String.eqb_eq in E.
      rewrite (Hall k0 v0 (or_introl eq_refl) (eq_sym E)).
      right. rewrite get_set, E. now rewrite String.eqb_refl.
    + destruct Hsome as [[k' [v' [[Hin|Hin] Hk]]]|H].
      * injection Hin as <- <-. rewrite Hk, String.eqb_refl in E. discriminate.
      * left. now exists k', v'.
      * right. destruct (stringOrFirst v0); [|exact H].
        now rewrite get_set, E.
Qed.

Lemma carrier_has entries k :
  (forall k' v', In (k', v') entries -> JsString.toLowerCase k' = k ->
                 stringOrFirst v' = None) ->
  forall acc, Js.has k (fold_left step entries acc) = Js.has k acc.
Proof.
  induction entries as [|[k0 v0] r IH]; intros Hall acc; cbn [fold_left];
    [reflexivity|].
  rewrite IH by (intros k' v' Hin; apply Hall; now right).
  cbn [fst snd].
  destruct (stringOrFirst v0) as [x|] eqn:Ev; [|reflexivity].
  rewrite has_set.
  destruct (String.eqb k (JsString.toLowerCase k0)) eqn:E; [|reflexivity].
  apply String.eqb_eq in E.
  rewrite (Hall k0 v0 (or_introl eq_refl) (eq_sym E)) in Ev. discriminate.
Qed.
End CarrierLoop.



Lemma member_object_like client k :
  Js.isObjectLike client = true -> Js.member client k = Normal (Js.getProp client k).
Proof. now destruct client. Qed.

Lemma trace_context_lookup :
  forall (client data : JValue),
    Js.isObjectLike client = true ->
    JSON.distinct (map fst (Js.entries (Js.getProp data "_trace"))) = true ->
    let handshake := Js.getProp client "handshake" in
    let headers := Js.optProp handshake "headers" in
    let fromHeaders :=
      if Js.truthy headers then WebSocketTraceContext.headersToCarrier headers
      else [] in
    let traceData := Js.entries (Js.getProp data "_trace") in
    let fromPayload (key : string) : bool :=
      WebSocketTraceContext.carriesTrace data && Js.has key traceData in
    let fromQuery (key : string) : JValue :=
      WebSocketTraceContext.getQueryParam (Js.optProp handshake "query") key in
    exists carrier,
      WebSocketTraceContext.traceCarrier client data = Normal carrier
      /\ (forall key,
            key = "traceparent" \/ key = "tracestate" ->
            Js.get key carrier
            = if Js.truthy (fromQuery key) then fromQuery key
              else if fromPayload key then Js.get key traceData
                   else Js.get key fromHeaders)
      /\ (forall key,
            key <> "traceparent" -> key <> "tracestate" ->
            Js.get key carrier
            = if fromPayload key then Js.get key traceData
              else Js.get key fromHeaders).
Proof.
  intros client data Hclient Hdistinct handshake headers fromHeaders traceData
         fromPayload fromQuery.
  unfold WebSocketTraceContext.traceCarrier.
  rewrite (member_object_like client "handshake" Hclient).
  cbn [bindC]. fold handshake. fold headers. fold fromHeaders. fold traceData.
  fold (fromQuery "traceparent"). fold (fromQuery "tracestate").
  set (merged := if WebSocketTraceContext.carriesTrace data
                 then Js.assign fromHeaders traceData else fromHeaders).
  assert (Hmerged : forall key,
             Js.get key merged
             = if fromPayload key then Js.get key traceData
               else Js.get key fromHeaders).
  { intros key. subst merged fromPayload. cbn beta.
    destruct (WebSocketTraceContext.carriesTrace data); cbn [andb];
      [|reflexivity].
    now rewrite (get_assign key fromHeaders traceData Hdistinct). }
  eexists. split; [reflexivity|]. split.
  - intros key [-> | ->].
    + destruct (Js.truthy (fromQuery "tracestate")); rewrite ?get_set;
        cbn [String.eqb Ascii.eqb Bool.eqb];
        destruct (Js.truthy (fromQuery "traceparent")); rewrite ?get_set;
        cbn [String.eqb Ascii.eqb Bool.eqb]; (reflexivity || apply Hmerged).
    + destruct (Js.truthy (fromQuery "tracestate")); rewrite ?get_set;
        cbn [String.eqb Ascii.eqb Bool.eqb]; [reflexivity|].
      destruct (Js.truthy (fromQuery "traceparent")); rewrite ?get_set;
        cbn [String.eqb Ascii.eqb Bool.eqb]; apply Hmerged.
  - intros key Hp Hs.
    apply String.eqb_neq in Hp. apply String.eqb_neq in Hs.
    destruct (Js.truthy (fromQuery "tracestate")); rewrite ?get_set, ?Hs;
      destruct (Js.truthy (fromQuery "traceparent")); rewrite ?get_set, ?Hp;
      apply Hmerged.
Qed.

(** X21. For a client object, [extractTraceContext] builds its carrier
    without throwing, and a key is looked up in this order: for
    [traceparent] and [tracestate], a truthy handshake query parameter
    first; then the payload's [_trace], when the payload is an object
    that has one holding the key; then the handshake headers. *)
Theorem trace_context_query_then_payload_then_headers :
  forall (client data : JValue),
    Js.isObjectLike client = true ->
    JSON.distinct (map fst (Js.entries (Js.getProp data "_trace"))) = true ->
    let handshake := Js.getProp client "handshake" in
    let headers := Js.optProp handshake "headers" in
    let fromHeaders :=
      if Js.truthy headers then WebSocketTraceContext.headersToCarrier headers
      else [] in
    let traceData := Js.entries (Js.getProp data "_trace") in
    let fromPayload (key : string) : bool :=
      WebSocketTraceContext.carriesTrace data && Js.has key traceData in
    let fromQuery (key : string) : JValue :=
      WebSocketTraceContext.getQueryParam (Js.optProp handshake "query") key in
    exists carrier,
      WebSocketTraceContext.traceCarrier client data = Normal carrier
      /\ (forall key,
            key = "traceparent" \/ key = "tracestate" ->
            Js.get key carrier
            = if Js.truthy (fromQuery key) then fromQuery key
              else if fromPayload key then Js.get key traceData
                   else Js.get key fromHeaders)
      /\ (forall key,
            key <> "traceparent" -> key <> "tracestate" ->
            Js.get key carrier
            = if fromPayload key then Js.get key traceData
              else Js.get key fromHeaders).
Proof. exact trace_context_lookup. Qed.

Lemma trace_context_precedence_witness :
  exists carrier,
    WebSocketTraceContext.traceCarrier HandshakeScenario.resumed
      HandshakeScenario.payload = Normal carrier
    /\ Js.get "traceparent" carrier = JStr "00-cccc-dddd-01".
Proof.
  destruct (trace_context_query_then_payload_then_headers
              HandshakeScenario.resumed HandshakeScenario.payload
              eq_refl eq_refl) as [carrier [Hrun [Hkey _]]].
  exists carrier. split; [exact Hrun|].
  exact (Hkey "traceparent" (or_introl eq_refl)).
Defined.

Lemma get_written (fields : list (string * string)) k :
  forall acc,
    Js.get k (fold_left (fun carrier kv => Js.set (fst kv) (JStr (snd kv)) carrier)
                        fields acc)
    = match RabbitMQPublishInterceptor.written k fields with
      | Some v => JStr v
      | None => Js.get k acc
      end.
Proof.
  induction fields as [|[k' v] r IH]; intros acc;
    cbn [fold_left RabbitMQPublishInterceptor.written]; [reflexivity|].
  rewrite IH. cbn [fst snd].
  destruct (RabbitMQPublishInterceptor.written k r); [reflexivity|].
  rewrite get_set. now destruct (String.eqb k k').
Qed.

Lemma has_written (fields : list (string * string)) k :
  forall acc,
    Js.has k (fold_left (fun carrier kv => Js.set (fst kv) (JStr (snd kv)) carrier)
                        fields acc)
    = Js.has k acc
      || match RabbitMQPublishInterceptor.written k fields with
         | Some _ => true
         | None => false
         end.
Proof.
  induction fields as [|[k' v] r IH]; intros acc;
    cbn [fold_left RabbitMQPublishInterceptor.written];
    [now rewrite orb_false_r|].
  rewrite IH. cbn [fst snd]. rewrite has_set.
  destruct (RabbitMQPublishInterceptor.written k r), (String.eqb k k'),
    (Js.has k acc); reflexivity.
Qed.

Lemma distinct_written (fields : list (string * string)) :
  forall acc,
    JSON.distinct (map fst acc) = true ->
    JSON.distinct
      (map fst (fold_left (fun carrier kv => Js.set (fst kv) (JStr (snd kv)) carrier)
                          fields acc)) = true.
Proof.
  induction fields as [|kv r IH]; intros acc Hd; cbn [fold_left]; [exact Hd|].
  apply IH. now apply distinct_set.
Qed.

(** X22. What [injectTraceContext] puts into a payload,
    [extractTraceContext] reads back from it: over a client object whose
    handshake query gives no [traceparent] and no [tracestate], every
    field the propagator wrote is in the carrier built from the injected
    payload, with the value written last, whatever the handshake headers
    and the payload held before. *)
Theorem injected_trace_context_is_read_back :
  forall (active : list (string * string)) (client data : JValue)
         (key value : string),
    Js.isObjectLike client = true ->
    RabbitMQPublishInterceptor.written key active = Some value ->
    let query := Js.optProp (Js.getProp client "handshake") "query" in
    Js.truthy (WebSocketTraceContext.getQueryParam query "traceparent") = false ->
    Js.truthy (WebSocketTraceContext.getQueryParam query "tracestate") = false ->
    exists carrier,
      WebSocketTraceContext.traceCarrier client
        (WebSocketTraceContext.injectTraceContext active data) = Normal carrier
      /\ Js.get key carrier = JStr value.
Proof.
  intros active client data key value Hclient Hwritten query Hparent Hstate.
  set (injected := WebSocketTraceContext.injectTraceContext active data).
  assert (Htrace : Js.getProp injected "_trace"
                   = JObj (fold_left
                             (fun carrier kv => Js.set (fst kv) (JStr (snd kv)) carrier)
                             active [])).
  { subst injected. unfold WebSocketTraceContext.injectTraceContext.
    cbn [Js.getProp]. rewrite get_set. now rewrite String.eqb_refl. }
  assert (Hcarries : WebSocketTraceContext.carriesTrace injected = true).
  { subst injected.
    unfold WebSocketTraceContext.carriesTrace, WebSocketTraceContext.injectTraceContext.
    cbn [Js.truthy Js.typeof Js.hasIn andb String.eqb Ascii.eqb Bool.eqb].
    rewrite has_set. now rewrite String.eqb_refl. }
  assert (Hdistinct : JSON.distinct
                        (map fst (Js.entries (Js.getProp injected "_trace"))) = true).
  { rewrite Htrace. cbn [Js.entries]. now apply distinct_written. }
  destruct (trace_context_lookup client injected Hclient Hdistinct)
    as [carrier [Hrun [Hkeys Hother]]].
  exists carrier. split; [exact Hrun|].
  assert (Hpayload : WebSocketTraceContext.carriesTrace injected
                     && Js.has key (Js.entries (Js.getProp injected "_trace")) = true).
  { rewrite Hcarries, Htrace. cbn [Js.entries andb].
    rewrite has_written, Hwritten. now rewrite orb_true_r. }
  assert (Hvalue : Js.get key (Js.entries (Js.getProp injected "_trace"))
                   = JStr value).
  { rewrite Htrace. cbn [Js.entries]. now rewrite get_written, Hwritten. }
  destruct (String.eqb key "traceparent") eqn:Ep;
    [apply String.eqb_eq in Ep; subst key;
     rewrite (Hkeys "traceparent" (or_introl eq_refl)); fold query;
     now rewrite Hparent, Hpayload|].
  destruct (String.eqb key "tracestate") eqn:Es;
    [apply String.eqb_eq in Es; subst key;
     rewrite (Hkeys "tracestate" (or_intror eq_refl)); fold query;
     now rewrite Hstate, Hpayload|].
  apply String.eqb_neq in Ep. apply String.eqb_neq in Es.
  rewrite (Hother key Ep Es). now rewrite Hpayload.
Qed.

Lemma injected_trace_context_witness :
  exists carrier,
    WebSocketTraceContext.traceCarrier HandshakeScenario.socket
      (WebSocketTraceContext.injectTraceContext
         [("traceparent", "00-1111-2222-01")] HandshakeScenario.payload)
    = Normal carrier
    /\ Js.get "traceparent" carrier = JStr "00-1111-2222-01".
Proof.
  exact (injected_trace_context_is_read_back
           [("traceparent", "00-1111-2222-01")] HandshakeScenario.socket
           HandshakeScenario.payload "traceparent" "00-1111-2222-01"
           eq_refl eq_refl eq_refl eq_refl).
Defined.



(* ================================================================= *)
(** ** The prototype patch is applied once *)

Lemma prototype_patch_invariant calls :
  let s := PrototypePatch.run calls in
  if PrototypePatch.isPatched s
  then PrototypePatch.prototype_publish s = PrototypePatch.tracing_wrapper
       /\ PrototypePatch.originalPublish s = Some PrototypePatch.library_publish
       /\ PrototypePatch.AmqpConnectionClass s = true
  else PrototypePatch.prototype_publish s = PrototypePatch.library_publish
       /\ PrototypePatch.originalPublish s = None.
Proof.
  unfold PrototypePatch.run.
  induction calls as [|c calls IH] using rev_ind; [now cbn|].
  rewrite fold_left_app. cbn [fold_left]. cbn zeta in *.
  destruct (fold_left PrototypePatch.step calls PrototypePatch.initial)
    as [patched orig cls proto printed].
  cbn [PrototypePatch.isPatched PrototypePatch.prototype_publish
         PrototypePatch.originalPublish PrototypePatch.AmqpConnectionClass] in IH.
  destruct patched.
  - destruct IH as [-> [-> ->]]. destruct c as [[]|]; now cbn.
  - destruct IH as [-> ->]. destruct c as [[]|]; now cbn.
Qed.

(** X23. Whatever sequence of module initialisations and restores a
    process makes, [AmqpConnection.prototype.publish] is the tracing
    wrapper exactly while [isPatched] is set, and [originalPublish] then
    holds the library's method, never the wrapper; otherwise the
    prototype has the library's method back and [originalPublish] is
    empty.  So a further initialisation of a patched prototype changes
    nothing, and [restoreOriginal] always leaves the library's method in
    place. *)
Theorem prototype_patch_is_applied_once :
  forall (calls : list PrototypePatch.Call),
    let s := PrototypePatch.run calls in
    (PrototypePatch.isPatched s = true ->
     PrototypePatch.prototype_publish s = PrototypePatch.tracing_wrapper
     /\ PrototypePatch.originalPublish s = Some PrototypePatch.library_publish
     /\ forall required, PrototypePatch.interceptPublish required s = s)
    /\ (PrototypePatch.isPatched s = false ->
        PrototypePatch.prototype_publish s = PrototypePatch.library_publish
        /\ PrototypePatch.originalPublish s = None
        /\ PrototypePatch.restoreOriginal s = s)
    /\ PrototypePatch.prototype_publish (PrototypePatch.restoreOriginal s)
       = PrototypePatch.library_publish
    /\ PrototypePatch.isPatched (PrototypePatch.restoreOriginal s) = false
    /\ PrototypePatch.consoleCalls (PrototypePatch.restoreOriginal s)
       = PrototypePatch.consoleCalls s.
Proof.
  intros calls s. pose proof (prototype_patch_invariant calls) as H.
  cbn zeta in H. fold s in H.
  destruct s as [patched orig cls proto printed].
  cbn [PrototypePatch.isPatched PrototypePatch.prototype_publish
         PrototypePatch.originalPublish PrototypePatch.AmqpConnectionClass] in *.
  destruct patched.
  - destruct H as [-> [-> ->]]. cbn. repeat split; discriminate.
  - destruct H as [-> ->]. cbn. repeat split; discriminate.
Qed.

Lemma prototype_patch_witness :
  let s :=
    PrototypePatch.run
      [ PrototypePatch.onModuleInit PrototypePatch.class_loaded;
        PrototypePatch.onModuleInit PrototypePatch.class_loaded ] in
  PrototypePatch.prototype_publish s = PrototypePatch.tracing_wrapper
  /\ PrototypePatch.originalPublish s = Some PrototypePatch.library_publish
  /\ PrototypePatch.applied s = 1%nat.
Proof.
  intros s.
  destruct (prototype_patch_is_applied_once
              [ PrototypePatch.onModuleInit PrototypePatch.class_loaded;
                PrototypePatch.onModuleInit PrototypePatch.class_loaded ])
    as [H _].
  destruct (H eq_refl) as [Hproto [Horig _]].
  split; [exact Hproto|split; [exact Horig|reflexivity]].
Defined.
